(** * irc-bot: the IRC protocol engine of [src/src/irc.c]

    A shallow embedding of the connection object ([struct irc_type]), of the
    outbound command framing ([_irc_command]) and of the functions that act
    on a connection: [set_nick], [join_channel], [parse_irc_line],
    [numeric_reply], the PRIVMSG / NOTICE / KICK handlers and
    [user_is_identified].

    Conventions.
    - A C string is a [str]: the characters before the terminator.
    - A [char x[N]] member is a [buffer]: its [N] raw bytes.  Reading it as a
      string ([cstr]) fails when it holds no terminator; writing outside it is
      a fault.
    - Functions that touch the connection run in the monad [M]: state passing
      over [world], a chronological trace of [event]s, and faults.
    - Diagnostics on stdout / stderr ([puts], [fputs], [perror], [fprintf]) are
      not network traffic and are left out, and with them [cfg.verbose].
    - A socket write that fails ends the process ([exit_msg]); the traces
      below are those of runs whose writes succeed. *)

From Stdlib Require Import String Ascii List ZArith Lia Bool.
From Stdlib.Strings Require Import Byte.
Import ListNotations.

(** ** Characters, strings and buffers *)

Definition str := list ascii.
Definition buffer := list ascii.

Definition lit (s : string) : str := list_ascii_of_string s.

Definition NUL : ascii := Ascii.zero.
Definition CR : ascii := ascii_of_nat 13.
Definition LF : ascii := ascii_of_nat 10.
Definition CRLF : str := [CR; LF].

Definition is_nul (c : ascii) : bool := Ascii.eqb c NUL.

Fixpoint str_eqb (a b : str) : bool :=
  match a, b with
  | [], [] => true
  | x :: a', y :: b' => Ascii.eqb x y && str_eqb a' b'
  | _, _ => false
  end.

(** [nul_free s]: [s] is the content of a C string. *)
Definition nul_free (s : str) : bool := forallb (fun c => negb (is_nul c)) s.

(** Membership of a character in a delimiter set. *)
Definition mem (c : ascii) (set : str) : bool := existsb (Ascii.eqb c) set.

(** No character of [s] is in the delimiter set. *)
Definition free_of (delim : str) (s : str) : bool :=
  forallb (fun c => negb (mem c delim)) s.

(** ** Faults and the result type *)

Inductive fault : Type :=
| OutOfBounds      (* an access outside the addressed array *)
| Unterminated     (* a string read that runs off the end of its buffer *)
| PastTerminator   (* a read of the bytes that follow a string's terminator *)
| NullPointer      (* a NULL pointer handed to a string function *)
| AssertFailed     (* assert() aborted the process *)
| Exited.          (* exit_msg() ended the process *)

Inductive result (A : Type) : Type :=
| Val (a : A)
| Err (f : fault).

Arguments Val {A} a.
Arguments Err {A} f.

(** ** The C library, on strings and buffers *)

(** The string stored at the start of raw bytes: everything before the first
    terminator. *)
Fixpoint cstr (b : buffer) : result str :=
  match b with
  | [] => Err Unterminated
  | c :: b' =>
      if is_nul c then Val []
      else match cstr b' with
           | Val s => Val (c :: s)
           | Err f => Err f
           end
  end.

(** [p + k] for a pointer [p] to raw bytes. *)
Definition offset (b : buffer) (k : nat) : buffer := skipn k b.

(** [strncpy(dst, src, n)]: exactly [n] bytes are written, the first [n]
    characters of [src], followed by terminators when [src] is shorter than
    [n]; no terminator is written when [src] has [n] characters or more.
    When source and destination are the same array ([set_nick] on the
    connection's own nick) the bytes written are the ones just read. *)
Definition strncpy (dst : buffer) (src : str) (n : nat) : result buffer :=
  if Nat.ltb (length dst) n then Err OutOfBounds
  else Val (firstn n (src ++ repeat NUL n) ++ skipn n dst).

(** [strcat(dst, src)]: [src] and a terminator are written from the
    terminator of [dst] on, with no regard for the size of [dst]. *)
Definition strcat (dst : buffer) (src : str) : result buffer :=
  match cstr dst with
  | Err f => Err f
  | Val s =>
      if Nat.ltb (length dst) (length s + length src + 1) then Err OutOfBounds
      else Val (s ++ src ++ NUL :: skipn (length s + length src + 1) dst)
  end.

(** [strcmp(s, b) == 0] for a string [s] and raw bytes [b]: the bytes of [b]
    are read up to the first difference. *)
Fixpoint strcmp_eq (s : str) (b : buffer) : result bool :=
  match s, b with
  | _, [] => Err Unterminated
  | [], c :: _ => Val (is_nul c)
  | x :: s', c :: b' =>
      if is_nul c then Val false
      else if Ascii.eqb x c then strcmp_eq s' b' else Val false
  end.

(** [strchr(s, c) != NULL]. *)
Definition strchr (s : str) (c : ascii) : bool := existsb (Ascii.eqb c) s.

(** The characters of [s] before the first one of [set] / from it on. *)
Fixpoint span_until (set : str) (s : str) : str * str :=
  match s with
  | [] => ([], [])
  | c :: s' =>
      if mem c set then ([], s)
      else let (tok, rest) := span_until set s' in (c :: tok, rest)
  end.

Fixpoint skip_leading (set : str) (s : str) : str :=
  match s with
  | [] => []
  | c :: s' => if mem c set then skip_leading set s' else s
  end.

(** One step of [strtok] on the string [s] it is positioned on: the token
    found, if any, and the string the saved pointer is left on.  The
    delimiter that ends a token is overwritten by a terminator and the saved
    pointer is put after it. *)
Definition strtok_step (s : str) (delim : str) : option str * str :=
  match skip_leading delim s with
  | [] => (None, [])
  | c :: s' =>
      match span_until delim (c :: s') with
      | (tok, []) => (Some tok, [])
      | (tok, _ :: rest) => (Some tok, rest)
      end
  end.

(** [isspace] and [isdigit] in the C locale. *)
Definition isspace (c : ascii) : bool :=
  let n := nat_of_ascii c in Nat.eqb n 32 || (Nat.leb 9 n && Nat.leb n 13).

Definition isdigit (c : ascii) : bool :=
  let n := nat_of_ascii c in Nat.leb 48 n && Nat.leb n 57.

Definition digit_value (c : ascii) : Z := (Z.of_nat (nat_of_ascii c) - 48)%Z.

Fixpoint digits (acc : Z) (s : str) : Z :=
  match s with
  | c :: s' => if isdigit c then digits (10 * acc + digit_value c)%Z s' else acc
  | [] => acc
  end.

Fixpoint skip_spaces (s : str) : str :=
  match s with
  | c :: s' => if isspace c then skip_spaces s' else s
  | [] => []
  end.

Definition LONG_MAX : Z := (2 ^ 63 - 1)%Z.
Definition LONG_MIN : Z := (- 2 ^ 63)%Z.
Definition INT_MAX : Z := (2 ^ 31 - 1)%Z.

(** [strtol(s, NULL, 10)]: white space, an optional sign, the leading digits;
    out of range values are clamped. *)
Definition strtol (s : str) : Z :=
  let v :=
    match skip_spaces s with
    | c :: r =>
        if Ascii.eqb c "-" then (- digits 0 r)%Z
        else if Ascii.eqb c "+" then digits 0 r
        else digits 0 (c :: r)
    | [] => 0%Z
    end in
  Z.max LONG_MIN (Z.min LONG_MAX v).

(** Conversion of a [long] to [int]: the low 32 bits, signed. *)
Definition to_int (v : Z) : Z := ((v + 2 ^ 31) mod 2 ^ 32 - 2 ^ 31)%Z.

(** [atoi(s)], which is [(int) strtol(s, NULL, 10)]. *)
Definition atoi (s : str) : Z := to_int (strtol s).

(** [strstr(s, sub)]: the suffix of [s] that starts at the first occurrence
    of [sub]. *)
Fixpoint is_prefix (p s : str) : bool :=
  match p, s with
  | [], _ => true
  | x :: p', y :: s' => Ascii.eqb x y && is_prefix p' s'
  | _ :: _, [] => false
  end.

Fixpoint strstr (s sub : str) : option str :=
  if is_prefix sub s then Some s
  else match s with
       | [] => None
       | _ :: s' => strstr s' sub
       end.

(** The first [n] bytes of [b] read as a string, the way [strncpy] reads its
    source: up to a terminator, and no further than [n] bytes. *)
Fixpoint strnread (b : buffer) (n : nat) : result str :=
  match n with
  | O => Val []
  | S n' =>
      match b with
      | [] => Err OutOfBounds
      | c :: b' =>
          if is_nul c then Val []
          else match strnread b' n' with
               | Val s => Val (c :: s)
               | Err f => Err f
               end
      end
  end.

(** ** Helpers of [common.h] *)

(** Modelled from the spec: [starts_with] is declared in [common.h], which is
    not among the sources; "a line beginning with [PING]" is a prefix test. *)
Definition starts_with (s prefix : str) : bool := is_prefix prefix s.

(** Modelled from the spec: [null_terminate] is declared in [common.h], which
    is not among the sources; "sender is truncated at [!]": the first
    occurrence of the character is overwritten by a terminator, and the call
    tells whether there was one. *)
Definition null_terminate (s : str) (c : ascii) : option str :=
  if strchr s c then Some (fst (span_until [c] s)) else None.

(** Modelled from the spec: [streq] is declared in [common.h], which is not
    among the sources; "exact name match" is [strcmp(a, b) == 0].  [streq]
    compares two strings, [streq_member] a string with a member array of the
    connection. *)
Definition streq (a b : str) : bool := str_eqb a b.
Definition streq_member (a : str) (b : buffer) : result bool := strcmp_eq a b.

(** ** The data model *)

(** [irc.h] is not among the sources: the sizes of the fixed buffers and the
    two reply codes that [numeric_reply] switches on are parameters. *)
Record irc_h : Type := {
  IRCLEN : nat;          (* longest protocol line *)
  NICKLEN : nat;         (* sizeof nick *)
  CHANLEN : nat;         (* sizeof one channel name *)
  MAXCHANS : nat;        (* rows of the channel table *)
  NICKNAMEINUSE : Z;     (* reply code "nickname in use" *)
  ENDOFMOTD : Z          (* reply code "end of MOTD" *)
}.

(** The reply codes of RFC 1459, with sizes for the worked examples. *)
Definition sample_irc_h : irc_h :=
  {| IRCLEN := 512; NICKLEN := 20; CHANLEN := 50; MAXCHANS := 5;
     NICKNAMEINUSE := 433; ENDOFMOTD := 376 |}.

(** [struct irc_type], without the descriptors ([sock], [pipe]), the receive
    buffer [line] (its bytes are an input of [parse_irc_line]) and the
    members no modelled function touches ([address], [port], [user]). *)
Record irc_type : Type := {
  line_offset : nat;
  nick : buffer;                (* char nick[NICKLEN] *)
  channels : list buffer;       (* char channels[MAXCHANS][CHANLEN] *)
  channels_set : Z;             (* int *)
  isConnected : bool
}.

(** What a registered name resolves to: one of the three handlers of
    [irc.c], or a bot command, whose body is out of scope. *)
Inductive handler : Type :=
| h_irc_privmsg
| h_irc_notice
| h_irc_kick
| h_bot (name : str).

(** [Parsed_data]: four [char *] into the receive buffer; [target] and
    [message] can be NULL. *)
Record Parsed_data : Type := {
  sender : str;
  command : str;
  message : option str;
  target : option str
}.

Inductive event : Type :=
| Sent (bytes : str)                           (* sock_write_non_blocking *)
| Slept (seconds : nat)                        (* sleep *)
| Forked (h : handler) (pdata : Parsed_data)   (* fork, the child runs [h] *)
| Called (h : handler) (pdata : Parsed_data)   (* a bot command run inline *)
| PipeWritten (auth_level : Z)                 (* write(pipe[1], &auth_level, 4) *)
| PipeClosed.                                  (* close of both pipe ends *)

(** The connection together with the globals the handlers use: the bot
    version and NickServ password of [cfg], and the saved pointer of
    [strtok]. *)
Record world : Type := {
  server : irc_type;
  bot_version : str;
  nick_password : str;
  strtok_save : str
}.

Definition with_server (w : world) (s : irc_type) : world :=
  {| server := s; bot_version := bot_version w;
     nick_password := nick_password w; strtok_save := strtok_save w |}.

Definition with_save (w : world) (p : str) : world :=
  {| server := server w; bot_version := bot_version w;
     nick_password := nick_password w; strtok_save := p |}.

Definition with_password (w : world) (p : str) : world :=
  {| server := server w; bot_version := bot_version w;
     nick_password := p; strtok_save := strtok_save w |}.

Definition with_nick (s : irc_type) (b : buffer) : irc_type :=
  {| line_offset := line_offset s; nick := b; channels := channels s;
     channels_set := channels_set s; isConnected := isConnected s |}.

Definition with_channels (s : irc_type) (c : list buffer) : irc_type :=
  {| line_offset := line_offset s; nick := nick s; channels := c;
     channels_set := channels_set s; isConnected := isConnected s |}.

Definition with_channels_set (s : irc_type) (n : Z) : irc_type :=
  {| line_offset := line_offset s; nick := nick s; channels := channels s;
     channels_set := n; isConnected := isConnected s |}.

Definition with_isConnected (s : irc_type) (b : bool) : irc_type :=
  {| line_offset := line_offset s; nick := nick s; channels := channels s;
     channels_set := channels_set s; isConnected := b |}.

Definition with_line_offset (s : irc_type) (n : nat) : irc_type :=
  {| line_offset := n; nick := nick s; channels := channels s;
     channels_set := channels_set s; isConnected := isConnected s |}.

(** ** The monad: state, trace, faults *)

Inductive outcome (A : Type) : Type :=
| Ok (a : A) (w : world) (t : list event)
| Fault (f : fault).

Arguments Ok {A} a w t.
Arguments Fault {A} f.

Definition M (A : Type) : Type := world -> outcome A.

Definition ret {A} (a : A) : M A := fun w => Ok a w [].

Definition bind {A B} (m : M A) (k : A -> M B) : M B :=
  fun w =>
    match m w with
    | Ok a w1 t1 =>
        match k a w1 with
        | Ok b w2 t2 => Ok b w2 (t1 ++ t2)
        | Fault f => Fault f
        end
    | Fault f => Fault f
    end.

Declare Scope irc_scope.
Delimit Scope irc_scope with irc.
Notation "x <- m ;; k" := (bind m (fun x => k))
  (at level 61, m at next level, right associativity) : irc_scope.
Notation "m ;; k" := (bind m (fun _ => k))
  (at level 61, right associativity) : irc_scope.
Local Open Scope irc_scope.

Definition fail {A} (f : fault) : M A := fun _ => Fault f.
Definition lift {A} (r : result A) : M A :=
  fun w => match r with Val a => Ok a w [] | Err f => Fault f end.
Definition emit (e : event) : M unit := fun w => Ok tt w [e].
Definition get_server : M irc_type := fun w => Ok (server w) w [].
Definition modify_server (f : irc_type -> irc_type) : M unit :=
  fun w => Ok tt (with_server w (f (server w))) [].
Definition get_world : M world := fun w => Ok w w [].
Definition modify_world (f : world -> world) : M unit := fun w => Ok tt (f w) [].

(** [strtok(s, delim)]; [s = None] is the call with NULL, which goes on from
    the saved pointer. *)
Definition strtok (s : option str) (delim : str) : M (option str) :=
  fun w =>
    let src := match s with Some x => x | None => strtok_save w end in
    let (tok, rest) := strtok_step src delim in
    Ok tok (with_save w rest) [].

Definition list_set {A} (l : list A) (i : nat) (x : A) : list A :=
  firstn i l ++ x :: skipn (S i) l.

(** [errno.h] on Linux. *)
Definition EAGAIN : Z := 11%Z.

(** The four bytes of an [int] in memory, lowest address first, after a
    [read] delivered [bs] into them (little-endian, as on x86 and ARM Linux). *)
Definition int_of_bytes (bs : list byte) : Z :=
  to_int (fold_right (fun b acc => (Z.of_N (Byte.to_N b) + 256 * acc)%Z) 0%Z bs).

Definition overlay (delivered old : list byte) : list byte :=
  delivered ++ skipn (length delivered) old.

(** ** The engine *)

Section Engine.

Variable H : irc_h.

(** [gperf.h] is not among the sources: the registry is a parameter. *)
Variable function_lookup : str -> option handler.

(** [_irc_command(server, type, target, format, ...)].  [format] stands for
    the text that the format string and its arguments expand to, [None] for
    the NULL format of the wrapper macros, which leaves [msg] empty. *)
Definition _irc_command (type target : str) (format : option str) : M unit :=
  let msg := match format with
             | Some text => firstn (IRCLEN H - 50 - 1) text
             | None => []
             end in
  let irc_msg := match msg with
                 | _ :: _ => type ++ lit " " ++ target ++ lit " :" ++ msg ++ CRLF
                 | [] => type ++ lit " " ++ target ++ CRLF
                 end in
  emit (Sent (firstn (IRCLEN H - 1) irc_msg)).

Definition irc_nick_command (target : str) : M unit :=
  _irc_command (lit "NICK") target None.
Definition irc_channel_command (target : str) : M unit :=
  _irc_command (lit "JOIN") target None.
Definition irc_ping_command (target : str) : M unit :=
  _irc_command (lit "PONG") target None.

(** Modelled from the spec: [send_message] and [send_notice] are macros of
    [irc.h], which is not among the sources; "replies via PRIVMSG/NOTICE",
    framed as ["<TYPE> <target> :<text>\r\n"]. *)
Definition send_message (target text : str) : M unit :=
  _irc_command (lit "PRIVMSG") target (Some text).
Definition send_notice (target text : str) : M unit :=
  _irc_command (lit "NOTICE") target (Some text).

(** [server->channels[i]] for an [int] index. *)
Definition channel_row (i : Z) : M buffer :=
  s <- get_server ;;
  if ((0 <=? i) && (i <? Z.of_nat (MAXCHANS H)))%Z then
    match nth_error (channels s) (Z.to_nat i) with
    | Some row => ret row
    | None => fail OutOfBounds
    end
  else fail OutOfBounds.

Definition set_channel_row (i : Z) (row : buffer) : M unit :=
  modify_server
    (fun s => with_channels s (list_set (channels s) (Z.to_nat i) row)).

Definition set_nick (nick_arg : str) : M unit :=
  s <- get_server ;;
  b <- lift (strncpy (nick s) nick_arg (NICKLEN H)) ;;
  modify_server (fun s => with_nick s b) ;;
  name <- lift (cstr b) ;;
  irc_nick_command name.

(** The replay loop of [join_channel]: [count] iterations are left. *)
Fixpoint join_recorded (count : nat) (i : Z) : M Z :=
  match count with
  | O => ret i
  | S count' =>
      row <- channel_row i ;;
      name <- lift (cstr row) ;;
      irc_channel_command name ;;
      join_recorded count' (i + 1)%Z
  end.

Definition join_channel (channel : option str) : M Z :=
  match channel with
  | Some ch =>
      (match ch with
       | "#"%char :: _ => ret tt
       | _ => fail AssertFailed
       end) ;;
      s <- get_server ;;
      if (channels_set s =? Z.of_nat (MAXCHANS H))%Z then ret (-1)%Z
      else
        row <- channel_row (channels_set s) ;;
        row' <- lift (strncpy row ch (CHANLEN H)) ;;
        set_channel_row (channels_set s) row' ;;
        modify_server (fun s => with_channels_set s (channels_set s + 1)%Z) ;;
        s2 <- get_server ;;
        (if isConnected s2 then
           last <- channel_row (channels_set s2 - 1)%Z ;;
           name <- lift (cstr last) ;;
           irc_channel_command name
         else ret tt) ;;
        ret 1%Z
  | None =>
      s <- get_server ;;
      if isConnected s then join_recorded (Z.to_nat (channels_set s)) 0%Z
      else ret 0%Z
  end.

Definition numeric_reply (reply : Z) : M Z :=
  (if (reply =? NICKNAMEINUSE H)%Z then
     s <- get_server ;;
     b <- lift (strcat (nick s) (lit "_")) ;;
     modify_server (fun s => with_nick s b) ;;
     own <- lift (strnread b (NICKLEN H)) ;;
     set_nick own
   else if (reply =? ENDOFMOTD H)%Z then
     modify_server (fun s => with_isConnected s true) ;;
     join_channel None ;;
     ret tt
   else ret tt) ;;
  ret reply.

Definition irc_privmsg (pdata : Parsed_data) : M unit :=
  (* null_terminate(pdata.sender, '!') *)
  match null_terminate (sender pdata) "!" with
  | None => ret tt
  | Some from =>
      tgt <- strtok (message pdata) (lit " ") ;;
      match tgt with
      | None => ret tt
      | Some first =>
          (* not a channel: reply in private to the sender *)
          let reply_to := if strchr first "#" then first else from in
          cmd <- strtok None (lit " ") ;;
          match cmd with
          | None => ret tt
          | Some cmd =>
              let cmd := tl cmd in                     (* pdata.command++ *)
              msg <- strtok None [] ;;
              match cmd with
              | c :: cmd' =>
                  if Ascii.eqb c "!" then
                    match function_lookup cmd' with
                    | None => ret tt
                    | Some h =>
                        emit (Forked h {| sender := from; command := cmd';
                                          message := msg; target := Some reply_to |})
                    end
                  else if Ascii.eqb c (ascii_of_nat 1) then
                    if starts_with cmd' (lit "VERSION") then
                      w <- get_world ;;
                      send_notice from
                        (ascii_of_nat 1 :: lit "VERSION " ++ bot_version w ++ [ascii_of_nat 1])
                    else ret tt
                  else ret tt
              | [] => ret tt
              end
          end
      end
  end.

Definition irc_notice (pdata : Parsed_data) : M unit :=
  match null_terminate (sender pdata) "!" with
  | None => ret tt
  | Some from =>
      tgt <- strtok (message pdata) (lit " ") ;;
      match tgt with
      | None => ret tt
      | Some _ =>
          msg <- strtok None [] ;;
          match msg with
          | None => ret tt
          | Some msg =>
              let msg := tl msg in                     (* pdata.message++ *)
              if negb (streq from (lit "NickServ")) then ret tt
              else
                match strstr msg (lit "ACC") with
                | Some test =>
                    (* atoi(test + 4): test + 3 is the terminator when the
                       message ends with ACC *)
                    if Nat.ltb (length test) 4 then fail PastTerminator
                    else emit (PipeWritten (atoi (skipn 4 test)))
                | None =>
                    if starts_with msg (lit "This nickname is registered") then
                      w <- get_world ;;
                      send_message from (lit "identify " ++ nick_password w) ;;
                      modify_world (fun w => with_password w [])  (* memset *)
                    else ret tt
                end
          end
      end
  end.

(** The search loop of [irc_kick]: [count] iterations are left. *)
Fixpoint find_channel (name : str) (count : nat) (i : Z) : M Z :=
  match count with
  | O => ret i
  | S count' =>
      row <- channel_row i ;;
      same <- lift (streq_member name row) ;;
      if same then ret i else find_channel name count' (i + 1)%Z
  end.

Definition irc_kick (pdata : Parsed_data) : M unit :=
  match null_terminate (sender pdata) "!" with
  | None => ret tt
  | Some kicker =>
      tgt <- strtok (message pdata) (lit " ") ;;
      match tgt with
      | None => ret tt
      | Some chan =>
          v <- strtok None (lit " ") ;;
          match v with
          | None => fail NullPointer       (* null_terminate / streq on NULL *)
          | Some victim =>
              let victim := match null_terminate victim " " with
                            | Some cut => cut
                            | None => victim
                            end in
              s <- get_server ;;
              own <- lift (streq_member victim (nick s)) ;;
              if own then
                emit (Slept 4) ;;
                i <- find_channel chan (Z.to_nat (channels_set s)) 0%Z ;;
                (* strncpy(channels[i], channels[--channels_set], CHANLEN) *)
                modify_server
                  (fun s => with_channels_set s (channels_set s - 1)%Z) ;;
                s2 <- get_server ;;
                src <- channel_row (channels_set s2) ;;
                dst <- channel_row i ;;
                moved <- lift (strnread src (CHANLEN H)) ;;
                row <- lift (strncpy dst moved (CHANLEN H)) ;;
                set_channel_row i row ;;
                join_channel (Some chan) ;;
                send_message chan (kicker ++ lit " magkas...")
              else ret tt
          end
      end
  end.

(** [flist->function(server, pdata)] in the receive loop. *)
Definition run_handler (h : handler) (pdata : Parsed_data) : M unit :=
  match h with
  | h_irc_privmsg => irc_privmsg pdata
  | h_irc_notice => irc_notice pdata
  | h_irc_kick => irc_kick pdata
  | h_bot _ => emit (Called h pdata)
  end.

(** [parse_irc_line(server)], from the return of [sock_readline] on:
    [socket.h] is not among the sources, so the value [n] it returned and the
    bytes [line] of [server->line] it left are inputs. *)
Definition parse_irc_line (n : Z) (line : buffer) : M Z :=
  if (n <=? 0)%Z then
    if negb (n =? - EAGAIN)%Z then fail Exited
    else
      l <- lift (cstr line) ;;
      modify_server (fun s => with_line_offset s (length l)) ;;
      ret n
  else
    modify_server (fun s => with_line_offset s 0) ;;
    if starts_with line (lit "PING") then
      token <- lift (cstr (offset line 5)) ;;
      irc_ping_command token ;;
      ret n
    else
      rest <- lift (cstr (offset line 1)) ;;
      from <- strtok (Some rest) (lit " ") ;;
      match from with
      | None => ret n
      | Some from =>
          cmd <- strtok None (lit " ") ;;
          match cmd with
          | None => ret n
          | Some cmd =>
              msg <- strtok None [] ;;
              match msg with
              | None => ret n
              | Some msg =>
                  let pdata := {| sender := from; command := cmd;
                                  message := Some msg; target := None |} in
                  let reply := atoi cmd in
                  (if negb (reply =? 0)%Z then numeric_reply reply ;; ret tt
                   else match function_lookup cmd with
                        | Some h => run_handler h pdata
                        | None => ret tt
                        end) ;;
                  ret n
              end
          end
      end.

(** [user_is_identified(server, nick)].  [delivered] is what the [read] on
    the pipe brought: [None] when it failed (-1), else the bytes it stored,
    at most four, of which it returned the count. *)
Definition user_is_identified (nick_arg : str) (delivered : option (list byte))
  : M bool :=
  send_message (lit "NickServ") (lit "ACC " ++ nick_arg) ;;
  let auth_level :=
    match delivered with
    | None => 0%Z
    | Some bs => int_of_bytes (overlay (firstn 4 bs) [x00; x00; x00; x00]%byte)
    end in
  emit PipeClosed ;;
  ret (auth_level =? 3)%Z.


End Engine.

Arguments _irc_command : simpl never.
Arguments set_nick : simpl never.
Arguments join_channel : simpl never.
Arguments numeric_reply : simpl never.
Arguments irc_privmsg : simpl never.
Arguments irc_notice : simpl never.
Arguments irc_kick : simpl never.
Arguments parse_irc_line : simpl never.

(** The connection [irc_connect] returns: zeroed by [calloc]. *)
Definition calloc_irc (H : irc_h) : irc_type :=
  {| line_offset := 0;
     nick := repeat NUL (NICKLEN H);
     channels := repeat (repeat NUL (CHANLEN H)) (MAXCHANS H);
     channels_set := 0%Z;
     isConnected := false |}.

Definition initial_world (H : irc_h) (version password : str) : world :=
  {| server := calloc_irc H; bot_version := version;
     nick_password := password; strtok_save := [] |}.

(** ** Sequences of calls, and what a connection records *)

(** [join_channel] on each name in turn, as the configuration's channel list
    is joined at start-up. *)
Fixpoint join_each (H : irc_h) (names : list str) : M unit :=
  match names with
  | [] => ret tt
  | name :: names' => join_channel H (Some name) ;; join_each H names'
  end.

(** [k] "nickname in use" replies in a row. *)
Fixpoint nick_collisions (H : irc_h) (k : nat) : M unit :=
  match k with
  | O => ret tt
  | S k' => numeric_reply H (NICKNAMEINUSE H) ;; nick_collisions H k'
  end.

(** The operations that act on the channel set. *)
Inductive operation : Type :=
| op_join (channel : option str)
| op_numeric (reply : Z)
| op_kick (pdata : Parsed_data)
| op_line (n : Z) (line : buffer).

Definition run_operation (H : irc_h) (function_lookup : str -> option handler)
  (op : operation) : M unit :=
  match op with
  | op_join channel => join_channel H channel ;; ret tt
  | op_numeric reply => numeric_reply H reply ;; ret tt
  | op_kick pdata => irc_kick H pdata
  | op_line n line => parse_irc_line H function_lookup n line ;; ret tt
  end.

Fixpoint run_operations (H : irc_h) (function_lookup : str -> option handler)
  (ops : list operation) : M unit :=
  match ops with
  | [] => ret tt
  | op :: ops' =>
      run_operation H function_lookup op ;; run_operations H function_lookup ops'
  end.

(** The channel set: the names in the live rows, in storage order. *)
Definition recorded (s : irc_type) : list (result str) :=
  map cstr (firstn (Z.to_nat (channels_set s)) (channels s)).

(** A name or nick stored in a member array of [n] bytes. *)
Definition stored (n : nat) (s : str) : buffer :=
  s ++ NUL :: repeat NUL (n - length s - 1).

(** The member arrays have their declared sizes. *)
Definition sized (H : irc_h) (s : irc_type) : Prop :=
  length (nick s) = NICKLEN H /\
  length (channels s) = MAXCHANS H /\
  Forall (fun row => length row = CHANLEN H) (channels s).

(** What a caller of [join_channel] owes: a name that starts with [#] and,
    with its terminator, fits a row. *)
Definition channel_name (H : irc_h) (name : str) : bool :=
  match name with
  | "#"%char :: _ => nul_free name && Nat.ltb (length name) (CHANLEN H)
  | _ => false
  end.

(** The spec's words for the test on the command token, "parses fully as a
    positive integer": only digits, at least one, and a value above zero.
    The code's test is [atoi(pdata.command) != 0]. *)
Definition parses_fully_as_positive_integer (s : str) : bool :=
  match s with
  | [] => false
  | _ :: _ => forallb isdigit s && (0 <? digits 0 s)%Z
  end.

(** ** Worked examples *)

(** A registry with the handlers of [irc.c] and the bot commands of [bot.c]. *)
Definition sample_lookup (name : str) : option handler :=
  if str_eqb name (lit "PRIVMSG") then Some h_irc_privmsg
  else if str_eqb name (lit "NOTICE") then Some h_irc_notice
  else if str_eqb name (lit "KICK") then Some h_irc_kick
  else if existsb (str_eqb name)
            (map lit ["list"; "help"; "url"; "mumble"; "fail"; "github";
                      "ping"; "traceroute"; "dns"]%string)
       then Some (h_bot name)
  else None.

(** Nick "bot" on channels #a, #b, #c, registration complete. *)
Definition world_abc : world :=
  {| server :=
       {| line_offset := 0;
          nick := stored 20 (lit "bot");
          channels := [stored 50 (lit "#a"); stored 50 (lit "#b");
                       stored 50 (lit "#c"); repeat NUL 50; repeat NUL 50];
          channels_set := 3%Z;
          isConnected := true |};
     bot_version := lit "irc-bot";
     nick_password := lit "secret";
     strtok_save := [] |}.

(** The same connection with every row of the channel table in use. *)
Definition world_full : world :=
  with_server world_abc
    (with_channels_set
       (with_channels (server world_abc)
          [stored 50 (lit "#a"); stored 50 (lit "#b"); stored 50 (lit "#c");
           stored 50 (lit "#d"); stored 50 (lit "#e")])
       5%Z).

(** [":kicker!~k@example.org KICK #b bot :bye"], as [parse_irc_line] hands it
    to the KICK handler. *)
Definition kick_b : Parsed_data :=
  {| sender := lit "kicker!~k@example.org"; command := lit "KICK";
     message := Some (lit "#b bot :bye"); target := None |}.

(** [":alice!~a@example.org PRIVMSG bot :!ping 8.8.8.8"], as
    [parse_irc_line] hands it to the PRIVMSG handler. *)
Definition privmsg_ping : Parsed_data :=
  {| sender := lit "alice!~a@example.org"; command := lit "PRIVMSG";
     message := Some (lit "bot :!ping 8.8.8.8"); target := None |}.

(** Six joins on a fresh connection (one more than the table holds), the end
    of the MOTD, a nick collision, a kick and a keep-alive. *)
Definition busy_session : list operation :=
  [op_join (Some (lit "#a")); op_join (Some (lit "#b"));
   op_join (Some (lit "#c")); op_join (Some (lit "#d"));
   op_join (Some (lit "#e")); op_join (Some (lit "#f"));
   op_numeric 376%Z;
   op_numeric 433%Z;
   op_kick {| sender := lit "kicker!~k@example.org"; command := lit "KICK";
              message := Some (lit "#b _ :bye"); target := None |};
   op_line 23%Z (lit "PING :wolfe.example.net" ++ [NUL])].

(** The receive buffer after a bare ["PING"] line: the four characters and
    their terminator, and then what the line before it,
    [":irc.example.net 001 bot :Welcome"], left behind once [strtok] had cut
    it up. *)
Definition bare_ping_line : buffer :=
  lit "PING" ++ NUL :: lit "example.net" ++ NUL :: lit "001" ++ NUL
    :: lit "bot :Welcome" ++ [NUL].

(** ** The rest of [irc.c]: the USER registration and the pipe *)

Definition irc_user_command (H : irc_h) (target : str) : M unit :=
  _irc_command H (lit "USER") target None.

(** [set_user(server, user)].  The [user] member, [char user[USERLEN]], is
    handed in and back, [irc_type] above not holding it; [USERLEN] is one
    more size of [irc.h].  [user_with_flags] has [USERLEN * 2 + 6] bytes. *)
Definition set_user (H : irc_h) (USERLEN : nat) (user : buffer) (user_arg : str)
  : M buffer :=
  b <- lift (strncpy user user_arg USERLEN) ;;
  name <- lift (cstr b) ;;
  irc_user_command H
    (firstn (USERLEN * 2 + 6 - 1) (name ++ lit " 0 * :" ++ name)) ;;
  ret b.

(** The four bytes that [write(server->pipe[1], &auth_level, 4)] puts in the
    pipe, lowest address first (little-endian, as [int_of_bytes] reads
    them). *)
Definition byte_of_Z (z : Z) : byte :=
  match Byte.of_N (Z.to_N (z mod 256)) with
  | Some b => b
  | None => x00%byte
  end.

Definition bytes_of_int (v : Z) : list byte :=
  let u := (v mod 2 ^ 32)%Z in
  [byte_of_Z u; byte_of_Z (u / 2 ^ 8); byte_of_Z (u / 2 ^ 16);
   byte_of_Z (u / 2 ^ 24)]%Z.

(** The branch of [irc_kick] taken when the victim is the bot, for a
    connection that held [count] channels when the KICK came in. *)
Definition kick_rejoin (H : irc_h) (kicker chan : str) (count : Z) : M unit :=
  emit (Slept 4) ;;
  i <- find_channel H chan (Z.to_nat count) 0%Z ;;
  modify_server (fun s => with_channels_set s (channels_set s - 1)%Z) ;;
  s2 <- get_server ;;
  src <- channel_row H (channels_set s2) ;;
  dst <- channel_row H i ;;
  moved <- lift (strnread src (CHANLEN H)) ;;
  row <- lift (strncpy dst moved (CHANLEN H)) ;;
  set_channel_row i row ;;
  join_channel H (Some chan) ;;
  send_message H chan (kicker ++ lit " magkas...").

(** Every message of a trace is at most [IRCLEN - 1] bytes long. *)
Definition within_line_limit (H : irc_h) (t : list event) : Prop :=
  forall m : str, In (Sent m) t -> length m <= IRCLEN H - 1.

(** The number of spaces of a line. *)
Definition spaces (s : str) : nat := count_occ ascii_dec s " "%char.

(** ** Bot commands of [bot.c]

    [bot.h], [helper.h] and [curl.h] are not among the sources: the limits
    [MAXPINGCOUNT] and [MAXCOMMITS] are parameters, [argv] is what
    [extract_params] made of the message, and [ping] and [github] are
    modelled up to what they ask of [print_cmd_output] and
    [fetch_github_commits]. *)

(** The bounds that [ping] and [github] put on the count they were given. *)
Definition limit_count (max : Z) (count : Z) : Z :=
  if (count >? max)%Z then max
  else if (count <? 0)%Z then 1%Z
  else count.

(** [ping]: the tool, the count and the host of the command line, if the
    arguments get that far. *)
Definition ping_request (MAXPINGCOUNT : Z) (argv : list str)
  : option (str * Z * str) :=
  if negb (Nat.eqb (length argv) 1 || Nat.eqb (length argv) 2) then None
  else
    match argv with
    | [] => None
    | host :: args =>
        let cmd := if strchr host "." then Some (lit "ping")
                   else if strchr host ":" then Some (lit "ping6")
                   else None in
        match cmd with
        | None => None
        | Some cmd =>
            let count := match args with
                         | arg :: _ => limit_count MAXPINGCOUNT (atoi arg)
                         | [] => 3%Z
                         end in
            Some (cmd, count, host)
        end
    end.

(** [github]: the repository and the number of commits asked of
    [fetch_github_commits], if the arguments get that far. *)
Definition github_request (MAXCOMMITS : Z) (argv : list str)
  : option (str * Z) :=
  if negb (Nat.eqb (length argv) 1 || Nat.eqb (length argv) 2) then None
  else
    match argv with
    | [] => None
    | repo :: args =>
        if negb (strchr repo "/") then None
        else
          let commits := match args with
                         | arg :: _ => limit_count MAXCOMMITS (atoi arg)
                         | [] => 1%Z
                         end in
          Some (repo, commits)
    end.

(** The loop of [bot_fail] over the lines of the quote: [sum] is the offset
    of the next line, [left] bounds the iterations that remain (every
    iteration moves [sum] forward). *)
Fixpoint fail_lines (H : irc_h) (left : nat) (target quote : str) (sum : nat)
  : M unit :=
  match left with
  | O => ret tt
  | S left' =>
      if Nat.ltb sum (length quote) then
        (* strcspn(quotes[r] + sum, "\n") *)
        let t := length (fst (span_until [LF] (skipn sum quote))) in
        if Nat.ltb 0 t then
          send_message H target (firstn t (skipn sum quote)) ;;
          emit (Slept 1) ;;
          fail_lines H left' target quote (sum + (t + 1))
        else ret tt
      else ret tt
  end.

(** [bot_fail], for the quote that [rand() % SIZE(quotes)] picked and the
    reply target of the message. *)
Definition bot_fail (H : irc_h) (target quote : str) : M unit :=
  fail_lines H (length quote) target quote 0.

(** [":kicker!host KICK chan victim reason"], as [parse_irc_line] hands it to
    the KICK handler. *)
Definition kick_of (kicker host chan victim reason : str) : Parsed_data :=
  {| sender := kicker ++ "!"%char :: host; command := lit "KICK";
     message := Some (chan ++ " "%char :: victim ++ " "%char :: reason);
     target := None |}.

(** What the statements about a KICK of the bot from [chan] by [kicker]
    take for granted: the nick member holds the bot's nick [me], the three
    names are tokens, the channel name is one that [join_channel] takes, the
    arrays have their sizes and the two messages fit a line. *)
Definition kick_context (H : irc_h) (w : world) (kicker chan me : str) : Prop :=
  sized H (server w) /\
  cstr (nick (server w)) = Val me /\
  me <> [] /\ strchr me " " = false /\
  strchr kicker "!" = false /\
  channel_name H chan = true /\ strchr chan " " = false /\
  length kicker + CHANLEN H + 61 <= IRCLEN H.

(** The trace of a kick answered by a rejoin. *)
Definition rejoin_trace (connected : bool) (kicker chan : str) : list event :=
  Slept 4
  :: (if connected then [Sent (lit "JOIN " ++ chan ++ CRLF)] else [])
  ++ [Sent (lit "PRIVMSG " ++ chan ++ lit " :" ++ kicker ++ lit " magkas..."
            ++ CRLF)].

(** [":from!host NOTICE tgt :text"] and [":from!host PRIVMSG tgt :text"], as
    [parse_irc_line] hands them to their handlers. *)
Definition notice_of (from host tgt text : str) : Parsed_data :=
  {| sender := from ++ "!"%char :: host; command := lit "NOTICE";
     message := Some (tgt ++ " "%char :: ":"%char :: text); target := None |}.

Definition privmsg_of (from host tgt text : str) : Parsed_data :=
  {| sender := from ++ "!"%char :: host; command := lit "PRIVMSG";
     message := Some (tgt ++ " "%char :: ":"%char :: text); target := None |}.

(** The character that opens and closes a CTCP request, ["\x01"]. *)
Definition SOH : ascii := ascii_of_nat 1.

(** A run that sends no line longer than [IRCLEN - 1] bytes and leaves the
    connected flag set if it was. *)
Definition orderly (H : irc_h) {A} (m : M A) : Prop :=
  forall (w : world) (a : A) (w' : world) (t : list event),
    m w = Ok a w' t ->
    within_line_limit H t /\
    (isConnected (server w) = true -> isConnected (server w') = true).

(** [irc_connect(address, port)], up to the connection it returns, [None]
    for NULL.  [socket.h] is not among the sources: [sock] is what
    [sock_connect] returned, [pipe_ok] whether [pipe] succeeded.  The
    [address] and [port] members that the two [strncpy] fill are not in
    [irc_type]. *)
Definition irc_connect (H : irc_h) (address port : str) (sock : Z)
  (pipe_ok : bool) : option irc_type :=
  if negb (strchr address ".") || (atoi port >? 65535)%Z then None
  else if (sock <? 0)%Z then None
  else if negb pipe_ok then None
  else Some (calloc_irc H).

(** A quote of [bot_fail]: lines that each end with a newline, and then
    [tail]. *)
Fixpoint quote_text (lines : list str) (tail : str) : str :=
  match lines with
  | [] => tail
  | line :: lines' => line ++ LF :: quote_text lines' tail
  end.

(** One PRIVMSG to [target] and a second of sleep for each line. *)
Definition fail_trace (target : str) (lines : list str) : list event :=
  flat_map (fun line =>
              [Sent (lit "PRIVMSG " ++ target ++ lit " :" ++ line ++ CRLF);
               Slept 1]) lines.

(** A line of a quote that [bot_fail] sends whole: it is not empty, has no
    newline in it, and fits a message to [target]. *)
Definition whole_line (H : irc_h) (target line : str) : Prop :=
  line <> [] /\ free_of [LF] line = true /\
  length line + length target + 51 <= IRCLEN H.

(** * Properties *)

(** ** Strings and buffers *)

Lemma str_eqb_refl (a : str) : str_eqb a a = true.
Proof.
  induction a as [|x a IH]; simpl; [reflexivity|].
  now rewrite Ascii.eqb_refl, IH.
Qed.

Lemma str_eqb_eq (a b : str) : str_eqb a b = true <-> a = b.
Proof.
  split.
  - revert b; induction a as [|x a IH]; intros [|y b]; simpl; try discriminate; auto.
    intros E. apply andb_true_iff in E as [E1 E2].
    apply Ascii.eqb_eq in E1. subst y. f_equal. now apply IH.
  - intros ->. apply str_eqb_refl.
Qed.

Lemma nul_free_app (a b : str) :
  nul_free (a ++ b) = nul_free a && nul_free b.
Proof. unfold nul_free. apply forallb_app. Qed.

Lemma nul_free_cons (c : ascii) (s : str) :
  nul_free (c :: s) = negb (is_nul c) && nul_free s.
Proof. reflexivity. Qed.

Lemma cstr_app_nul (s : str) (r : buffer) :
  nul_free s = true -> cstr (s ++ NUL :: r) = Val s.
Proof.
  induction s as [|c s IH]; simpl; intros F; [reflexivity|].
  apply andb_true_iff in F as [F1 F2].
  apply negb_true_iff in F1. rewrite F1, (IH F2). reflexivity.
Qed.

(** A buffer that reads as [s] is [s], a terminator, and whatever follows. *)
Lemma cstr_inv (b : buffer) (s : str) :
  cstr b = Val s -> nul_free s = true /\ exists r, b = s ++ NUL :: r.
Proof.
  revert s; induction b as [|c b IH]; simpl; intros s E; [discriminate|].
  destruct (is_nul c) eqn:N.
  - injection E as <-. split; [reflexivity|].
    exists b. unfold is_nul in N. apply Ascii.eqb_eq in N. now subst c.
  - destruct (cstr b) as [s'|] eqn:Eb; [|discriminate].
    injection E as <-. destruct (IH s' eq_refl) as [F [r ->]].
    split.
    + rewrite nul_free_cons, N, F. reflexivity.
    + now exists r.
Qed.

Lemma strnread_app_nul (s : str) (r : buffer) (n : nat) :
  nul_free s = true -> length s < n -> strnread (s ++ NUL :: r) n = Val s.
Proof.
  revert n; induction s as [|c s IH]; intros n F L.
  - destruct n; [simpl in L; lia|reflexivity].
  - destruct n as [|n]; [simpl in L; lia|]. simpl in *.
    apply andb_true_iff in F as [F1 F2].
    apply negb_true_iff in F1. rewrite F1, IH; auto. lia.
Qed.

Lemma strcmp_eq_app_nul (s t : str) (r : buffer) :
  nul_free s = true -> nul_free t = true ->
  strcmp_eq s (t ++ NUL :: r) = Val (str_eqb s t).
Proof.
  revert t; induction s as [|x s IH]; intros [|y t] Fs Ft; simpl in *;
    try reflexivity.
  - apply andb_true_iff in Ft as [F1 _]. apply negb_true_iff in F1.
    now rewrite F1.
  - apply andb_true_iff in Fs as [_ Fs]. apply andb_true_iff in Ft as [F1 Ft].
    apply negb_true_iff in F1. rewrite F1.
    destruct (Ascii.eqb x y); simpl; [now apply IH|reflexivity].
Qed.

Lemma firstn_repeat_min {A} (x : A) (k n : nat) :
  firstn k (repeat x n) = repeat x (Nat.min k n).
Proof.
  revert n; induction k as [|k IH]; intros [|n]; simpl; try reflexivity.
  now rewrite IH.
Qed.

Lemma strncpy_fits (dst : buffer) (s : str) (n : nat) :
  length dst = n -> length s < n ->
  strncpy dst s n = Val (s ++ NUL :: repeat NUL (n - length s - 1)).
Proof.
  intros Ld Ls. unfold strncpy.
  replace (Nat.ltb (length dst) n) with false
    by (symmetry; apply Nat.ltb_ge; lia).
  rewrite skipn_all2 by lia. rewrite app_nil_r.
  rewrite firstn_app. rewrite firstn_all2 by lia.
  rewrite firstn_repeat_min.
  replace (Nat.min (n - length s) n) with (S (n - length s - 1)) by lia.
  reflexivity.
Qed.

Lemma firstn_fits {A} (n : nat) (l : list A) :
  length l <= n -> firstn n l = l.
Proof. intros L. now apply firstn_all2. Qed.

Lemma stored_length (n : nat) (s : str) :
  length s < n -> length (stored n s) = n.
Proof.
  intros L. unfold stored. rewrite length_app. simpl. rewrite repeat_length. lia.
Qed.

Lemma cstr_stored (n : nat) (s : str) :
  nul_free s = true -> cstr (stored n s) = Val s.
Proof. intros F. unfold stored. now apply cstr_app_nul. Qed.

(** ** The tokenizer *)

Lemma strchr_free_of (s : str) (c : ascii) :
  strchr s c = false -> free_of [c] s = true.
Proof.
  unfold strchr, free_of, mem.
  induction s as [|x s IH]; simpl; [reflexivity|]. intros E.
  apply orb_false_iff in E as [E1 E2].
  rewrite (Ascii.eqb_sym x c), E1. simpl. now apply IH.
Qed.

Lemma span_until_token (delim tok : str) (x : ascii) (r : str) :
  free_of delim tok = true -> mem x delim = true ->
  span_until delim (tok ++ x :: r) = (tok, x :: r).
Proof.
  intros F Mx. induction tok as [|c tok IH]; simpl.
  - now rewrite Mx.
  - simpl in F. apply andb_true_iff in F as [F1 F2].
    apply negb_true_iff in F1. rewrite F1, (IH F2). reflexivity.
Qed.

Lemma span_until_whole (delim tok : str) :
  free_of delim tok = true -> span_until delim tok = (tok, []).
Proof.
  intros F. induction tok as [|c tok IH]; simpl; [reflexivity|].
  simpl in F. apply andb_true_iff in F as [F1 F2].
  apply negb_true_iff in F1. rewrite F1, (IH F2). reflexivity.
Qed.

Lemma skip_leading_token (delim tok rest : str) :
  tok <> [] -> free_of delim tok = true ->
  skip_leading delim (tok ++ rest) = tok ++ rest.
Proof.
  intros N F. destruct tok as [|c tok]; [contradiction|].
  simpl in *. apply andb_true_iff in F as [F1 _].
  apply negb_true_iff in F1. now rewrite F1.
Qed.

(** A token followed by a delimiter: [strtok] returns it and stays on what
    follows the delimiter. *)
Lemma strtok_step_token (delim tok : str) (x : ascii) (r : str) :
  tok <> [] -> free_of delim tok = true -> mem x delim = true ->
  strtok_step (tok ++ x :: r) delim = (Some tok, r).
Proof.
  intros N F Mx. unfold strtok_step.
  rewrite (skip_leading_token delim tok (x :: r) N F).
  destruct tok as [|c tok]; [contradiction|].
  cbn [app].
  change (c :: tok ++ x :: r) with ((c :: tok) ++ x :: r).
  now rewrite (span_until_token delim (c :: tok) x r F Mx).
Qed.

(** With an empty delimiter set [strtok] returns all that is left. *)
Lemma strtok_step_rest (s : str) :
  s <> [] -> strtok_step s [] = (Some s, []).
Proof.
  intros N. unfold strtok_step. destruct s as [|c s]; [contradiction|].
  assert (F : forall u : str, free_of [] u = true)
    by (induction u as [|y u IH]; [reflexivity|exact IH]).
  simpl. rewrite (span_until_whole [] s (F s)). reflexivity.
Qed.

Lemma span_until_app (delim a s : str) :
  free_of delim a = true ->
  span_until delim (a ++ s)
  = (a ++ fst (span_until delim s), snd (span_until delim s)).
Proof.
  intros F. induction a as [|c a IH]; cbn [app].
  - now destruct (span_until delim s).
  - simpl in F. apply andb_true_iff in F as [F1 F2].
    apply negb_true_iff in F1. cbn [span_until]. rewrite F1, (IH F2).
    reflexivity.
Qed.

(** A token that starts with [a] starts with it whatever follows. *)
Lemma strtok_step_prefix (delim a s : str) :
  a <> [] -> free_of delim a = true ->
  fst (strtok_step (a ++ s) delim) = Some (a ++ fst (span_until delim s)).
Proof.
  intros N F. unfold strtok_step.
  rewrite (skip_leading_token delim a s N F).
  destruct a as [|c a]; [contradiction|]. cbn [app].
  change (c :: a ++ s) with ((c :: a) ++ s).
  rewrite (span_until_app delim (c :: a) s F).
  now destruct (snd (span_until delim s)).
Qed.

(** A token that ends the string: [strtok] returns it and has nothing left. *)
Lemma strtok_step_whole (delim tok : str) :
  tok <> [] -> free_of delim tok = true ->
  strtok_step tok delim = (Some tok, []).
Proof.
  intros N F. unfold strtok_step.
  rewrite <- (app_nil_r tok) at 1.
  rewrite (skip_leading_token delim tok [] N F), app_nil_r.
  destruct tok as [|c tok]; [contradiction|].
  now rewrite (span_until_whole delim (c :: tok) F).
Qed.

Lemma null_terminate_at (a b : str) (c : ascii) :
  strchr a c = false -> null_terminate (a ++ c :: b) c = Some a.
Proof.
  intros E. unfold null_terminate, strchr.
  rewrite existsb_app. simpl. rewrite Ascii.eqb_refl, orb_true_r.
  rewrite span_until_token.
  - reflexivity.
  - now apply strchr_free_of.
  - unfold mem. simpl. now rewrite Ascii.eqb_refl.
Qed.

Lemma null_terminate_none (s : str) (c : ascii) :
  strchr s c = false -> null_terminate s c = None.
Proof. intros E. unfold null_terminate. now rewrite E. Qed.

Lemma strtok_run (s : option str) (delim : str) (w : world) :
  strtok s delim w
  = Ok (fst (strtok_step (match s with Some x => x | None => strtok_save w end)
                         delim))
       (with_save w
          (snd (strtok_step (match s with Some x => x | None => strtok_save w end)
                            delim)))
       [].
Proof. unfold strtok. now destruct (strtok_step _ _). Qed.

(** ** Outbound framing *)

Section Framing.

Variable H : irc_h.

Lemma irc_command_plain (type target : str) (w : world) :
  length type + length target + 4 <= IRCLEN H ->
  _irc_command H type target None w
  = Ok tt w [Sent (type ++ lit " " ++ target ++ CRLF)].
Proof.
  intros L. unfold _irc_command, emit.
  rewrite firstn_fits; [reflexivity|].
  rewrite !length_app. simpl. lia.
Qed.

Lemma irc_command_text (type target text : str) (w : world) :
  text <> [] ->
  length text + 51 <= IRCLEN H ->
  length type + length target + length text + 6 <= IRCLEN H ->
  _irc_command H type target (Some text) w
  = Ok tt w [Sent (type ++ lit " " ++ target ++ lit " :" ++ text ++ CRLF)].
Proof.
  intros N Lt L. unfold _irc_command, emit.
  rewrite (firstn_fits (IRCLEN H - 50 - 1) text) by lia.
  destruct text as [|c text]; [contradiction|].
  rewrite firstn_fits; [reflexivity|].
  repeat (rewrite ?length_app; simpl in * ). lia.
Qed.

(** ** The nick *)

Lemma set_nick_stores (s : str) (w : world) :
  length (nick (server w)) = NICKLEN H ->
  nul_free s = true ->
  length s < NICKLEN H ->
  set_nick H s w
  = Ok tt (with_server w (with_nick (server w) (stored (NICKLEN H) s)))
       [Sent (firstn (IRCLEN H - 1) (lit "NICK " ++ s ++ CRLF))].
Proof.
  intros Ln F Ls. unfold set_nick, bind, get_server, modify_server, lift.
  rewrite (strncpy_fits _ s _ Ln Ls). fold (stored (NICKLEN H) s).
  cbn [server with_server nick with_nick]. rewrite (cstr_stored _ _ F).
  reflexivity.
Qed.

Lemma nick_in_use_stores (s : str) (w : world) :
  length (nick (server w)) = NICKLEN H ->
  cstr (nick (server w)) = Val s ->
  length s + 2 <= NICKLEN H ->
  numeric_reply H (NICKNAMEINUSE H) w
  = Ok (NICKNAMEINUSE H)
       (with_server w (with_nick (server w) (stored (NICKLEN H) (s ++ lit "_"))))
       [Sent (firstn (IRCLEN H - 1) (lit "NICK " ++ (s ++ lit "_") ++ CRLF))].
Proof.
  intros Ln Es Ls.
  destruct (cstr_inv _ _ Es) as [F [r Er]].
  assert (F' : nul_free (s ++ lit "_") = true)
    by (rewrite nul_free_app, F; reflexivity).
  unfold numeric_reply. rewrite Z.eqb_refl.
  unfold bind at 1. unfold bind at 1. unfold get_server at 1.
  unfold bind at 1. unfold lift at 1. unfold strcat. rewrite Es.
  replace (Nat.ltb (length (nick (server w))) (length s + length (lit "_") + 1))
    with false by (symmetry; apply Nat.ltb_ge; simpl; lia).
  unfold bind at 1. unfold modify_server at 1.
  unfold bind at 1. unfold lift at 1.
  change (s ++ lit "_" ++ NUL :: ?t) with (s ++ ("_"%char :: NUL :: t)).
  replace (s ++ "_"%char :: NUL :: skipn (length s + length (lit "_") + 1) (nick (server w)))
    with ((s ++ lit "_") ++ NUL :: skipn (length s + length (lit "_") + 1) (nick (server w)))
    by (now rewrite <- app_assoc).
  rewrite strnread_app_nul; [|exact F'|rewrite length_app; simpl; lia].
  rewrite set_nick_stores.
  - reflexivity.
  - cbn [server with_server nick with_nick].
    rewrite !length_app. simpl. rewrite length_skipn, Ln. lia.
  - exact F'.
  - rewrite length_app. simpl. lia.
Qed.

Lemma nick_in_use_fits (s : str) (w : world) :
  length (nick (server w)) = NICKLEN H ->
  cstr (nick (server w)) = Val s ->
  length s + 2 <= NICKLEN H ->
  length s + 9 <= IRCLEN H ->
  numeric_reply H (NICKNAMEINUSE H) w
  = Ok (NICKNAMEINUSE H)
       (with_server w (with_nick (server w) (stored (NICKLEN H) (s ++ lit "_"))))
       [Sent (lit "NICK " ++ (s ++ lit "_") ++ CRLF)].
Proof.
  intros Ln Es Ls Li. rewrite (nick_in_use_stores s w Ln Es Ls).
  rewrite firstn_fits; [reflexivity|].
  repeat (rewrite ?length_app; simpl). lia.
Qed.

(** [strcat] wrote past the end of [nick]: the string filled the array. *)
Lemma nick_in_use_overflows (s : str) (w : world) :
  length (nick (server w)) = NICKLEN H ->
  cstr (nick (server w)) = Val s ->
  length s + 1 = NICKLEN H ->
  numeric_reply H (NICKNAMEINUSE H) w = Fault OutOfBounds.
Proof.
  intros Ln Es Ls. unfold numeric_reply. rewrite Z.eqb_refl.
  unfold bind, get_server, lift, strcat. rewrite Es.
  replace (Nat.ltb (length (nick (server w))) (length s + length (lit "_") + 1))
    with true by (symmetry; apply Nat.ltb_lt; simpl; lia).
  reflexivity.
Qed.

End Framing.

(** ** Nick collisions *)

(** C5: with current nick "bot", one "nickname in use" reply sends the NICK
    registration command with "bot_", and a second one sends it with
    "bot__": one underscore is appended per reply. *)
Theorem nick_collision_appends_underscore (H : irc_h) (w : world) :
  length (nick (server w)) = NICKLEN H ->
  cstr (nick (server w)) = Val (lit "bot") ->
  6 <= NICKLEN H ->
  13 <= IRCLEN H ->
  exists w1 w2,
    numeric_reply H (NICKNAMEINUSE H) w
    = Ok (NICKNAMEINUSE H) w1 [Sent (lit "NICK bot_" ++ CRLF)] /\
    cstr (nick (server w1)) = Val (lit "bot_") /\
    numeric_reply H (NICKNAMEINUSE H) w1
    = Ok (NICKNAMEINUSE H) w2 [Sent (lit "NICK bot__" ++ CRLF)] /\
    cstr (nick (server w2)) = Val (lit "bot__").
Proof.
  intros Ln Es Ls Li.
  eexists. eexists.
  split; [apply (nick_in_use_fits H (lit "bot") w Ln Es); simpl; lia|].
  split; [apply cstr_stored; reflexivity|].
  split.
  - apply (nick_in_use_fits H (lit "bot_")).
    + cbn [server with_server nick with_nick].
      apply stored_length. simpl. lia.
    + apply cstr_stored. reflexivity.
    + simpl. lia.
    + simpl. lia.
  - apply cstr_stored. reflexivity.
Qed.

Lemma nick_collision_appends_underscore_witness :
  exists w1 w2,
    numeric_reply sample_irc_h 433 world_abc
    = Ok 433%Z w1 [Sent (lit "NICK bot_" ++ CRLF)] /\
    cstr (nick (server w1)) = Val (lit "bot_") /\
    numeric_reply sample_irc_h 433 w1
    = Ok 433%Z w2 [Sent (lit "NICK bot__" ++ CRLF)] /\
    cstr (nick (server w2)) = Val (lit "bot__").
Proof.
  apply (nick_collision_appends_underscore sample_irc_h world_abc).
  - reflexivity.
  - reflexivity.
  - simpl. lia.
  - simpl. lia.
Defined.

Lemma nick_collisions_run_off (H : irc_h) (k : nat) :
  forall (s : str) (w : world),
    length (nick (server w)) = NICKLEN H ->
    cstr (nick (server w)) = Val s ->
    length s + k + 1 = NICKLEN H ->
    nick_collisions H (S k) w = Fault OutOfBounds.
Proof.
  induction k as [|k IH]; intros s w Ln Es Ls.
  - cbn [nick_collisions]. unfold bind.
    rewrite (nick_in_use_overflows H s w Ln Es) by lia. reflexivity.
  - change (nick_collisions H (S (S k)))
      with (numeric_reply H (NICKNAMEINUSE H) ;; nick_collisions H (S k)).
    unfold bind at 1.
    rewrite (nick_in_use_stores H s w Ln Es) by lia.
    rewrite (IH (s ++ lit "_")).
    + reflexivity.
    + cbn [server with_server nick with_nick].
      apply stored_length. rewrite length_app. simpl. lia.
    + apply cstr_stored.
      destruct (cstr_inv _ _ Es) as [F _].
      rewrite nul_free_app, F. reflexivity.
    + rewrite length_app. simpl. lia.
Qed.

(** C6, at the failing input: from nick "bot", the reply number
    [NICKLEN - 3] makes [strcat] store the terminator one byte past the end
    of [nick]; the bound that [set_nick] passes to [strncpy] comes after the
    unbounded [strcat]. *)
Theorem nick_collisions_overflow_nick (H : irc_h) (w : world) :
  length (nick (server w)) = NICKLEN H ->
  cstr (nick (server w)) = Val (lit "bot") ->
  4 <= NICKLEN H ->
  nick_collisions H (NICKLEN H - 3) w = Fault OutOfBounds.
Proof.
  intros Ln Es Ls.
  replace (NICKLEN H - 3) with (S (NICKLEN H - 4)) by lia.
  apply (nick_collisions_run_off H (NICKLEN H - 4) (lit "bot") w Ln Es).
  simpl. lia.
Qed.

Lemma nick_collisions_overflow_nick_witness :
  nick_collisions sample_irc_h 17 world_abc = Fault OutOfBounds.
Proof.
  apply (nick_collisions_overflow_nick sample_irc_h world_abc).
  - reflexivity.
  - reflexivity.
  - simpl. lia.
Defined.

(** Sixteen replies are still stored inside the array. *)
Example sixteen_collisions_fit :
  match nick_collisions sample_irc_h 16 world_abc with
  | Ok _ w _ => cstr (nick (server w)) = Val (lit "bot________________")
  | Fault _ => False
  end.
Proof. vm_compute. reflexivity. Qed.

(** An over-long nick is cut at NICKLEN bytes by [strncpy], which leaves the
    array without a terminator: the NICK command that follows reads on past
    its end. *)
Example set_nick_of_long_nick_is_unterminated :
  set_nick sample_irc_h (lit "a_nick_of_25_characters__") world_abc
  = Fault Unterminated.
Proof. vm_compute. reflexivity. Qed.

(** ** The channel set: capacity *)

(** C4: [join_channel] with a channel name, on a channel set that already
    holds MAXCHANS entries, returns the failure value -1, leaves the
    connection as it was and sends nothing. *)
Theorem join_at_capacity_fails (H : irc_h) (rest : str) (w : world) :
  channels_set (server w) = Z.of_nat (MAXCHANS H) ->
  join_channel H (Some ("#"%char :: rest)) w = Ok (-1)%Z w [].
Proof.
  intros E. unfold join_channel, bind, ret, get_server.
  rewrite E, Z.eqb_refl. reflexivity.
Qed.

Lemma join_at_capacity_fails_witness :
  join_channel sample_irc_h (Some (lit "#f")) world_full = Ok (-1)%Z world_full [].
Proof.
  apply (join_at_capacity_fails sample_irc_h (lit "f") world_full).
  reflexivity.
Defined.

(** ** Running the monad *)

Lemma bind_ok {A B} (m : M A) (k : A -> M B) (w : world)
  (a : A) (w1 : world) (t1 : list event) (b : B) (w2 : world) (t2 : list event) :
  m w = Ok a w1 t1 -> k a w1 = Ok b w2 t2 ->
  bind m k w = Ok b w2 (t1 ++ t2).
Proof. intros E1 E2. unfold bind. now rewrite E1, E2. Qed.

Lemma bind_inv {A B} (m : M A) (k : A -> M B) (w : world)
  (b : B) (w2 : world) (t : list event) :
  bind m k w = Ok b w2 t ->
  exists a w1 t1 t2,
    m w = Ok a w1 t1 /\ k a w1 = Ok b w2 t2 /\ t = t1 ++ t2.
Proof.
  unfold bind. destruct (m w) as [a w1 t1|f]; [|discriminate].
  destruct (k a w1) as [b' w2' t2|f] eqn:E2; [|discriminate].
  intros E. injection E as <- <- <-.
  exists a, w1, t1, t2. auto.
Qed.

Lemma ok_eq {A} (m : M A) (w : world) (a : A)
  (w1 w2 : world) (t1 t2 : list event) :
  m w = Ok a w1 t1 -> w1 = w2 -> t1 = t2 -> m w = Ok a w2 t2.
Proof. intros E <- <-. exact E. Qed.

(** ** The channel table *)

Lemma list_set_length {A} (l : list A) (i : nat) (x : A) :
  i < length l -> length (list_set l i x) = length l.
Proof.
  intros L. unfold list_set.
  rewrite length_app. cbn [length]. rewrite length_firstn, length_skipn. lia.
Qed.

Lemma list_set_Forall {A} (P : A -> Prop) (l : list A) (i : nat) (x : A) :
  Forall P l -> P x -> Forall P (list_set l i x).
Proof.
  intros F Px. unfold list_set. apply Forall_app. split.
  - rewrite <- (firstn_skipn i l) in F. now apply Forall_app in F.
  - constructor; [exact Px|].
    rewrite <- (firstn_skipn (S i) l) in F. now apply Forall_app in F.
Qed.

Lemma firstn_list_set_last {A} (l : list A) (i : nat) (x : A) :
  i < length l -> firstn (S i) (list_set l i x) = firstn i l ++ [x].
Proof.
  intros L. unfold list_set.
  rewrite firstn_app, length_firstn.
  replace (Nat.min i (length l)) with i by lia.
  replace (S i - i) with 1 by lia.
  rewrite firstn_firstn. replace (Nat.min (S i) i) with i by lia.
  reflexivity.
Qed.

Section ChannelSet.

Variable H : irc_h.

Lemma channel_row_at (j : nat) (row : buffer) (w : world) :
  length (channels (server w)) = MAXCHANS H ->
  nth_error (channels (server w)) j = Some row ->
  channel_row H (Z.of_nat j) w = Ok row w [].
Proof.
  intros Lc E.
  assert (j < MAXCHANS H)
    by (rewrite <- Lc; apply nth_error_Some; now rewrite E).
  unfold channel_row, bind, get_server.
  replace ((0 <=? Z.of_nat j) && (Z.of_nat j <? Z.of_nat (MAXCHANS H)))%Z
    with true
    by (symmetry; apply andb_true_iff; split;
        [apply Z.leb_le|apply Z.ltb_lt]; lia).
  rewrite Nat2Z.id, E. reflexivity.
Qed.

(** A row read back as a name is shorter than the row. *)
Lemma cstr_shorter (row : buffer) (name : str) :
  cstr row = Val name -> length name < length row.
Proof.
  intros E. destruct (cstr_inv _ _ E) as [_ [r ->]].
  rewrite length_app. simpl. lia.
Qed.

Lemma channel_name_inv (name : str) :
  channel_name H name = true ->
  (exists rest, name = "#"%char :: rest) /\
  nul_free name = true /\ length name < CHANLEN H.
Proof.
  unfold channel_name. destruct name as [|c rest]; [discriminate|].
  destruct (Ascii.ascii_dec c "#") as [->|N].
  - intros E. apply andb_true_iff in E as [F L].
    apply Nat.ltb_lt in L. split; [now exists rest|]. now split.
  - destruct c as [[] [] [] [] [] [] [] []]; try discriminate.
    now contradiction N.
Qed.

(** [join_channel] with room left: the name is stored in the first free row,
    the count goes up by one, and a JOIN goes out if and only if the
    connection is connected. *)
Lemma join_channel_records (name : str) (w : world) :
  sized H (server w) ->
  channel_name H name = true ->
  (0 <= channels_set (server w) < Z.of_nat (MAXCHANS H))%Z ->
  join_channel H (Some name) w
  = Ok 1%Z
      (with_server w
         (with_channels_set
            (with_channels (server w)
               (list_set (channels (server w))
                  (Z.to_nat (channels_set (server w)))
                  (stored (CHANLEN H) name)))
            (channels_set (server w) + 1)%Z))
      (if isConnected (server w)
       then [Sent (firstn (IRCLEN H - 1) (lit "JOIN " ++ name ++ CRLF))]
       else []).
Proof.
  intros (Ln & Lc & Fr) Cn B.
  destruct (channel_name_inv _ Cn) as ([rest ->] & F & Lname).
  set (name := "#"%char :: rest) in *.
  set (j := Z.to_nat (channels_set (server w))).
  assert (Ej : channels_set (server w) = Z.of_nat j) by (unfold j; lia).
  assert (Lj : j < length (channels (server w))) by lia.
  destruct (nth_error (channels (server w)) j) as [row|] eqn:Er;
    [|apply nth_error_None in Er; lia].
  assert (Lrow : length row = CHANLEN H).
  { rewrite Forall_forall in Fr. apply Fr. eapply nth_error_In; eauto. }
  unfold join_channel. subst name.
  unfold bind at 1. unfold ret at 1.
  unfold bind at 1. unfold get_server at 1.
  replace (channels_set (server w) =? Z.of_nat (MAXCHANS H))%Z with false
    by (symmetry; apply Z.eqb_neq; lia).
  unfold bind at 1. rewrite Ej at 1. rewrite (channel_row_at j row w Lc Er).
  unfold bind at 1. unfold lift at 1.
  rewrite (strncpy_fits row _ _ Lrow Lname).
  fold (stored (CHANLEN H) ("#"%char :: rest)).
  unfold bind at 1. unfold set_channel_row, modify_server at 1.
  unfold bind at 1. unfold modify_server at 1.
  unfold bind at 1. unfold bind at 1. unfold get_server at 1.
  cbn [server with_server channels with_channels channels_set with_channels_set
       isConnected].
  fold j.
  destruct (isConnected (server w)); [|reflexivity].
  unfold bind at 1.
  replace (channels_set (server w) + 1 - 1)%Z with (Z.of_nat j) by lia.
  rewrite (channel_row_at j (stored (CHANLEN H) ("#"%char :: rest))).
  - unfold bind at 1. unfold lift at 1. rewrite (cstr_stored _ _ F).
    reflexivity.
  - cbn [server with_server channels with_channels with_channels_set].
    rewrite list_set_length; lia.
  - cbn [server with_server channels with_channels with_channels_set].
    unfold list_set. rewrite nth_error_app2; rewrite length_firstn.
    + replace (j - Nat.min j (length (channels (server w)))) with 0 by lia.
      reflexivity.
    + lia.
Qed.

Lemma join_channel_keeps_sized (name : str) (w : world) :
  sized H (server w) ->
  length name < CHANLEN H ->
  (0 <= channels_set (server w) < Z.of_nat (MAXCHANS H))%Z ->
  sized H
    (with_channels_set
       (with_channels (server w)
          (list_set (channels (server w))
             (Z.to_nat (channels_set (server w)))
             (stored (CHANLEN H) name)))
       (channels_set (server w) + 1)%Z).
Proof.
  intros (Ln & Lc & Fr) Lname B. unfold sized.
  cbn [nick channels with_channels with_channels_set].
  split; [exact Ln|]. split.
  - rewrite list_set_length; lia.
  - apply list_set_Forall; [exact Fr|]. now apply stored_length.
Qed.

Lemma join_channel_recorded (name : str) (s : irc_type) :
  length (channels s) = MAXCHANS H ->
  nul_free name = true ->
  (0 <= channels_set s < Z.of_nat (MAXCHANS H))%Z ->
  recorded
    (with_channels_set
       (with_channels s
          (list_set (channels s) (Z.to_nat (channels_set s))
             (stored (CHANLEN H) name)))
       (channels_set s + 1)%Z)
  = recorded s ++ [Val name].
Proof.
  intros Lc F B. unfold recorded.
  cbn [channels channels_set with_channels with_channels_set].
  replace (Z.to_nat (channels_set s + 1)) with (S (Z.to_nat (channels_set s)))
    by lia.
  rewrite firstn_list_set_last by lia.
  rewrite map_app. simpl. now rewrite cstr_stored.
Qed.

(** Joining before the connection is connected records and sends nothing. *)
Lemma join_each_records (names : list str) :
  forall (w : world) (old : list str),
    sized H (server w) ->
    isConnected (server w) = false ->
    (0 <= channels_set (server w))%Z ->
    recorded (server w) = map Val old ->
    forallb (channel_name H) names = true ->
    Z.to_nat (channels_set (server w)) + length names <= MAXCHANS H ->
    exists w1,
      join_each H names w = Ok tt w1 [] /\
      sized H (server w1) /\
      isConnected (server w1) = false /\
      channels_set (server w1)
      = (channels_set (server w) + Z.of_nat (length names))%Z /\
      recorded (server w1) = map Val (old ++ names).
Proof.
  induction names as [|name names IH]; intros w old Sz Nc B R Cn Room.
  - exists w. simpl. rewrite app_nil_r, Z.add_0_r. auto.
  - simpl in Cn, Room. apply andb_true_iff in Cn as [Cn Cns].
    destruct (channel_name_inv _ Cn) as (_ & F & Lname).
    assert (B' : (0 <= channels_set (server w) < Z.of_nat (MAXCHANS H))%Z)
      by lia.
    pose proof (join_channel_records name w Sz Cn B') as J.
    rewrite Nc in J.
    match type of J with _ = Ok _ ?w' _ =>
      destruct (IH w' (old ++ [name])) as (w1 & E & P)
    end.
    + exact (join_channel_keeps_sized name w Sz Lname B').
    + exact Nc.
    + cbn [server with_server channels_set with_channels_set]. lia.
    + cbn [server with_server].
      destruct Sz as (_ & Lc & _).
      rewrite (join_channel_recorded name (server w) Lc F B'), R, map_app.
      reflexivity.
    + exact Cns.
    + cbn [server with_server channels_set with_channels_set]. lia.
    + exists w1. split.
      * cbn [join_each]. apply (bind_ok _ _ _ _ _ _ _ _ _ J E).
      * destruct P as (P1 & P2 & P3 & P4).
        split; [exact P1|]. split; [exact P2|]. split.
        -- rewrite P3.
           cbn [server with_server channels_set with_channels_set length]. lia.
        -- rewrite P4, <- app_assoc. reflexivity.
Qed.

Lemma skipn_cons_inv {A} (j : nat) :
  forall (l : list A) (x : A) (r : list A),
    skipn j l = x :: r -> nth_error l j = Some x /\ skipn (S j) l = r.
Proof.
  induction j as [|j IH]; intros [|y l] x r E; simpl in E; try discriminate.
  - injection E as -> ->. auto.
  - now apply IH.
Qed.

(** The replay loop sends one JOIN per row, in row order. *)
Lemma join_recorded_sends (count : nat) :
  forall (j : nat) (names : list str) (w : world),
    length (channels (server w)) = MAXCHANS H ->
    j + count <= MAXCHANS H ->
    map cstr (firstn count (skipn j (channels (server w)))) = map Val names ->
    join_recorded H count (Z.of_nat j) w
    = Ok (Z.of_nat (j + count)) w
        (map (fun name =>
                Sent (firstn (IRCLEN H - 1) (lit "JOIN " ++ name ++ CRLF)))
             names).
Proof.
  induction count as [|count IH]; intros j names w Lc Room E.
  - destruct names; [|discriminate]. simpl. rewrite Nat.add_0_r. reflexivity.
  - destruct (skipn j (channels (server w))) as [|row rest] eqn:Es.
    + pose proof (length_skipn j (channels (server w))) as Ls.
      rewrite Es in Ls. simpl in Ls. lia.
    + destruct (skipn_cons_inv _ _ _ _ Es) as [En Er].
      destruct names as [|name names]; [discriminate|].
      simpl in E. injection E as Ec Em. rewrite <- Er in Em.
      cbn [join_recorded].
      unfold bind at 1. rewrite (channel_row_at j row w Lc En).
      unfold bind at 1. unfold lift at 1. rewrite Ec.
      unfold bind at 1. unfold irc_channel_command, _irc_command, emit at 1.
      replace (Z.of_nat j + 1)%Z with (Z.of_nat (S j)) by lia.
      rewrite (IH (S j) names w Lc) by (try exact Em; lia).
      replace (S j + count) with (j + S count) by lia.
      reflexivity.
Qed.

(** End of MOTD: the connected flag is set and the recorded channels are
    joined, in storage order. *)
Lemma end_of_motd_replays (names : list str) (w : world) :
  NICKNAMEINUSE H <> ENDOFMOTD H ->
  length (channels (server w)) = MAXCHANS H ->
  (0 <= channels_set (server w) <= Z.of_nat (MAXCHANS H))%Z ->
  recorded (server w) = map Val names ->
  numeric_reply H (ENDOFMOTD H) w
  = Ok (ENDOFMOTD H) (with_server w (with_isConnected (server w) true))
      (map (fun name =>
              Sent (firstn (IRCLEN H - 1) (lit "JOIN " ++ name ++ CRLF)))
           names).
Proof.
  intros D Lc B R. unfold numeric_reply.
  replace (ENDOFMOTD H =? NICKNAMEINUSE H)%Z with false
    by (symmetry; apply Z.eqb_neq; congruence).
  rewrite Z.eqb_refl.
  unfold bind at 1. unfold bind at 1. unfold modify_server at 1.
  unfold bind at 1. unfold join_channel.
  unfold bind at 1. unfold get_server at 1.
  cbn [server with_server isConnected with_isConnected channels_set].
  rewrite (join_recorded_sends (Z.to_nat (channels_set (server w))) 0 names).
  - unfold ret. cbn [app]. rewrite !app_nil_r. reflexivity.
  - exact Lc.
  - lia.
  - exact R.
Qed.

End ChannelSet.

Lemma names_shorter_than_rows (n : nat) (rows : list buffer) :
  forall names : list str,
    map cstr rows = map Val names ->
    Forall (fun row => length row = n) rows ->
    Forall (fun name => length name < n) names.
Proof.
  induction rows as [|row rows IH]; intros [|name names] E F;
    try discriminate; constructor.
  - simpl in E. injection E as E _. inversion F; subst.
    now apply cstr_shorter.
  - simpl in E. injection E as _ E. inversion F; subst. now apply IH.
Qed.

Lemma recorded_names_short (H : irc_h) (s : irc_type) (names : list str) :
  sized H s ->
  recorded s = map Val names ->
  Forall (fun name => length name < CHANLEN H) names.
Proof.
  intros (_ & _ & Fr) R.
  apply (names_shorter_than_rows (CHANLEN H) _ names R).
  rewrite <- (firstn_skipn (Z.to_nat (channels_set s)) (channels s)) in Fr.
  now apply Forall_app in Fr.
Qed.

(** ** Deferred join *)

(** C2: a channel joined while the connection is not yet connected is
    recorded without any traffic; the end-of-MOTD reply then sets the
    connected flag and sends exactly one JOIN per recorded channel, in
    storage order. *)
Theorem deferred_joins_sent_at_end_of_motd
  (H : irc_h) (w : world) (old names : list str) :
  NICKNAMEINUSE H <> ENDOFMOTD H ->
  CHANLEN H + 7 <= IRCLEN H ->
  sized H (server w) ->
  isConnected (server w) = false ->
  (0 <= channels_set (server w))%Z ->
  recorded (server w) = map Val old ->
  forallb (channel_name H) names = true ->
  Z.to_nat (channels_set (server w)) + length names <= MAXCHANS H ->
  exists w1 w2,
    join_each H names w = Ok tt w1 [] /\
    isConnected (server w1) = false /\
    recorded (server w1) = map Val (old ++ names) /\
    numeric_reply H (ENDOFMOTD H) w1
    = Ok (ENDOFMOTD H) w2
        (map (fun name => Sent (lit "JOIN " ++ name ++ CRLF)) (old ++ names)) /\
    isConnected (server w2) = true /\
    recorded (server w2) = map Val (old ++ names).
Proof.
  intros D Li Sz Nc B R Cn Room.
  destruct (join_each_records H names w old Sz Nc B R Cn Room)
    as (w1 & E & Sz1 & Nc1 & Cs1 & R1).
  exists w1. eexists.
  split; [exact E|]. split; [exact Nc1|]. split; [exact R1|].
  split; [|split].
  - rewrite (end_of_motd_replays H (old ++ names) w1 D).
    + f_equal. apply map_ext_in. intros name In.
      pose proof (recorded_names_short H _ _ Sz1 R1) as Short.
      rewrite Forall_forall in Short. specialize (Short name In).
      rewrite firstn_fits; [reflexivity|].
      repeat (rewrite ?length_app; simpl). lia.
    + now destruct Sz1 as (_ & Lc & _).
    + lia.
    + exact R1.
  - reflexivity.
  - exact R1.
Qed.

Lemma deferred_joins_sent_at_end_of_motd_witness :
  exists w1 w2,
    join_each sample_irc_h [lit "#a"; lit "#b"; lit "#c"]
      (initial_world sample_irc_h (lit "irc-bot") (lit "secret"))
    = Ok tt w1 [] /\
    isConnected (server w1) = false /\
    recorded (server w1) = map Val ([] ++ [lit "#a"; lit "#b"; lit "#c"]) /\
    numeric_reply sample_irc_h 376 w1
    = Ok 376%Z w2
        (map (fun name => Sent (lit "JOIN " ++ name ++ CRLF))
             ([] ++ [lit "#a"; lit "#b"; lit "#c"])) /\
    isConnected (server w2) = true /\
    recorded (server w2) = map Val ([] ++ [lit "#a"; lit "#b"; lit "#c"]).
Proof.
  apply (deferred_joins_sent_at_end_of_motd sample_irc_h
           (initial_world sample_irc_h (lit "irc-bot") (lit "secret"))
           [] [lit "#a"; lit "#b"; lit "#c"]).
  - discriminate.
  - simpl. lia.
  - repeat split. repeat constructor.
  - reflexivity.
  - simpl. lia.
  - reflexivity.
  - reflexivity.
  - simpl. lia.
Defined.

(** ** Inversion of successful runs *)

Lemma ok_inj {A} (a a' : A) (w w' : world) (t t' : list event) :
  Ok a w t = Ok a' w' t' -> a = a' /\ w = w' /\ t = t'.
Proof. intros E. injection E as -> -> ->. auto. Qed.

Ltac ok_inj E := apply ok_inj in E; destruct E as (? & ? & ?); subst.

Ltac run_inv :=
  repeat match goal with
  | E : bind _ _ _ = Ok _ _ _ |- _ =>
      let a := fresh "a" in
      let w1 := fresh "w" in
      let t1 := fresh "t" in
      let t2 := fresh "t" in
      let E1 := fresh "E" in
      let E2 := fresh "E" in
      let Et := fresh "Et" in
      apply bind_inv in E;
      destruct E as (a & w1 & t1 & t2 & E1 & E2 & Et);
      cbv beta in E2
  | E : ret _ _ = Ok _ _ _ |- _ => unfold ret in E; ok_inj E
  | E : fail _ _ = Ok _ _ _ |- _ => discriminate E
  | E : emit _ _ = Ok _ _ _ |- _ => unfold emit in E; ok_inj E
  | E : get_server _ = Ok _ _ _ |- _ => unfold get_server in E; ok_inj E
  | E : get_world _ = Ok _ _ _ |- _ => unfold get_world in E; ok_inj E
  | E : modify_server _ _ = Ok _ _ _ |- _ =>
      unfold modify_server in E; ok_inj E
  | E : modify_world _ _ = Ok _ _ _ |- _ =>
      unfold modify_world in E; ok_inj E
  | E : lift ?r _ = Ok _ _ _ |- _ =>
      unfold lift in E; destruct r eqn:?; [ok_inj E|discriminate E]
  | E : strtok _ _ _ = Ok _ _ _ |- _ => rewrite strtok_run in E; ok_inj E
  | E : (if ?b then _ else _) _ = Ok _ _ _ |- _ => destruct b eqn:?
  | E : (match ?x with _ => _ end) _ = Ok _ _ _ |- _ => destruct x eqn:?
  end.

(** ** Kick and rejoin *)

(** The kicked entry is removed by swap-with-last, and the rejoin records
    the channel again: three entries before, three entries after. *)
Lemma kick_rejoin_keeps_three_entries :
  exists w' t,
    irc_kick sample_irc_h kick_b world_abc = Ok tt w' t /\
    recorded (server w')
    = [Val (lit "#a"); Val (lit "#c"); Val (lit "#b")] /\
    length (recorded (server w')) <> 2.
Proof.
  eexists. eexists.
  split; [vm_compute; reflexivity|].
  split; [vm_compute; reflexivity|].
  vm_compute. discriminate.
Qed.

(** C1, amended: with joined channels #a, #b, #c, a KICK of the bot's own
    nick from #b leaves three recorded channels, #a, #c, #b in storage
    order; after the delay a JOIN for #b is sent if the connection is
    connected, and then the message to the kicker is sent to #b. *)
Theorem kick_rejoin_swaps_and_records_again
  (H : irc_h) (w : world) (kicker host me reason : str)
  (ra rb rc : buffer) (free : list buffer) :
  length kicker + 61 <= IRCLEN H ->
  sized H (server w) ->
  channels (server w) = ra :: rb :: rc :: free ->
  cstr ra = Val (lit "#a") ->
  cstr rb = Val (lit "#b") ->
  cstr rc = Val (lit "#c") ->
  channels_set (server w) = 3%Z ->
  cstr (nick (server w)) = Val me ->
  me <> [] ->
  strchr me " " = false ->
  strchr kicker "!" = false ->
  exists w',
    irc_kick H
      {| sender := kicker ++ "!"%char :: host; command := lit "KICK";
         message := Some (lit "#b " ++ me ++ " "%char :: reason);
         target := None |} w
    = Ok tt w'
        (Slept 4
         :: (if isConnected (server w)
             then [Sent (lit "JOIN #b" ++ CRLF)] else [])
         ++ [Sent (lit "PRIVMSG #b :" ++ kicker ++ lit " magkas..." ++ CRLF)]) /\
    channels_set (server w') = 3%Z /\
    recorded (server w')
    = [Val (lit "#a"); Val (lit "#c"); Val (lit "#b")].
Proof.
  intros Li Sz Ec Ea Eb Ecc Ecs En Nme Sme Sk.
  destruct Sz as (Ln & Lc & Fr).
  destruct (cstr_inv _ _ Ea) as (_ & qa & ->).
  destruct (cstr_inv _ _ Eb) as (_ & qb & ->).
  destruct (cstr_inv _ _ Ecc) as (_ & qc & ->).
  destruct (cstr_inv _ _ En) as (Fme & qn & Enick).
  rewrite Ec in Fr, Lc.
  inversion Fr as [|? ? La Fr1]; subst.
  inversion Fr1 as [|? ? Lb Fr2]; subst.
  inversion Fr2 as [|? ? Lcc Fr3]; subst.
  simpl in La, Lb, Lcc, Lc.
  assert (Lmax : length (channels (server w)) = MAXCHANS H)
    by (rewrite Ec; simpl; exact Lc).
  unfold irc_kick. cbn [sender message].
  rewrite (null_terminate_at kicker host "!" Sk).
  set (w1 := with_save w (me ++ " "%char :: reason)).
  set (w2 := with_save w1 reason).
  (* the two tokens *)
  assert (T1 : strtok (Some (lit "#b " ++ me ++ " "%char :: reason)) (lit " ") w
               = Ok (Some (lit "#b")) w1 []).
  { rewrite strtok_run.
    change (lit "#b " ++ me ++ " "%char :: reason)
      with (lit "#b" ++ " "%char :: (me ++ " "%char :: reason)).
    rewrite strtok_step_token; reflexivity || discriminate. }
  assert (T2 : strtok None (lit " ") w1 = Ok (Some me) w2 []).
  { rewrite strtok_run. cbn [strtok_save w1 with_save].
    rewrite strtok_step_token; try reflexivity; try assumption.
    now apply strchr_free_of. }
  (* the victim is the bot *)
  assert (T3 : lift (streq_member
                       match null_terminate me " " with
                       | Some cut => cut
                       | None => me
                       end (nick (server w2))) w2
               = Ok true w2 []).
  { rewrite (null_terminate_none me " " Sme).
    change (nick (server w2)) with (nick (server w)). rewrite Enick.
    unfold lift, streq_member.
    rewrite (strcmp_eq_app_nul me me qn Fme Fme), str_eqb_refl. reflexivity. }
  (* the search stops at row 1 *)
  assert (T4 : find_channel H (lit "#b") 3 0%Z w2 = Ok 1%Z w2 []).
  { cbn [find_channel].
    eapply ok_eq.
    - eapply bind_ok;
        [apply (channel_row_at H 0 (lit "#a" ++ NUL :: qa) w2 Lmax);
         change (channels (server w2)) with (channels (server w));
         rewrite Ec; reflexivity|].
      cbv beta. eapply bind_ok; [reflexivity|]. cbv beta iota.
      eapply bind_ok;
        [apply (channel_row_at H 1 (lit "#b" ++ NUL :: qb) w2 Lmax);
         change (channels (server w2)) with (channels (server w));
         rewrite Ec; reflexivity|].
      cbv beta. eapply bind_ok; [reflexivity|]. cbv beta iota.
      reflexivity.
    - reflexivity.
    - reflexivity. }
  (* swap-with-last *)
  set (w3 := with_server w2 (with_channels_set (server w2) 2%Z)).
  set (w4 := with_server w3
               (with_channels (server w3)
                  ((lit "#a" ++ NUL :: qa) :: stored (CHANLEN H) (lit "#c")
                   :: (lit "#c" ++ NUL :: qc) :: free))).
  assert (Lmax3 : length (channels (server w3)) = MAXCHANS H) by exact Lmax.
  assert (T5 : channel_row H 2%Z w3 = Ok (lit "#c" ++ NUL :: qc) w3 []).
  { apply (channel_row_at H 2 _ w3 Lmax3).
    change (channels (server w3)) with (channels (server w)).
    rewrite Ec. reflexivity. }
  assert (T6 : channel_row H 1%Z w3 = Ok (lit "#b" ++ NUL :: qb) w3 []).
  { apply (channel_row_at H 1 _ w3 Lmax3).
    change (channels (server w3)) with (channels (server w)).
    rewrite Ec. reflexivity. }
  assert (T7 : strnread (lit "#c" ++ NUL :: qc) (CHANLEN H) = Val (lit "#c")).
  { apply strnread_app_nul; [reflexivity|simpl; lia]. }
  assert (T8 : strncpy (lit "#b" ++ NUL :: qb) (lit "#c") (CHANLEN H)
               = Val (stored (CHANLEN H) (lit "#c"))).
  { apply strncpy_fits; simpl; lia. }
  assert (T9 : set_channel_row 1%Z (stored (CHANLEN H) (lit "#c")) w3
               = Ok tt w4 []).
  { unfold set_channel_row, modify_server, w4.
    change (channels (server w3)) with (channels (server w)).
    rewrite Ec. reflexivity. }
  (* the rejoin records #b in the freed row *)
  assert (Sz4 : sized H (server w4)).
  { unfold sized, w4.
    cbn [server with_server nick channels with_channels].
    split; [exact Ln|]. split; [simpl; exact Lc|].
    repeat constructor; try assumption.
    apply stored_length. simpl. lia. }
  assert (Cb : channel_name H (lit "#b") = true).
  { unfold channel_name. simpl. apply Nat.ltb_lt. lia. }
  pose proof (join_channel_records H (lit "#b") w4 Sz4 Cb) as T10.
  change (channels_set (server w4)) with 2%Z in T10.
  change (isConnected (server w4)) with (isConnected (server w)) in T10.
  specialize (T10 ltac:(lia)).
  match type of T10 with _ = Ok _ ?x _ => set (w5 := x) in * end.
  assert (T11 : send_message H (lit "#b") (kicker ++ lit " magkas...") w5
                = Ok tt w5
                    [Sent (lit "PRIVMSG #b :" ++ kicker ++ lit " magkas..."
                           ++ CRLF)]).
  { unfold send_message. rewrite irc_command_text.
    - f_equal. f_equal. simpl. now rewrite <- !app_assoc.
    - destruct kicker; discriminate.
    - rewrite length_app. simpl. lia.
    - rewrite length_app. simpl. lia. }
  exists w5. split; [|split].
  - eapply ok_eq.
    + eapply bind_ok; [exact T1|]. cbv beta iota.
      eapply bind_ok; [exact T2|]. cbv beta iota.
      eapply bind_ok; [reflexivity|]. cbv beta.
      eapply bind_ok; [exact T3|]. cbv beta iota.
      eapply bind_ok; [reflexivity|]. cbv beta.
      change (channels_set (server w2)) with (channels_set (server w)).
      rewrite Ecs. change (Z.to_nat 3) with 3.
      eapply bind_ok; [exact T4|]. cbv beta.
      eapply bind_ok.
      { unfold modify_server.
        change (channels_set (server w2)) with (channels_set (server w)).
        rewrite Ecs. reflexivity. }
      cbv beta. fold w3.
      eapply bind_ok; [reflexivity|]. cbv beta.
      eapply bind_ok; [exact T5|]. cbv beta.
      eapply bind_ok; [exact T6|]. cbv beta.
      eapply bind_ok; [unfold lift; rewrite T7; reflexivity|]. cbv beta.
      eapply bind_ok; [unfold lift; rewrite T8; reflexivity|]. cbv beta.
      eapply bind_ok; [exact T9|]. cbv beta.
      eapply bind_ok; [exact T10|]. cbv beta.
      exact T11.
    + reflexivity.
    + simpl. destruct (isConnected (server w)); simpl.
      * rewrite firstn_fits; [reflexivity|simpl; lia].
      * reflexivity.
  - reflexivity.
  - unfold recorded, w5.
    cbn [server with_server channels with_channels channels_set
         with_channels_set].
    change (channels_set (server w4)) with 2%Z.
    change (channels (server w4))
      with ((lit "#a" ++ NUL :: qa) :: stored (CHANLEN H) (lit "#c")
            :: (lit "#c" ++ NUL :: qc) :: free).
    change (Z.to_nat (2 + 1)) with 3. change (Z.to_nat 2) with 2.
    unfold list_set. cbn [firstn skipn app map].
    rewrite !cstr_stored by reflexivity.
    reflexivity.
Qed.

Lemma kick_rejoin_swaps_and_records_again_witness :
  exists w',
    irc_kick sample_irc_h kick_b world_abc
    = Ok tt w'
        [Slept 4; Sent (lit "JOIN #b" ++ CRLF);
         Sent (lit "PRIVMSG #b :kicker magkas..." ++ CRLF)] /\
    channels_set (server w') = 3%Z /\
    recorded (server w')
    = [Val (lit "#a"); Val (lit "#c"); Val (lit "#b")].
Proof.
  apply (kick_rejoin_swaps_and_records_again sample_irc_h world_abc
           (lit "kicker") (lit "~k@example.org") (lit "bot") (lit ":bye")
           (stored 50 (lit "#a")) (stored 50 (lit "#b")) (stored 50 (lit "#c"))
           [repeat NUL 50; repeat NUL 50]).
  - simpl. lia.
  - repeat split. repeat constructor.
  - reflexivity.
  - reflexivity.
  - reflexivity.
  - reflexivity.
  - reflexivity.
  - reflexivity.
  - discriminate.
  - reflexivity.
  - reflexivity.
Defined.

(** ** Keep-alive *)

Lemma is_prefix_nul (p s : str) (t : buffer) :
  nul_free p = true -> is_prefix p (s ++ NUL :: t) = is_prefix p s.
Proof.
  revert s; induction p as [|x p IH]; intros s F; [reflexivity|].
  rewrite nul_free_cons in F. apply andb_true_iff in F as [F1 F2].
  destruct s as [|y s]; simpl.
  - apply negb_true_iff in F1. unfold is_nul in F1. now rewrite F1.
  - now rewrite (IH s F2).
Qed.

(** A bare ["PING"] is answered with bytes that are not part of the line:
    [server->line + 5] is past its terminator. *)
Lemma bare_ping_echoes_stale_bytes :
  cstr bare_ping_line = Val (lit "PING") /\
  exists w',
    parse_irc_line sample_irc_h sample_lookup 6 bare_ping_line world_abc
    = Ok 6%Z w' [Sent (lit "PONG example.net" ++ CRLF)].
Proof.
  split; [reflexivity|].
  eexists. vm_compute. reflexivity.
Qed.

(** C3, amended: a complete line that begins with PING, has a fifth
    character (the space) and a token after it, and whose answer fits the
    outbound buffer, makes the parser send exactly one PONG with that token;
    nothing else is sent, no token is cut and no handler is looked up. *)
Theorem ping_is_answered_with_its_token
  (H : irc_h) (function_lookup : str -> option handler)
  (n : Z) (c : ascii) (token : str) (stale : buffer) (w : world) :
  (0 < n)%Z ->
  nul_free (c :: token) = true ->
  length token + 8 <= IRCLEN H ->
  parse_irc_line H function_lookup n
    ((lit "PING" ++ c :: token) ++ NUL :: stale) w
  = Ok n (with_server w (with_line_offset (server w) 0))
      [Sent (lit "PONG " ++ token ++ CRLF)].
Proof.
  intros Pn F Li. unfold parse_irc_line.
  replace (n <=? 0)%Z with false by (symmetry; apply Z.leb_gt; lia).
  unfold bind at 1. unfold modify_server at 1.
  replace (starts_with ((lit "PING" ++ c :: token) ++ NUL :: stale) (lit "PING"))
    with true by reflexivity.
  unfold bind at 1. unfold lift at 1.
  change (offset ((lit "PING" ++ c :: token) ++ NUL :: stale) 5)
    with (token ++ NUL :: stale).
  rewrite nul_free_cons in F. apply andb_true_iff in F as [_ F].
  rewrite (cstr_app_nul token stale F).
  unfold bind at 1. unfold irc_ping_command.
  rewrite irc_command_plain by (simpl; lia).
  reflexivity.
Qed.

Lemma ping_is_answered_with_its_token_witness :
  parse_irc_line sample_irc_h sample_lookup 25
    (lit "PING :wolfe.example.net" ++ [NUL]) world_abc
  = Ok 25%Z (with_server world_abc (with_line_offset (server world_abc) 0))
      [Sent (lit "PONG :wolfe.example.net" ++ CRLF)].
Proof.
  apply (ping_is_answered_with_its_token sample_irc_h sample_lookup 25 " "
           (lit ":wolfe.example.net") [] world_abc).
  - lia.
  - reflexivity.
  - simpl. lia.
Defined.

(** The answer is cut at IRCLEN - 1 bytes like every outbound command: a
    PING line of 510 characters gets a PONG without its final line feed. *)
Example long_ping_answer_is_cut :
  parse_irc_line sample_irc_h sample_lookup 512
    (lit "PING " ++ repeat "x"%char 505 ++ [NUL]) world_abc
  = Ok 512%Z (with_server world_abc (with_line_offset (server world_abc) 0))
      [Sent (lit "PONG " ++ repeat "x"%char 505 ++ [CR])].
Proof. vm_compute. reflexivity. Qed.

(** ** Routing of the command token *)

Lemma digit_not_space (c : ascii) : isdigit c = true -> isspace c = false.
Proof.
  unfold isdigit, isspace. intros E.
  apply andb_true_iff in E as [E1 E2].
  apply Nat.leb_le in E1. apply Nat.leb_le in E2.
  apply orb_false_iff. split.
  - apply Nat.eqb_neq. lia.
  - apply andb_false_iff. right. apply Nat.leb_gt. lia.
Qed.

Lemma digit_not_sign (c : ascii) :
  isdigit c = true -> Ascii.eqb c "-" = false /\ Ascii.eqb c "+" = false.
Proof.
  intros E. split.
  - destruct (Ascii.eqb_spec c "-") as [->|]; [discriminate|reflexivity].
  - destruct (Ascii.eqb_spec c "+") as [->|]; [discriminate|reflexivity].
Qed.

Lemma digit_value_range (c : ascii) :
  isdigit c = true -> (0 <= digit_value c <= 9)%Z.
Proof.
  unfold isdigit, digit_value. intros E.
  apply andb_true_iff in E as [E1 E2].
  apply Nat.leb_le in E1. apply Nat.leb_le in E2. lia.
Qed.

Lemma digits_nonneg (s : str) :
  forall acc : Z, (0 <= acc)%Z -> (0 <= digits acc s)%Z.
Proof.
  induction s as [|c s IH]; intros acc A; cbn [digits]; [exact A|].
  destruct (isdigit c) eqn:D; [|exact A].
  apply IH. pose proof (digit_value_range c D). lia.
Qed.

Lemma to_int_small (v : Z) : (0 <= v <= INT_MAX)%Z -> to_int v = v.
Proof.
  unfold to_int, INT_MAX. intros B.
  rewrite Z.mod_small by lia. lia.
Qed.

(** On a token made of digits only, [atoi] is the decimal value, as long as
    an [int] holds it. *)
Lemma atoi_digits (s : str) :
  s <> [] -> forallb isdigit s = true -> (digits 0 s <= INT_MAX)%Z ->
  atoi s = digits 0 s.
Proof.
  intros N D B. destruct s as [|c s]; [contradiction|].
  pose proof (digits_nonneg (c :: s) 0 ltac:(lia)) as P.
  simpl in D. apply andb_true_iff in D as [Dc _].
  destruct (digit_not_sign c Dc) as [S1 S2].
  unfold atoi, strtol. cbn [skip_spaces].
  rewrite (digit_not_space c Dc), S1, S2.
  unfold LONG_MAX, LONG_MIN, INT_MAX in *.
  rewrite Z.min_r by lia. rewrite Z.max_r by lia.
  apply to_int_small. unfold INT_MAX. lia.
Qed.

(** On a token made of digits only, [atoi] is the decimal value capped at
    LONG_MAX, as [strtol] caps it, and then cut to the 32 bits of an [int]. *)
Lemma atoi_of_digits (s : str) :
  s <> [] -> forallb isdigit s = true ->
  atoi s = to_int (Z.min LONG_MAX (digits 0 s)).
Proof.
  intros N D. destruct s as [|c s]; [contradiction|].
  pose proof (digits_nonneg (c :: s) 0 ltac:(lia)) as P.
  simpl in D. apply andb_true_iff in D as [Dc _].
  destruct (digit_not_sign c Dc) as [S1 S2].
  unfold atoi, strtol. cbn [skip_spaces].
  rewrite (digit_not_space c Dc), S1, S2.
  rewrite Z.max_r; [reflexivity|]. unfold LONG_MAX, LONG_MIN. lia.
Qed.

Lemma to_int_zero (v : Z) : to_int v = 0%Z <-> (v mod 2 ^ 32 = 0)%Z.
Proof.
  unfold to_int. change (2 ^ 31)%Z with 2147483648%Z.
  change (2 ^ 32)%Z with 4294967296%Z.
  split; intros E; Z.div_mod_to_equations; lia.
Qed.

(** A token with a numeric prefix is routed to [numeric_reply], although it
    does not parse fully as an integer and nothing is registered under it:
    the nick is changed and a NICK command goes out. *)
Lemma numeric_prefix_is_routed_as_reply :
  parses_fully_as_positive_integer (lit "433abc") = false /\
  sample_lookup (lit "433abc") = None /\
  exists w',
    parse_irc_line sample_irc_h sample_lookup 41
      (lit ":irc.example.net 433abc * bot :in use" ++ [NUL]) world_abc
    = Ok 41%Z w' [Sent (lit "NICK bot_" ++ CRLF)].
Proof.
  split; [reflexivity|]. split; [reflexivity|].
  eexists. vm_compute. reflexivity.
Qed.

(** A token that parses fully as a positive integer but whose value is a
    multiple of 2^32 is not routed to [numeric_reply]: [atoi] of it is 0, it
    is looked up in the registry, and with nothing registered under it the
    line has no effect. *)
Example multiple_of_two_to_the_32_is_looked_up :
  parses_fully_as_positive_integer (lit "4294967296") = true /\
  atoi (lit "4294967296") = 0%Z /\
  sample_lookup (lit "4294967296") = None /\
  exists w',
    parse_irc_line sample_irc_h sample_lookup 45
      (lit ":irc.example.net 4294967296 * bot :in use" ++ [NUL]) world_abc
    = Ok 45%Z w' [].
Proof.
  split; [reflexivity|]. split; [reflexivity|]. split; [reflexivity|].
  eexists. vm_compute. reflexivity.
Qed.

(** C7, amended: on a line that is not a PING and has its three tokens,
    the command token goes to [numeric_reply], with [atoi] of it as the
    reply, if and only if [atoi] of it is not zero, and is looked up in the
    registry otherwise.  A token that parses fully as a positive integer no
    greater than INT_MAX has that value as its [atoi], above zero.  In
    general [atoi] of a token of digits is its value capped at LONG_MAX and
    cut to 32 bits: a token of digits whose value is at most LONG_MAX is
    looked up in the registry exactly when its value is a multiple of
    2^32. *)
Theorem command_is_routed_by_atoi
  (H : irc_h) (function_lookup : str -> option handler)
  (n : Z) (c : ascii) (from cmd msg : str) (stale : buffer) (w : world) :
  (0 < n)%Z ->
  starts_with (c :: from ++ " "%char :: cmd ++ " "%char :: msg) (lit "PING")
  = false ->
  nul_free (c :: from ++ " "%char :: cmd ++ " "%char :: msg) = true ->
  from <> [] -> free_of (lit " ") from = true ->
  cmd <> [] -> free_of (lit " ") cmd = true ->
  msg <> [] ->
  parse_irc_line H function_lookup n
    ((c :: from ++ " "%char :: cmd ++ " "%char :: msg) ++ NUL :: stale) w
  = (let pdata := {| sender := from; command := cmd;
                     message := Some msg; target := None |} in
     (if (atoi cmd =? 0)%Z
      then match function_lookup cmd with
           | Some h => run_handler H function_lookup h pdata
           | None => ret tt
           end
      else numeric_reply H (atoi cmd) ;; ret tt) ;;
     ret n)
      (with_save (with_server w (with_line_offset (server w) 0)) []) /\
  (parses_fully_as_positive_integer cmd = true ->
   (digits 0 cmd <= INT_MAX)%Z ->
   atoi cmd = digits 0 cmd /\ (atoi cmd =? 0)%Z = false) /\
  (forallb isdigit cmd = true ->
   atoi cmd = to_int (Z.min LONG_MAX (digits 0 cmd))) /\
  (forallb isdigit cmd = true -> (digits 0 cmd <= LONG_MAX)%Z ->
   ((atoi cmd =? 0)%Z = true <-> (digits 0 cmd mod 2 ^ 32 = 0)%Z)).
Proof.
  intros Pn NP F Nf Ff Nc Fc Nm. split; [|split; [|split]].
  - unfold parse_irc_line.
    replace (n <=? 0)%Z with false by (symmetry; apply Z.leb_gt; lia).
    unfold bind at 1. unfold modify_server at 1.
    set (w0 := with_server w (with_line_offset (server w) 0)).
    unfold starts_with in *.
    rewrite (is_prefix_nul (lit "PING") _ stale eq_refl), NP.
    unfold bind at 1. unfold lift at 1.
    change (offset
              ((c :: from ++ " "%char :: cmd ++ " "%char :: msg) ++ NUL :: stale) 1)
      with ((from ++ " "%char :: cmd ++ " "%char :: msg) ++ NUL :: stale).
    rewrite nul_free_cons in F. apply andb_true_iff in F as [_ F].
    rewrite (cstr_app_nul _ stale F).
    unfold bind at 1. rewrite strtok_run.
    rewrite (strtok_step_token (lit " ") from " " _ Nf Ff eq_refl).
    cbn [fst snd].
    unfold bind at 1. rewrite strtok_run. cbn [strtok_save with_save].
    rewrite (strtok_step_token (lit " ") cmd " " _ Nc Fc eq_refl).
    cbn [fst snd].
    unfold bind at 1. rewrite strtok_run. cbn [strtok_save with_save].
    rewrite (strtok_step_rest msg Nm).
    cbn [fst snd].
    change (with_save (with_save (with_save w0 _) _) [])
      with (with_save w0 []).
    cbv zeta.
    destruct (atoi cmd =? 0)%Z; cbn [negb];
      destruct (bind _ _ (with_save w0 [])) as [a w' t|f]; cbn [app];
      rewrite ?app_nil_r; reflexivity.
  - intros PF B. unfold parses_fully_as_positive_integer in PF.
    destruct cmd as [|d cmd]; [discriminate|].
    apply andb_true_iff in PF as [D P]. apply Z.ltb_lt in P.
    rewrite (atoi_digits (d :: cmd) Nc D B).
    split; [reflexivity|]. apply Z.eqb_neq. lia.
  - intros D. exact (atoi_of_digits cmd Nc D).
  - intros D B. rewrite (atoi_of_digits cmd Nc D).
    rewrite Z.min_r by exact B.
    rewrite Z.eqb_eq. apply to_int_zero.
Qed.

Lemma command_is_routed_by_atoi_witness :
  parse_irc_line sample_irc_h sample_lookup 38
    ((":"%char :: lit "irc.example.net" ++ " "%char :: lit "433"
        ++ " "%char :: lit "* bot :in use") ++ NUL :: []) world_abc
  = (let pdata := {| sender := lit "irc.example.net"; command := lit "433";
                     message := Some (lit "* bot :in use"); target := None |} in
     (if (atoi (lit "433") =? 0)%Z
      then match sample_lookup (lit "433") with
           | Some h => run_handler sample_irc_h sample_lookup h pdata
           | None => ret tt
           end
      else numeric_reply sample_irc_h (atoi (lit "433")) ;; ret tt)%irc ;;
     ret 38%Z)%irc
      (with_save
         (with_server world_abc (with_line_offset (server world_abc) 0)) []) /\
  (parses_fully_as_positive_integer (lit "433") = true ->
   (digits 0 (lit "433") <= INT_MAX)%Z ->
   atoi (lit "433") = digits 0 (lit "433") /\
   (atoi (lit "433") =? 0)%Z = false) /\
  (forallb isdigit (lit "433") = true ->
   atoi (lit "433") = to_int (Z.min LONG_MAX (digits 0 (lit "433")))) /\
  (forallb isdigit (lit "433") = true ->
   (digits 0 (lit "433") <= LONG_MAX)%Z ->
   ((atoi (lit "433") =? 0)%Z = true <->
    (digits 0 (lit "433") mod 2 ^ 32 = 0)%Z)).
Proof.
  apply (command_is_routed_by_atoi sample_irc_h sample_lookup 38 ":"
           (lit "irc.example.net") (lit "433") (lit "* bot :in use") []
           world_abc).
  - lia.
  - reflexivity.
  - reflexivity.
  - discriminate.
  - reflexivity.
  - discriminate.
  - reflexivity.
  - discriminate.
Defined.

(** ** Reply targeting *)

Lemma span_until_inv (delim : str) (s : str) :
  forall tok rest : str,
    span_until delim s = (tok, rest) ->
    s = tok ++ rest /\ free_of delim tok = true /\
    match rest with
    | [] => True
    | x :: _ => mem x delim = true
    end.
Proof.
  induction s as [|c s IH]; intros tok rest E; simpl in E.
  - injection E as <- <-. auto.
  - destruct (mem c delim) eqn:Mc.
    + injection E as <- <-. auto.
    + destruct (span_until delim s) as [tok' rest'].
      injection E as <- <-.
      destruct (IH tok' rest' eq_refl) as (-> & F & R).
      split; [reflexivity|]. split; [|exact R].
      simpl. now rewrite Mc.
Qed.

Lemma free_of_strchr (s : str) (c : ascii) :
  free_of [c] s = true -> strchr s c = false.
Proof.
  unfold strchr, free_of, mem.
  induction s as [|x s IH]; simpl; [reflexivity|]. intros E.
  apply andb_true_iff in E as [E1 E2].
  apply negb_true_iff in E1. apply orb_false_iff in E1 as [E1 _].
  rewrite (Ascii.eqb_sym c x), E1. simpl. now apply IH.
Qed.

(** [null_terminate] keeps what stands before the first occurrence. *)
Lemma null_terminate_inv (s : str) (c : ascii) (a : str) :
  null_terminate s c = Some a ->
  exists b, s = a ++ c :: b /\ strchr a c = false.
Proof.
  unfold null_terminate. destruct (strchr s c) eqn:E; [|discriminate].
  intros E'. injection E' as <-.
  destruct (span_until [c] s) as [tok rest] eqn:Es.
  destruct (span_until_inv [c] s tok rest Es) as (-> & F & R).
  simpl. destruct rest as [|x rest].
  - rewrite app_nil_r in E. rewrite (free_of_strchr tok c F) in E. discriminate.
  - exists rest. split; [|now apply free_of_strchr].
    unfold mem in R. simpl in R. rewrite orb_false_r in R.
    apply Ascii.eqb_eq in R. now subst x.
Qed.

Lemma irc_privmsg_total
  (H : irc_h) (function_lookup : str -> option handler)
  (pdata : Parsed_data) (w : world) :
  exists w' t, irc_privmsg H function_lookup pdata w = Ok tt w' t.
Proof.
  unfold irc_privmsg, send_notice, _irc_command, bind, emit, get_world, ret.
  repeat first
    [ progress cbv beta iota
    | rewrite strtok_run
    | match goal with
      | |- context [match ?x with _ => _ end] =>
          lazymatch x with
          | context [match _ with _ => _ end] => fail
          | _ => destruct x
          end
      end ];
    eauto.
Qed.

(** The PRIVMSG handler on a bot command with arguments,
    ["tgt :!name args"]. *)
Lemma irc_privmsg_bot_command
  (H : irc_h) (function_lookup : str -> option handler)
  (from host tgt name args : str) (h : handler) (w : world) :
  strchr from "!" = false -> tgt <> [] -> free_of (lit " ") tgt = true ->
  free_of (lit " ") name = true -> args <> [] ->
  function_lookup name = Some h ->
  irc_privmsg H function_lookup
    (privmsg_of from host tgt ("!"%char :: name ++ " "%char :: args)) w
  = Ok tt (with_save w [])
      [Forked h {| sender := from; command := name; message := Some args;
                   target := Some (if strchr tgt "#" then tgt else from) |}].
Proof.
  intros Nf Nt Ft Fn Na Ln. unfold irc_privmsg, privmsg_of.
  cbn [sender message].
  rewrite (null_terminate_at from host "!" Nf).
  unfold bind at 1. rewrite strtok_run.
  rewrite (strtok_step_token (lit " ") tgt " " _ Nt Ft eq_refl).
  cbn [fst snd].
  unfold bind at 1. rewrite strtok_run. cbn [strtok_save with_save].
  change (":"%char :: "!"%char :: name ++ " "%char :: args)
    with ((":"%char :: "!"%char :: name) ++ " "%char :: args).
  rewrite (strtok_step_token (lit " ") (":"%char :: "!"%char :: name) " " args)
    by (discriminate || exact Fn || reflexivity).
  cbn [fst snd tl].
  unfold bind at 1. rewrite strtok_run. cbn [strtok_save with_save].
  rewrite (strtok_step_rest args Na). cbn [fst snd].
  change (Ascii.eqb "!" "!") with true. cbv iota.
  rewrite Ln. reflexivity.
Qed.

(** The same without arguments, ["tgt :!name"]: the message is NULL. *)
Lemma irc_privmsg_bare_bot_command
  (H : irc_h) (function_lookup : str -> option handler)
  (from host tgt name : str) (h : handler) (w : world) :
  strchr from "!" = false -> tgt <> [] -> free_of (lit " ") tgt = true ->
  free_of (lit " ") name = true ->
  function_lookup name = Some h ->
  irc_privmsg H function_lookup
    (privmsg_of from host tgt ("!"%char :: name)) w
  = Ok tt (with_save w [])
      [Forked h {| sender := from; command := name; message := None;
                   target := Some (if strchr tgt "#" then tgt else from) |}].
Proof.
  intros Nf Nt Ft Fn Ln. unfold irc_privmsg, privmsg_of.
  cbn [sender message].
  rewrite (null_terminate_at from host "!" Nf).
  unfold bind at 1. rewrite strtok_run.
  rewrite (strtok_step_token (lit " ") tgt " " _ Nt Ft eq_refl).
  cbn [fst snd].
  unfold bind at 1. rewrite strtok_run. cbn [strtok_save with_save].
  rewrite (strtok_step_whole (lit " ") (":"%char :: "!"%char :: name))
    by (discriminate || exact Fn).
  cbn [fst snd tl].
  unfold bind at 1. rewrite strtok_run. cbn [strtok_save with_save].
  change (strtok_step [] []) with (@None str, @nil ascii). cbn [fst snd].
  change (Ascii.eqb "!" "!") with true. cbv iota.
  rewrite Ln. reflexivity.
Qed.

(** The PRIVMSG handler on a CTCP request that starts with
    ["\x01VERSION"]. *)
Lemma irc_privmsg_version
  (H : irc_h) (function_lookup : str -> option handler)
  (from host tgt rest : str) (w : world) :
  strchr from "!" = false -> tgt <> [] -> free_of (lit " ") tgt = true ->
  length (bot_version w) + 61 <= IRCLEN H ->
  length from + length (bot_version w) + 22 <= IRCLEN H ->
  exists w' : world,
    irc_privmsg H function_lookup
      (privmsg_of from host tgt (SOH :: lit "VERSION" ++ rest)) w
    = Ok tt w'
        [Sent (lit "NOTICE " ++ from ++ lit " :"
                 ++ (SOH :: lit "VERSION " ++ bot_version w ++ [SOH])
                 ++ CRLF)] /\
    server w' = server w.
Proof.
  intros Nf Nt Ft Lv Lf. unfold irc_privmsg, privmsg_of. cbn [sender message].
  rewrite (null_terminate_at from host "!" Nf).
  unfold bind at 1. rewrite strtok_run.
  rewrite (strtok_step_token (lit " ") tgt " " _ Nt Ft eq_refl).
  cbn [fst snd].
  unfold bind at 1. rewrite strtok_run. cbn [strtok_save with_save].
  change (":"%char :: SOH :: lit "VERSION" ++ rest)
    with ((":"%char :: SOH :: lit "VERSION") ++ rest).
  rewrite (strtok_step_prefix (lit " ") (":"%char :: SOH :: lit "VERSION") rest)
    by (discriminate || reflexivity).
  change (tl ((":"%char :: SOH :: lit "VERSION")
                ++ fst (span_until (lit " ") rest)))
    with (SOH :: lit "VERSION" ++ fst (span_until (lit " ") rest)).
  unfold bind at 1. rewrite strtok_run. cbv beta iota.
  change (Ascii.eqb SOH "!") with false.
  change (Ascii.eqb SOH (ascii_of_nat 1)) with true. cbv iota.
  replace (starts_with (lit "VERSION" ++ fst (span_until (lit " ") rest))
             (lit "VERSION")) with true by reflexivity.
  unfold bind at 1. unfold get_world at 1. cbv beta iota.
  unfold send_notice. cbn [bot_version with_save].
  rewrite (irc_command_text H (lit "NOTICE") from
             (SOH :: lit "VERSION " ++ bot_version w ++ [SOH])).
  - eexists. split; [reflexivity|reflexivity].
  - discriminate.
  - cbn [length app]. rewrite !length_app. simpl. lia.
  - cbn [length app]. rewrite !length_app. simpl. lia.
Qed.

(** C8: on every PRIVMSG [":from!host PRIVMSG tgt :!name ..."] whose command
    is registered, with or without arguments, the handler forks that command
    with the sender cut at the first [!] and, as reply target, the first
    payload token [tgt] if it contains a [#], the cut sender otherwise; the
    only other thing a PRIVMSG is answered with, the CTCP VERSION notice,
    goes to the cut sender as well.  Conversely nothing is ever forked with
    another sender or target, whatever the PRIVMSG.  In particular
    ["PRIVMSG bot :!ping 8.8.8.8"] from alice is answered to alice, not to
    "bot". *)
Theorem privmsg_reply_target
  (H : irc_h) (function_lookup : str -> option handler) :
  (forall (from host tgt name args : str) (h : handler) (w : world),
     strchr from "!" = false -> tgt <> [] -> free_of (lit " ") tgt = true ->
     free_of (lit " ") name = true -> args <> [] ->
     function_lookup name = Some h ->
     irc_privmsg H function_lookup
       (privmsg_of from host tgt ("!"%char :: name ++ " "%char :: args)) w
     = Ok tt (with_save w [])
         [Forked h {| sender := from; command := name; message := Some args;
                      target := Some (if strchr tgt "#" then tgt
                                      else from) |}]) /\
  (forall (from host tgt name : str) (h : handler) (w : world),
     strchr from "!" = false -> tgt <> [] -> free_of (lit " ") tgt = true ->
     free_of (lit " ") name = true ->
     function_lookup name = Some h ->
     irc_privmsg H function_lookup
       (privmsg_of from host tgt ("!"%char :: name)) w
     = Ok tt (with_save w [])
         [Forked h {| sender := from; command := name; message := None;
                      target := Some (if strchr tgt "#" then tgt
                                      else from) |}]) /\
  (forall (from host tgt rest : str) (w : world),
     strchr from "!" = false -> tgt <> [] -> free_of (lit " ") tgt = true ->
     length (bot_version w) + 61 <= IRCLEN H ->
     length from + length (bot_version w) + 22 <= IRCLEN H ->
     exists w' : world,
       irc_privmsg H function_lookup
         (privmsg_of from host tgt (SOH :: lit "VERSION" ++ rest)) w
       = Ok tt w'
           [Sent (lit "NOTICE " ++ from ++ lit " :"
                    ++ (SOH :: lit "VERSION " ++ bot_version w ++ [SOH])
                    ++ CRLF)] /\
       server w' = server w) /\
  (forall (pdata : Parsed_data) (w : world),
     exists w' t,
       irc_privmsg H function_lookup pdata w = Ok tt w' t /\
       forall (h : handler) (pd : Parsed_data),
         In (Forked h pd) t ->
         exists host first,
           sender pdata = sender pd ++ "!"%char :: host /\
           strchr (sender pd) "!" = false /\
           fst (strtok_step
                  (match message pdata with
                   | Some m => m
                   | None => strtok_save w
                   end) (lit " ")) = Some first /\
           target pd = Some (if strchr first "#" then first else sender pd)) /\
  (forall (h : handler) (w : world),
     function_lookup (lit "ping") = Some h ->
     irc_privmsg H function_lookup privmsg_ping w
     = Ok tt (with_save w [])
         [Forked h {| sender := lit "alice"; command := lit "ping";
                      message := Some (lit "8.8.8.8");
                      target := Some (lit "alice") |}]).
Proof.
  split; [|split; [|split; [|split]]].
  - intros from host tgt name args h w.
    apply irc_privmsg_bot_command.
  - intros from host tgt name h w.
    apply irc_privmsg_bare_bot_command.
  - intros from host tgt rest w.
    apply irc_privmsg_version.
  - intros pdata w.
    destruct (irc_privmsg_total H function_lookup pdata w) as (w' & t & E).
    exists w', t. split; [exact E|].
    intros h pd I. unfold irc_privmsg, send_notice, _irc_command in E.
    run_inv; simpl in I; try contradiction;
      destruct I as [I|I]; try contradiction; try discriminate.
    injection I as <- <-. cbn [sender target].
    match goal with N : null_terminate _ _ = Some _ |- _ =>
      destruct (null_terminate_inv _ _ _ N) as (host & Es & Ns)
    end.
    match goal with
    | T : fst (strtok_step
                 (match message pdata with
                  | Some m => m
                  | None => strtok_save w
                  end) (lit " ")) = Some ?f |- _ =>
        exists host, f
    end.
    auto.
  - intros h w L.
    exact (irc_privmsg_bot_command H function_lookup (lit "alice")
             (lit "~a@example.org") (lit "bot") (lit "ping") (lit "8.8.8.8")
             h w eq_refl ltac:(discriminate) eq_refl eq_refl
             ltac:(discriminate) L).
Qed.

Lemma privmsg_reply_target_witness :
  irc_privmsg sample_irc_h sample_lookup
    (privmsg_of (lit "alice") (lit "~a@example.org") (lit "#chan")
       ("!"%char :: lit "ping" ++ " "%char :: lit "8.8.8.8")) world_abc
  = Ok tt (with_save world_abc [])
      [Forked (h_bot (lit "ping"))
         {| sender := lit "alice"; command := lit "ping";
            message := Some (lit "8.8.8.8");
            target := Some (if strchr (lit "#chan") "#" then lit "#chan"
                            else lit "alice") |}] /\
  irc_privmsg sample_irc_h sample_lookup privmsg_ping world_abc
  = Ok tt (with_save world_abc [])
      [Forked (h_bot (lit "ping"))
         {| sender := lit "alice"; command := lit "ping";
            message := Some (lit "8.8.8.8"); target := Some (lit "alice") |}].
Proof.
  destruct (privmsg_reply_target sample_irc_h sample_lookup)
    as (P1 & _ & _ & _ & P5).
  split.
  - apply P1.
    + reflexivity.
    + discriminate.
    + reflexivity.
    + reflexivity.
    + discriminate.
    + reflexivity.
  - apply P5. reflexivity.
Defined.

(** ** The identity query *)




(** ** The channel table and a kick from an unrecorded channel *)

(** With every row in use, a KICK of the bot from a channel that is not
    recorded makes the search end at index MAXCHANS, and the swap writes the
    row after the last one. *)
Example kick_from_unrecorded_channel_overflows_table :
  irc_kick sample_irc_h
    {| sender := lit "kicker!~k@example.org"; command := lit "KICK";
       message := Some (lit "#zz bot :bye"); target := None |} world_full
  = Fault OutOfBounds.
Proof. vm_compute. reflexivity. Qed.

(** * More properties of the engine *)

Lemma bind_fault {A B} (m : M A) (k : A -> M B) (w : world) (f : fault) :
  m w = Fault f -> bind m k w = Fault f.
Proof. intros E. unfold bind. now rewrite E. Qed.

Lemma bind_ok_fault {A B} (m : M A) (k : A -> M B) (w : world)
  (a : A) (w1 : world) (t1 : list event) (f : fault) :
  m w = Ok a w1 t1 -> k a w1 = Fault f -> bind m k w = Fault f.
Proof. intros E1 E2. unfold bind. now rewrite E1, E2. Qed.

Lemma cstr_unterminated (b : buffer) :
  nul_free b = true -> cstr b = Err Unterminated.
Proof.
  induction b as [|c b IH]; simpl; [reflexivity|]. intros F.
  apply andb_true_iff in F as [F1 F2]. apply negb_true_iff in F1.
  now rewrite F1, (IH F2).
Qed.

Lemma nul_free_firstn (n : nat) (s : str) :
  nul_free s = true -> nul_free (firstn n s) = true.
Proof.
  revert n; induction s as [|c s IH]; intros [|n] F; try reflexivity.
  simpl in *. apply andb_true_iff in F as [F1 F2].
  now rewrite F1, (IH n F2).
Qed.

(** A string of [n] characters or more fills the [n] bytes that [strncpy]
    writes and leaves no room for a terminator. *)
Lemma strncpy_overlong (dst : buffer) (s : str) (n : nat) :
  length dst = n -> n <= length s ->
  strncpy dst s n = Val (firstn n s).
Proof.
  intros Ld Ls. unfold strncpy.
  replace (Nat.ltb (length dst) n) with false
    by (symmetry; apply Nat.ltb_ge; lia).
  rewrite skipn_all2 by lia. rewrite app_nil_r.
  rewrite firstn_app. replace (n - length s) with 0 by lia.
  now rewrite app_nil_r.
Qed.

(** ** The nick *)

(** X1: [k] "nickname in use" replies in a row append [k] underscores, as
    long as the nick still fits its array, and send [k] NICK commands, one
    underscore longer each time. *)
Theorem nick_collisions_append (H : irc_h) (k : nat) :
  forall (s : str) (w : world),
    length (nick (server w)) = NICKLEN H ->
    cstr (nick (server w)) = Val s ->
    length s + k + 1 <= NICKLEN H ->
    NICKLEN H + 7 <= IRCLEN H ->
    exists w',
      nick_collisions H k w
      = Ok tt w'
          (map (fun j => Sent (lit "NICK " ++ s ++ repeat "_"%char j ++ CRLF))
               (seq 1 k)) /\
      cstr (nick (server w')) = Val (s ++ repeat "_"%char k) /\
      length (nick (server w')) = NICKLEN H /\
      channels (server w') = channels (server w) /\
      channels_set (server w') = channels_set (server w) /\
      isConnected (server w') = isConnected (server w).
Proof.
  induction k as [|k IH]; intros s w Ln Es Ls Li.
  - exists w. simpl. rewrite app_nil_r. auto 10.
  - destruct (cstr_inv _ _ Es) as [F _].
    pose proof (nick_in_use_fits H s w Ln Es ltac:(lia) ltac:(lia)) as E1.
    match type of E1 with _ = Ok _ ?x _ => set (w1 := x) in * end.
    destruct (IH (s ++ lit "_") w1) as (w' & E2 & P1 & P2 & P3 & P4 & P5).
    + apply stored_length. rewrite length_app. simpl. lia.
    + apply cstr_stored. rewrite nul_free_app, F. reflexivity.
    + rewrite length_app. simpl. lia.
    + exact Li.
    + exists w'. split; [|split; [|auto]].
      * cbn [nick_collisions].
        rewrite (bind_ok _ _ _ _ _ _ _ _ _ E1 E2).
        f_equal. cbn [seq map app]. f_equal.
        -- f_equal. now rewrite <- !app_assoc.
        -- rewrite <- (seq_shift k 1), map_map.
           apply map_ext. intros j. cbn [repeat].
           now rewrite <- !app_assoc.
      * rewrite P1. f_equal. rewrite <- app_assoc. reflexivity.
Qed.

Lemma nick_collisions_append_witness :
  exists w',
    nick_collisions sample_irc_h 3 world_abc
    = Ok tt w'
        (map (fun j => Sent (lit "NICK " ++ lit "bot" ++ repeat "_"%char j ++ CRLF))
             (seq 1 3)) /\
    cstr (nick (server w')) = Val (lit "bot" ++ repeat "_"%char 3) /\
    length (nick (server w')) = 20 /\
    channels (server w') = channels (server world_abc) /\
    channels_set (server w') = channels_set (server world_abc) /\
    isConnected (server w') = isConnected (server world_abc).
Proof.
  apply (nick_collisions_append sample_irc_h 3 (lit "bot") world_abc).
  - reflexivity.
  - reflexivity.
  - simpl. lia.
  - simpl. lia.
Defined.

(** X2: [set_nick] with a nick that fits stores it, so that the nick member
    reads back as the argument, sends one NICK command with it, and leaves
    the channel set and the connected flag alone. *)
Theorem set_nick_round_trip (H : irc_h) (s : str) (w : world) :
  length (nick (server w)) = NICKLEN H ->
  nul_free s = true ->
  length s < NICKLEN H ->
  length s + 8 <= IRCLEN H ->
  exists w',
    set_nick H s w = Ok tt w' [Sent (lit "NICK " ++ s ++ CRLF)] /\
    cstr (nick (server w')) = Val s /\
    length (nick (server w')) = NICKLEN H /\
    channels (server w') = channels (server w) /\
    channels_set (server w') = channels_set (server w) /\
    isConnected (server w') = isConnected (server w).
Proof.
  intros Ln F Ls Li. eexists. split.
  - rewrite (set_nick_stores H s w Ln F Ls).
    rewrite firstn_fits; [reflexivity|].
    repeat (rewrite ?length_app; simpl). lia.
  - cbn [server with_server nick with_nick channels channels_set isConnected].
    split; [now apply cstr_stored|]. split; [now apply stored_length|]. auto.
Qed.

Lemma set_nick_round_trip_witness :
  exists w',
    set_nick sample_irc_h (lit "fossbot") world_abc
    = Ok tt w' [Sent (lit "NICK " ++ lit "fossbot" ++ CRLF)] /\
    cstr (nick (server w')) = Val (lit "fossbot") /\
    length (nick (server w')) = 20 /\
    channels (server w') = channels (server world_abc) /\
    channels_set (server w') = channels_set (server world_abc) /\
    isConnected (server w') = isConnected (server world_abc).
Proof.
  apply (set_nick_round_trip sample_irc_h (lit "fossbot") world_abc).
  - reflexivity.
  - reflexivity.
  - simpl. lia.
  - simpl. lia.
Defined.

(** X3: [set_nick] with a nick of NICKLEN characters or more fills the
    array without a terminator, and the NICK command that follows reads
    past the end of the nick member. *)
Theorem set_nick_overlong_is_unterminated (H : irc_h) (s : str) (w : world) :
  length (nick (server w)) = NICKLEN H ->
  nul_free s = true ->
  NICKLEN H <= length s ->
  set_nick H s w = Fault Unterminated.
Proof.
  intros Ln F Ls. unfold set_nick.
  unfold bind at 1. unfold get_server at 1.
  unfold bind at 1. unfold lift at 1.
  rewrite (strncpy_overlong _ s _ Ln Ls).
  unfold bind at 1. unfold modify_server at 1.
  unfold bind at 1. unfold lift at 1.
  now rewrite (cstr_unterminated _ (nul_free_firstn (NICKLEN H) s F)).
Qed.

Lemma set_nick_overlong_is_unterminated_witness :
  set_nick sample_irc_h (lit "twenty_characters___") world_abc
  = Fault Unterminated.
Proof.
  apply (set_nick_overlong_is_unterminated sample_irc_h
           (lit "twenty_characters___") world_abc).
  - reflexivity.
  - reflexivity.
  - simpl. lia.
Defined.

(** ** Kick and rejoin, in general *)

Lemma list_set_app {A} (a b : list A) (x y : A) :
  list_set (a ++ x :: b) (length a) y = a ++ y :: b.
Proof.
  unfold list_set.
  rewrite firstn_app, firstn_all, Nat.sub_diag, app_nil_r.
  replace (S (length a)) with (length (a ++ [x]))
    by (rewrite length_app; simpl; lia).
  replace (a ++ x :: b) with ((a ++ [x]) ++ b) by (now rewrite <- app_assoc).
  rewrite skipn_app, skipn_all, Nat.sub_diag. reflexivity.
Qed.

Lemma nth_error_middle {A} (a b : list A) (x : A) :
  nth_error (a ++ x :: b) (length a) = Some x.
Proof. rewrite nth_error_app2 by lia. now rewrite Nat.sub_diag. Qed.

(** The rows of the channel set and the rows that are free. *)
Lemma recorded_rows (s : irc_type) (names : list str) :
  recorded s = map Val names ->
  channels_set s = Z.of_nat (length names) ->
  exists rows free,
    channels s = rows ++ free /\ map cstr rows = map Val names /\
    length rows = length names.
Proof.
  unfold recorded. intros R C. rewrite C, Nat2Z.id in R.
  exists (firstn (length names) (channels s)),
         (skipn (length names) (channels s)).
  split; [now rewrite firstn_skipn|]. split; [exact R|].
  apply (f_equal (@length _)) in R. now rewrite !length_map in R.
Qed.

Lemma rows_app (rows : list buffer) (a b : list str) :
  map cstr rows = map Val (a ++ b) ->
  exists ra rb,
    rows = ra ++ rb /\ map cstr ra = map Val a /\ map cstr rb = map Val b.
Proof.
  rewrite map_app. intros E. apply map_eq_app in E.
  destruct E as (ra & rb & -> & Ea & Eb). now exists ra, rb.
Qed.

Lemma rows_cons (rows : list buffer) (a : str) (b : list str) :
  map cstr rows = map Val (a :: b) ->
  exists r rb, rows = r :: rb /\ cstr r = Val a /\ map cstr rb = map Val b.
Proof.
  destruct rows as [|r rb]; [discriminate|]. simpl. intros E.
  injection E as E1 E2. now exists r, rb.
Qed.

Section KickRejoin.

Variable H : irc_h.

(** The search ends at the first row that holds the name. *)
Lemma find_channel_finds (chan : str) (w : world) (pre : list str) :
  forall (done rows : list buffer) (row : buffer) (rest : list buffer)
         (count : nat),
    length (channels (server w)) = MAXCHANS H ->
    channels (server w) = done ++ rows ++ row :: rest ->
    map cstr rows = map Val pre ->
    ~ In chan pre ->
    cstr row = Val chan ->
    length rows < count ->
    find_channel H chan count (Z.of_nat (length done)) w
    = Ok (Z.of_nat (length done + length rows)) w [].
Proof.
  induction pre as [|p pre IH]; intros done rows row rest count Lc Ec Er Ni Ew Lt.
  - destruct rows; [|discriminate]. simpl in *.
    destruct count as [|count]; [lia|]. cbn [find_channel].
    rewrite Nat.add_0_r.
    eapply ok_eq.
    + eapply bind_ok.
      * apply (channel_row_at H (length done) row w Lc).
        rewrite Ec. apply nth_error_middle.
      * cbv beta. eapply bind_ok.
        -- unfold lift, streq_member.
           destruct (cstr_inv _ _ Ew) as (F & q & ->).
           rewrite (strcmp_eq_app_nul chan chan q F F), str_eqb_refl.
           reflexivity.
        -- cbv beta iota. reflexivity.
    + reflexivity.
    + reflexivity.
  - destruct (rows_cons _ _ _ Er) as (r & rb & -> & Ep & Erb).
    destruct count as [|count]; [simpl in Lt; lia|]. cbn [find_channel].
    assert (Np : str_eqb chan p = false).
    { destruct (str_eqb chan p) eqn:E; [|reflexivity].
      apply str_eqb_eq in E. subst p. exfalso. apply Ni. now left. }
    replace (length done + length (r :: rb))
      with (length (done ++ [r]) + length rb)
      by (rewrite length_app; simpl; lia).
    eapply ok_eq.
    + eapply bind_ok.
      * apply (channel_row_at H (length done) r w Lc).
        rewrite Ec. cbn [app]. apply nth_error_middle.
      * cbv beta. eapply bind_ok.
        -- unfold lift, streq_member.
           destruct (cstr_inv _ _ Ep) as (Fp & q & ->).
           destruct (cstr_inv _ _ Ew) as (F & _).
           rewrite (strcmp_eq_app_nul chan p q F Fp), Np. reflexivity.
        -- cbv beta iota.
           replace (Z.of_nat (length done) + 1)%Z
             with (Z.of_nat (length (done ++ [r])))
             by (rewrite length_app; simpl; lia).
           apply (IH (done ++ [r]) rb row rest count Lc).
           ++ rewrite Ec. cbn [app]. now rewrite <- app_assoc.
           ++ exact Erb.
           ++ intros I. apply Ni. now right.
           ++ exact Ew.
           ++ simpl in Lt. lia.
    + reflexivity.
    + reflexivity.
Qed.

(** A name that no row holds lets the search run to the count. *)
Lemma find_channel_misses (chan : str) (w : world) (names : list str) :
  forall (done rows rest : list buffer),
    length (channels (server w)) = MAXCHANS H ->
    channels (server w) = done ++ rows ++ rest ->
    map cstr rows = map Val names ->
    ~ In chan names ->
    nul_free chan = true ->
    find_channel H chan (length rows) (Z.of_nat (length done)) w
    = Ok (Z.of_nat (length done + length rows)) w [].
Proof.
  induction names as [|p names IH]; intros done rows rest Lc Ec Er Ni F.
  - destruct rows; [|discriminate]. simpl. rewrite Nat.add_0_r. reflexivity.
  - destruct (rows_cons _ _ _ Er) as (r & rb & -> & Ep & Erb).
    cbn [length find_channel].
    assert (Np : str_eqb chan p = false).
    { destruct (str_eqb chan p) eqn:E; [|reflexivity].
      apply str_eqb_eq in E. subst p. exfalso. apply Ni. now left. }
    replace (length done + S (length rb))
      with (length (done ++ [r]) + length rb)
      by (rewrite length_app; simpl; lia).
    eapply ok_eq.
    + eapply bind_ok.
      * apply (channel_row_at H (length done) r w Lc).
        rewrite Ec. cbn [app]. apply nth_error_middle.
      * cbv beta. eapply bind_ok.
        -- unfold lift, streq_member.
           destruct (cstr_inv _ _ Ep) as (Fp & q & ->).
           rewrite (strcmp_eq_app_nul chan p q F Fp), Np. reflexivity.
        -- cbv beta iota.
           replace (Z.of_nat (length done) + 1)%Z
             with (Z.of_nat (length (done ++ [r])))
             by (rewrite length_app; simpl; lia).
           apply (IH (done ++ [r]) rb rest Lc).
           ++ rewrite Ec. cbn [app]. now rewrite <- app_assoc.
           ++ exact Erb.
           ++ intros I. apply Ni. now right.
           ++ exact F.
    + reflexivity.
    + reflexivity.
Qed.

Lemma channel_name_token (chan : str) :
  channel_name H chan = true -> chan <> [].
Proof. destruct chan; [discriminate|discriminate]. Qed.

(** A KICK of the bot runs the rejoin branch. *)
Lemma irc_kick_of_own (w : world) (kicker host chan me reason : str) :
  kick_context H w kicker chan me ->
  irc_kick H (kick_of kicker host chan me reason) w
  = kick_rejoin H kicker chan (channels_set (server w)) (with_save w reason).
Proof.
  intros (Sz & En & Nme & Sme & Sk & Cn & Sc & Li).
  destruct (cstr_inv _ _ En) as (Fme & qn & Enick).
  unfold irc_kick, kick_of. cbn [sender message].
  rewrite (null_terminate_at kicker host "!" Sk).
  unfold bind at 1. rewrite strtok_run.
  rewrite (strtok_step_token (lit " ") chan " " _ (channel_name_token _ Cn)
             (strchr_free_of _ _ Sc) eq_refl).
  cbn [fst snd].
  unfold bind at 1. rewrite strtok_run. cbn [strtok_save with_save].
  rewrite (strtok_step_token (lit " ") me " " reason Nme
             (strchr_free_of _ _ Sme) eq_refl).
  cbn [fst snd].
  rewrite (null_terminate_none me " " Sme).
  unfold bind at 1. unfold get_server at 1.
  unfold bind at 1. unfold lift at 1. unfold streq_member.
  cbn [server with_save]. rewrite Enick.
  rewrite (strcmp_eq_app_nul me me qn Fme Fme), str_eqb_refl.
  change (with_save (with_save w (me ++ " "%char :: reason)) reason)
    with (with_save w reason).
  fold (kick_rejoin H kicker chan (channels_set (server w))).
  destruct (kick_rejoin H kicker chan (channels_set (server w))
              (with_save w reason)) as [[] w' t|f]; reflexivity.
Qed.

(** The rejoin branch, once the search has come back with [i]: row [i]
    takes the name of the last live row, and the join stores the channel in
    that last row. *)
Lemma kick_rejoin_run (w : world) (kicker chan moved : str)
  (cs i : nat) (src dst : buffer) :
  sized H (server w) ->
  channel_name H chan = true ->
  length kicker + CHANLEN H + 61 <= IRCLEN H ->
  channels_set (server w) = Z.of_nat cs ->
  1 <= cs ->
  find_channel H chan cs 0%Z w = Ok (Z.of_nat i) w [] ->
  nth_error (channels (server w)) (cs - 1) = Some src ->
  cstr src = Val moved ->
  nth_error (channels (server w)) i = Some dst ->
  exists w',
    kick_rejoin H kicker chan (Z.of_nat cs) w
    = Ok tt w' (rejoin_trace (isConnected (server w)) kicker chan) /\
    channels (server w')
    = list_set (list_set (channels (server w)) i (stored (CHANLEN H) moved))
        (cs - 1) (stored (CHANLEN H) chan) /\
    channels_set (server w') = Z.of_nat cs /\
    nick (server w') = nick (server w) /\
    isConnected (server w') = isConnected (server w).
Proof.
  intros Sz Cn Li Ecs Pos Ef Esrc Em Edst.
  pose proof Sz as (Ln & Lc & Fr).
  destruct (channel_name_inv H _ Cn) as (_ & Fc & Lchan).
  assert (Lsrc : length src = CHANLEN H).
  { rewrite Forall_forall in Fr. apply Fr. eapply nth_error_In; eauto. }
  assert (Ldst : length dst = CHANLEN H).
  { rewrite Forall_forall in Fr. apply Fr. eapply nth_error_In; eauto. }
  assert (Lmoved : length moved < CHANLEN H)
    by (rewrite <- Lsrc; now apply cstr_shorter).
  destruct (cstr_inv _ _ Em) as (Fm & q & Eq).
  assert (Bi : i < MAXCHANS H)
    by (rewrite <- Lc; apply nth_error_Some; now rewrite Edst).
  assert (Bs : cs - 1 < MAXCHANS H)
    by (rewrite <- Lc; apply nth_error_Some; now rewrite Esrc).
  set (w3 := with_server w (with_channels_set (server w) (Z.of_nat (cs - 1)))).
  set (w4 := with_server w3
               (with_channels (server w3)
                  (list_set (channels (server w)) i (stored (CHANLEN H) moved)))).
  assert (Sz4 : sized H (server w4)).
  { unfold sized, w4, w3.
    cbn [server with_server nick channels with_channels with_channels_set].
    split; [exact Ln|]. split.
    - rewrite list_set_length; lia.
    - apply list_set_Forall; [exact Fr|]. now apply stored_length. }
  pose proof (join_channel_records H chan w4 Sz4 Cn) as J.
  change (channels_set (server w4)) with (Z.of_nat (cs - 1)) in J.
  change (isConnected (server w4)) with (isConnected (server w)) in J.
  change (channels (server w4))
    with (list_set (channels (server w)) i (stored (CHANLEN H) moved)) in J.
  specialize (J ltac:(lia)). rewrite Nat2Z.id in J.
  match type of J with _ = Ok _ ?x _ => set (w5 := x) in * end.
  exists w5. split.
  - unfold kick_rejoin. eapply ok_eq.
    + eapply bind_ok; [reflexivity|]. cbv beta.
      rewrite Nat2Z.id.
      eapply bind_ok; [exact Ef|].
      cbv beta.
      eapply bind_ok.
      { unfold modify_server. rewrite Ecs.
        replace (Z.of_nat cs - 1)%Z with (Z.of_nat (cs - 1)) by lia.
        reflexivity. }
      cbv beta. fold w3.
      eapply bind_ok; [reflexivity|]. cbv beta.
      eapply bind_ok.
      { change (channels_set (server w3)) with (Z.of_nat (cs - 1)).
        apply (channel_row_at H (cs - 1) src w3 Lc). exact Esrc. }
      cbv beta.
      eapply bind_ok; [apply (channel_row_at H i dst w3 Lc); exact Edst|].
      cbv beta.
      eapply bind_ok.
      { unfold lift. rewrite Eq.
        rewrite (strnread_app_nul moved q (CHANLEN H) Fm Lmoved). reflexivity. }
      cbv beta.
      eapply bind_ok.
      { unfold lift. rewrite (strncpy_fits dst moved _ Ldst Lmoved).
        fold (stored (CHANLEN H) moved). reflexivity. }
      cbv beta.
      eapply bind_ok.
      { unfold set_channel_row, modify_server. rewrite Nat2Z.id.
        change (channels (server w3)) with (channels (server w)).
        fold w4. reflexivity. }
      cbv beta.
      eapply bind_ok; [exact J|]. cbv beta.
      unfold send_message. apply irc_command_text.
      * destruct kicker; discriminate.
      * rewrite length_app. simpl. lia.
      * rewrite length_app. simpl. lia.
    + reflexivity.
    + unfold rejoin_trace. cbn [app]. f_equal.
      destruct (isConnected (server w)); cbn [app].
      * rewrite firstn_fits; [now rewrite <- !app_assoc|].
        repeat (rewrite ?length_app; simpl). lia.
      * now rewrite <- !app_assoc.
  - unfold w5.
    cbn [server with_server channels with_channels channels_set
         with_channels_set nick isConnected].
    split; [reflexivity|]. split; [lia|]. split; reflexivity.
Qed.

End KickRejoin.

Lemma rows_length (rows : list buffer) (names : list str) :
  map cstr rows = map Val names -> length rows = length names.
Proof.
  intros E. apply (f_equal (@length _)) in E. now rewrite !length_map in E.
Qed.

Lemma firstn_exact {A} (a b : list A) : firstn (length a) (a ++ b) = a.
Proof. now rewrite firstn_app, firstn_all, Nat.sub_diag, app_nil_r. Qed.

(** X4: a KICK of the bot from a recorded channel that is not the last one
    keeps the number of channels: the last channel takes the place of the
    kicked one, the kicked one is recorded again at the end, a JOIN for it
    goes out if the connection is connected, and the kicker gets the
    message. *)
Theorem kick_rejoin_reorders
  (H : irc_h) (w : world) (kicker host chan me reason : str)
  (pre mid : list str) (lst : str) :
  kick_context H w kicker chan me ->
  recorded (server w) = map Val (pre ++ chan :: mid ++ [lst]) ->
  channels_set (server w) = Z.of_nat (length (pre ++ chan :: mid ++ [lst])) ->
  ~ In chan pre ->
  exists w',
    irc_kick H (kick_of kicker host chan me reason) w
    = Ok tt w' (rejoin_trace (isConnected (server w)) kicker chan) /\
    channels_set (server w') = channels_set (server w) /\
    recorded (server w') = map Val (pre ++ lst :: mid ++ [chan]).
Proof.
  intros K R Ecs Ni.
  rewrite (irc_kick_of_own H w kicker host chan me reason K).
  destruct K as (Sz & _ & _ & _ & _ & Cn & _ & Li).
  destruct (channel_name_inv H _ Cn) as (_ & Fc & _).
  destruct (recorded_rows _ _ R Ecs) as (rows & free & Ec & Er & Lr).
  destruct (rows_app _ _ _ Er) as (rp & r2 & -> & Erp & Er2).
  destruct (rows_cons _ _ _ Er2) as (rc & r3 & -> & Erc & Er3).
  destruct (rows_app _ _ _ Er3) as (rm & rl' & -> & Erm & Erl).
  destruct (rows_cons _ _ _ Erl) as (rl & r4 & -> & Erl1 & Er4).
  destruct r4; [|discriminate].
  pose proof (rows_length _ _ Erp) as Lp.
  pose proof (rows_length _ _ Erm) as Lm.
  set (cs := length (pre ++ chan :: mid ++ [lst])) in *.
  assert (Ecs' : cs = S (length (rp ++ rc :: rm)))
    by (unfold cs; repeat (rewrite ?length_app; simpl); lia).
  assert (Ech : channels (server w) = (rp ++ rc :: rm) ++ rl :: free)
    by (rewrite Ec; repeat (rewrite <- ?app_assoc; cbn [app]); reflexivity).
  assert (Lc : length (channels (server w)) = MAXCHANS H) by apply Sz.
  destruct (kick_rejoin_run H (with_save w reason) kicker chan lst cs
              (length rp) rl rc Sz Cn Li Ecs ltac:(lia))
    as (w' & E & Pc & Ps & _ & _).
  - apply (find_channel_finds H chan (with_save w reason) pre [] rp rc
             (rm ++ rl :: free) cs Lc); auto.
    + cbn [server with_save app]. rewrite Ech. now rewrite <- app_assoc.
    + rewrite Ecs', length_app. simpl. lia.
  - cbn [server with_save]. rewrite Ech, Ecs'.
    replace (S (length (rp ++ rc :: rm)) - 1) with (length (rp ++ rc :: rm))
      by lia.
    apply nth_error_middle.
  - exact Erl1.
  - cbn [server with_save]. rewrite Ech, <- app_assoc. apply nth_error_middle.
  - exists w'. rewrite Ecs in *. split; [exact E|]. split; [exact Ps|].
    unfold recorded. rewrite Ps, Pc, Nat2Z.id. cbn [server with_save].
    rewrite Ech, <- app_assoc. cbn [app]. rewrite list_set_app.
    replace (rp ++ stored (CHANLEN H) lst :: rm ++ rl :: free)
      with ((rp ++ stored (CHANLEN H) lst :: rm) ++ rl :: free)
      by (now rewrite <- app_assoc).
    replace (cs - 1) with (length (rp ++ stored (CHANLEN H) lst :: rm))
      by (rewrite Ecs'; repeat (rewrite ?length_app; simpl); lia).
    rewrite list_set_app.
    replace ((rp ++ stored (CHANLEN H) lst :: rm)
             ++ stored (CHANLEN H) chan :: free)
      with (((rp ++ stored (CHANLEN H) lst :: rm) ++ [stored (CHANLEN H) chan])
            ++ free)
      by (now rewrite <- !app_assoc).
    replace cs
      with (length ((rp ++ stored (CHANLEN H) lst :: rm)
                    ++ [stored (CHANLEN H) chan]))
      by (rewrite Ecs'; repeat (rewrite ?length_app; simpl); lia).
    rewrite firstn_exact.
    rewrite !map_app. cbn [map]. rewrite !map_app. cbn [map].
    rewrite Erp, Erm.
    rewrite (cstr_stored _ _ Fc).
    destruct (cstr_inv _ _ Erl1) as (Fl & _).
    rewrite (cstr_stored _ _ Fl). now rewrite <- !app_assoc.
Qed.

Lemma kick_context_world_full :
  kick_context sample_irc_h world_full (lit "kicker") (lit "#b") (lit "bot").
Proof.
  unfold kick_context, sized. simpl.
  repeat split; try reflexivity; try discriminate; try lia.
  repeat constructor.
Qed.

Lemma kick_rejoin_reorders_witness :
  exists w',
    irc_kick sample_irc_h
      (kick_of (lit "kicker") (lit "~k@example.org") (lit "#b") (lit "bot")
         (lit ":bye")) world_full
    = Ok tt w' (rejoin_trace true (lit "kicker") (lit "#b")) /\
    channels_set (server w') = 5%Z /\
    recorded (server w')
    = map Val ([lit "#a"] ++ lit "#e" :: [lit "#c"; lit "#d"] ++ [lit "#b"]).
Proof.
  apply (kick_rejoin_reorders sample_irc_h world_full (lit "kicker")
           (lit "~k@example.org") (lit "#b") (lit "bot") (lit ":bye")
           [lit "#a"] [lit "#c"; lit "#d"] (lit "#e")).
  - exact kick_context_world_full.
  - reflexivity.
  - reflexivity.
  - intros [E|[]]. discriminate E.
Defined.

(** X5: a KICK of the bot from the channel recorded last leaves the channel
    set as it was, names and order; the JOIN and the message go out as for
    any other kick. *)
Theorem kick_rejoin_of_last_channel
  (H : irc_h) (w : world) (kicker host chan me reason : str)
  (pre : list str) :
  kick_context H w kicker chan me ->
  recorded (server w) = map Val (pre ++ [chan]) ->
  channels_set (server w) = Z.of_nat (length (pre ++ [chan])) ->
  ~ In chan pre ->
  exists w',
    irc_kick H (kick_of kicker host chan me reason) w
    = Ok tt w' (rejoin_trace (isConnected (server w)) kicker chan) /\
    channels_set (server w') = channels_set (server w) /\
    recorded (server w') = recorded (server w).
Proof.
  intros K R Ecs Ni.
  rewrite (irc_kick_of_own H w kicker host chan me reason K).
  destruct K as (Sz & _ & _ & _ & _ & Cn & _ & Li).
  destruct (channel_name_inv H _ Cn) as (_ & Fc & _).
  destruct (recorded_rows _ _ R Ecs) as (rows & free & Ec & Er & Lr).
  destruct (rows_app _ _ _ Er) as (rp & r2 & -> & Erp & Er2).
  destruct (rows_cons _ _ _ Er2) as (rc & r3 & -> & Erc & Er3).
  destruct r3; [|discriminate].
  pose proof (rows_length _ _ Erp) as Lp.
  set (cs := length (pre ++ [chan])) in *.
  assert (Ecs' : cs = S (length rp))
    by (unfold cs; rewrite length_app; simpl; lia).
  assert (Ech : channels (server w) = rp ++ rc :: free)
    by (rewrite Ec, <- app_assoc; reflexivity).
  assert (Lc : length (channels (server w)) = MAXCHANS H) by apply Sz.
  destruct (kick_rejoin_run H (with_save w reason) kicker chan chan cs
              (length rp) rc rc Sz Cn Li Ecs ltac:(lia))
    as (w' & E & Pc & Ps & _ & _).
  - apply (find_channel_finds H chan (with_save w reason) pre [] rp rc
             free cs Lc); auto.
    lia.
  - cbn [server with_save]. rewrite Ech, Ecs'.
    replace (S (length rp) - 1) with (length rp) by lia.
    apply nth_error_middle.
  - exact Erc.
  - cbn [server with_save]. rewrite Ech. apply nth_error_middle.
  - exists w'. rewrite Ecs. split; [exact E|]. split; [exact Ps|].
    rewrite R. unfold recorded. rewrite Ps, Pc, Nat2Z.id.
    cbn [server with_save].
    rewrite Ech, list_set_app.
    replace (cs - 1) with (length rp) by lia.
    rewrite list_set_app.
    replace (rp ++ stored (CHANLEN H) chan :: free)
      with ((rp ++ [stored (CHANLEN H) chan]) ++ free)
      by (now rewrite <- app_assoc).
    replace cs with (length (rp ++ [stored (CHANLEN H) chan]))
      by (rewrite Ecs', length_app; simpl; lia).
    rewrite firstn_exact, !map_app. cbn [map].
    now rewrite Erp, (cstr_stored _ _ Fc).
Qed.

Lemma kick_context_world_abc (chan : str) :
  channel_name sample_irc_h chan = true -> strchr chan " " = false ->
  kick_context sample_irc_h world_abc (lit "kicker") chan (lit "bot").
Proof.
  intros Cn Sc. unfold kick_context, sized. simpl.
  repeat split; try reflexivity; try discriminate; try assumption; try lia.
  repeat constructor.
Qed.

Lemma kick_rejoin_of_last_channel_witness :
  exists w',
    irc_kick sample_irc_h
      (kick_of (lit "kicker") (lit "~k@example.org") (lit "#c") (lit "bot")
         (lit ":bye")) world_abc
    = Ok tt w' (rejoin_trace true (lit "kicker") (lit "#c")) /\
    channels_set (server w') = 3%Z /\
    recorded (server w') = recorded (server world_abc).
Proof.
  apply (kick_rejoin_of_last_channel sample_irc_h world_abc (lit "kicker")
           (lit "~k@example.org") (lit "#c") (lit "bot") (lit ":bye")
           [lit "#a"; lit "#b"]).
  - apply kick_context_world_abc; reflexivity.
  - reflexivity.
  - reflexivity.
  - intros [E|[E|[]]]; discriminate E.
Defined.

(** X6: a KICK of the bot from a channel that is not recorded, with the
    channel set neither empty nor full, overwrites the channel recorded last
    with the channel of the KICK: that channel is no longer in the set. *)
Theorem kick_from_unrecorded_channel_replaces_last
  (H : irc_h) (w : world) (kicker host chan me reason : str)
  (init : list str) (lst : str) :
  kick_context H w kicker chan me ->
  recorded (server w) = map Val (init ++ [lst]) ->
  channels_set (server w) = Z.of_nat (length (init ++ [lst])) ->
  length (init ++ [lst]) < MAXCHANS H ->
  ~ In chan (init ++ [lst]) ->
  exists w',
    irc_kick H (kick_of kicker host chan me reason) w
    = Ok tt w' (rejoin_trace (isConnected (server w)) kicker chan) /\
    channels_set (server w') = channels_set (server w) /\
    recorded (server w') = map Val (init ++ [chan]).
Proof.
  intros K R Ecs Room Ni.
  rewrite (irc_kick_of_own H w kicker host chan me reason K).
  destruct K as (Sz & _ & _ & _ & _ & Cn & _ & Li).
  destruct (channel_name_inv H _ Cn) as (_ & Fc & _).
  destruct (recorded_rows _ _ R Ecs) as (rows & free & Ec & Er & Lr).
  assert (Lc : length (channels (server w)) = MAXCHANS H) by apply Sz.
  destruct free as [|f0 free].
  { rewrite Ec, app_nil_r in Lc. lia. }
  pose proof Er as Er'.
  destruct (rows_app _ _ _ Er) as (ri & r2 & -> & Eri & Er2).
  destruct (rows_cons _ _ _ Er2) as (rl & r3 & -> & Erl & Er3).
  destruct r3; [|discriminate].
  pose proof (rows_length _ _ Eri) as Lri.
  set (cs := length (init ++ [lst])) in *.
  assert (Ecs' : cs = length (ri ++ [rl])) by (symmetry; exact Lr).
  destruct (kick_rejoin_run H (with_save w reason) kicker chan lst cs
              cs rl f0 Sz Cn Li Ecs)
    as (w' & E & Pc & Ps & _ & _).
  - unfold cs. rewrite length_app. simpl. lia.
  - rewrite Ecs'.
    apply (find_channel_misses H chan (with_save w reason) (init ++ [lst])
             [] (ri ++ [rl]) (f0 :: free) Lc); auto.
  - cbn [server with_save]. rewrite Ec, <- app_assoc. cbn [app].
    replace (cs - 1) with (length ri)
      by (rewrite Ecs', length_app; simpl; lia).
    apply nth_error_middle.
  - exact Erl.
  - cbn [server with_save]. rewrite Ec, Ecs'. apply nth_error_middle.
  - exists w'. rewrite Ecs. split; [exact E|]. split; [exact Ps|].
    unfold recorded. rewrite Ps, Pc, Nat2Z.id. cbn [server with_save].
    replace (list_set (channels (server w)) cs (stored (CHANLEN H) lst))
      with ((ri ++ [rl]) ++ stored (CHANLEN H) lst :: free)
      by (rewrite Ec, Ecs'; symmetry; apply list_set_app).
    rewrite <- app_assoc. cbn [app].
    replace (cs - 1) with (length ri)
      by (rewrite Ecs', length_app; simpl; lia).
    rewrite list_set_app.
    replace (ri ++ stored (CHANLEN H) chan :: stored (CHANLEN H) lst :: free)
      with ((ri ++ [stored (CHANLEN H) chan])
            ++ stored (CHANLEN H) lst :: free)
      by (now rewrite <- app_assoc).
    replace cs with (length (ri ++ [stored (CHANLEN H) chan]))
      by (rewrite Ecs', !length_app; reflexivity).
    rewrite firstn_exact, !map_app. cbn [map].
    now rewrite Eri, (cstr_stored _ _ Fc).
Qed.

Lemma kick_from_unrecorded_channel_replaces_last_witness :
  exists w',
    irc_kick sample_irc_h
      (kick_of (lit "kicker") (lit "~k@example.org") (lit "#zz") (lit "bot")
         (lit ":bye")) world_abc
    = Ok tt w' (rejoin_trace true (lit "kicker") (lit "#zz")) /\
    channels_set (server w') = 3%Z /\
    recorded (server w') = map Val ([lit "#a"; lit "#b"] ++ [lit "#zz"]).
Proof.
  apply (kick_from_unrecorded_channel_replaces_last sample_irc_h world_abc
           (lit "kicker") (lit "~k@example.org") (lit "#zz") (lit "bot")
           (lit ":bye") [lit "#a"; lit "#b"] (lit "#c")).
  - apply kick_context_world_abc; reflexivity.
  - reflexivity.
  - reflexivity.
  - simpl. lia.
  - intros [E|[E|[E|[]]]]; discriminate E.
Defined.

Lemma channel_row_outside (H : irc_h) (i : Z) (w : world) :
  ~ (0 <= i < Z.of_nat (MAXCHANS H))%Z ->
  channel_row H i w = Fault OutOfBounds.
Proof.
  intros B. unfold channel_row, bind, get_server.
  destruct ((0 <=? i) && (i <? Z.of_nat (MAXCHANS H)))%Z eqn:E;
    [|reflexivity].
  apply andb_true_iff in E as [E1 E2].
  apply Z.leb_le in E1. apply Z.ltb_lt in E2. lia.
Qed.

(** X7: a KICK of the bot from a channel that is not recorded, when the
    channel set is empty or full, makes the swap address a row outside the
    channel table. *)
Theorem kick_from_unrecorded_channel_leaves_table
  (H : irc_h) (w : world) (kicker host chan me reason : str)
  (names : list str) :
  kick_context H w kicker chan me ->
  recorded (server w) = map Val names ->
  channels_set (server w) = Z.of_nat (length names) ->
  ~ In chan names ->
  length names = 0 \/ length names = MAXCHANS H ->
  irc_kick H (kick_of kicker host chan me reason) w = Fault OutOfBounds.
Proof.
  intros K R Ecs Ni Edge.
  rewrite (irc_kick_of_own H w kicker host chan me reason K).
  destruct K as (Sz & _ & _ & _ & _ & Cn & _ & Li).
  destruct (channel_name_inv H _ Cn) as (_ & Fc & _).
  assert (Lc : length (channels (server w)) = MAXCHANS H) by apply Sz.
  rewrite Ecs. unfold kick_rejoin. rewrite Nat2Z.id.
  eapply bind_ok_fault; [reflexivity|]. cbv beta.
  destruct names as [|n0 names'].
  - (* empty set: the last live row would be row -1 *)
    eapply bind_ok_fault; [reflexivity|]. cbv beta.
    eapply bind_ok_fault; [reflexivity|]. cbv beta.
    eapply bind_ok_fault; [reflexivity|]. cbv beta.
    apply bind_fault. apply channel_row_outside.
    cbn [server with_server with_save channels_set with_channels_set].
    rewrite Ecs. simpl. lia.
  - (* full set: the search ends at row MAXCHANS *)
    destruct Edge as [Edge|Edge]; [discriminate|].
    set (names := n0 :: names') in *.
    assert (Pos : 1 <= length names) by (unfold names; simpl; lia).
    destruct (recorded_rows _ _ R Ecs) as (rows & free & Ec & Er & Lr).
    assert (free = []) as ->.
    { destruct free; [reflexivity|]. rewrite Ec, length_app in Lc.
      simpl in Lc. lia. }
    rewrite app_nil_r in Ec.
    assert (Ex : exists src, nth_error (channels (server w))
                               (length names - 1) = Some src).
    { destruct (nth_error (channels (server w)) (length names - 1)) eqn:E;
        [eauto|].
      apply nth_error_None in E. lia. }
    destruct Ex as (src & Esrc).
    eapply bind_ok_fault.
    { rewrite <- Lr.
      apply (find_channel_misses H chan (with_save w reason) names
               [] rows [] Lc); auto.
      cbn [server with_save app]. now rewrite app_nil_r. }
    cbv beta.
    eapply bind_ok_fault; [reflexivity|]. cbv beta.
    eapply bind_ok_fault; [reflexivity|]. cbv beta.
    eapply bind_ok_fault.
    { cbn [server with_server with_save channels_set with_channels_set].
      rewrite Ecs.
      replace (Z.of_nat (length names) - 1)%Z
        with (Z.of_nat (length names - 1)) by lia.
      apply channel_row_at; [exact Lc|exact Esrc]. }
    cbv beta.
    apply bind_fault. apply channel_row_outside.
    cbn [length app]. rewrite Lr, Edge. lia.
Qed.

Lemma kick_from_unrecorded_channel_leaves_table_witness :
  irc_kick sample_irc_h
    (kick_of (lit "kicker") (lit "~k@example.org") (lit "#b") (lit "bot")
       (lit ":bye"))
    (with_server world_abc (with_channels_set (server world_abc) 0%Z))
  = Fault OutOfBounds.
Proof.
  apply (kick_from_unrecorded_channel_leaves_table sample_irc_h
           (with_server world_abc (with_channels_set (server world_abc) 0%Z))
           (lit "kicker") (lit "~k@example.org") (lit "#b") (lit "bot")
           (lit ":bye") []).
  - apply (kick_context_world_abc (lit "#b")); reflexivity.
  - reflexivity.
  - reflexivity.
  - intros [].
  - left. reflexivity.
Defined.

(** X8: a KICK whose victim is not the bot changes nothing on the
    connection and sends nothing. *)
Theorem kick_of_someone_else_is_ignored
  (H : irc_h) (w : world) (kicker host chan victim me reason : str) :
  cstr (nick (server w)) = Val me ->
  strchr kicker "!" = false ->
  chan <> [] -> strchr chan " " = false ->
  victim <> [] -> strchr victim " " = false -> nul_free victim = true ->
  victim <> me ->
  irc_kick H (kick_of kicker host chan victim reason) w
  = Ok tt (with_save w reason) [].
Proof.
  intros En Sk Nc Sc Nv Sv Fv D.
  destruct (cstr_inv _ _ En) as (Fme & qn & Enick).
  unfold irc_kick, kick_of. cbn [sender message].
  rewrite (null_terminate_at kicker host "!" Sk).
  unfold bind at 1. rewrite strtok_run.
  rewrite (strtok_step_token (lit " ") chan " " _ Nc
             (strchr_free_of _ _ Sc) eq_refl).
  cbn [fst snd].
  unfold bind at 1. rewrite strtok_run. cbn [strtok_save with_save].
  rewrite (strtok_step_token (lit " ") victim " " reason Nv
             (strchr_free_of _ _ Sv) eq_refl).
  cbn [fst snd].
  rewrite (null_terminate_none victim " " Sv).
  unfold bind at 1. unfold get_server at 1.
  unfold bind at 1. unfold lift at 1. unfold streq_member.
  cbn [server with_save]. rewrite Enick.
  rewrite (strcmp_eq_app_nul victim me qn Fv Fme).
  replace (str_eqb victim me) with false; [reflexivity|].
  symmetry. destruct (str_eqb victim me) eqn:E; [|reflexivity].
  apply str_eqb_eq in E. contradiction.
Qed.

Lemma kick_of_someone_else_is_ignored_witness :
  irc_kick sample_irc_h
    (kick_of (lit "kicker") (lit "~k@example.org") (lit "#b") (lit "alice")
       (lit ":bye")) world_abc
  = Ok tt (with_save world_abc (lit ":bye")) [].
Proof.
  apply (kick_of_someone_else_is_ignored sample_irc_h world_abc (lit "kicker")
           (lit "~k@example.org") (lit "#b") (lit "alice") (lit "bot")
           (lit ":bye")); try reflexivity; discriminate.
Defined.

(** ** Over-long channel names *)

(** X9: [join_channel] with a name of CHANLEN characters or more fills the
    row without a terminator.  A connected connection then reads past the
    row for the JOIN; one that is not connected records an entry that
    cannot be read back, to be met by the replay after the MOTD. *)
Theorem join_channel_overlong_is_unterminated
  (H : irc_h) (rest : str) (w : world) :
  sized H (server w) ->
  nul_free ("#"%char :: rest) = true ->
  CHANLEN H <= length ("#"%char :: rest) ->
  (0 <= channels_set (server w) < Z.of_nat (MAXCHANS H))%Z ->
  (isConnected (server w) = true ->
   join_channel H (Some ("#"%char :: rest)) w = Fault Unterminated) /\
  (isConnected (server w) = false ->
   exists w',
     join_channel H (Some ("#"%char :: rest)) w = Ok 1%Z w' [] /\
     channels_set (server w') = (channels_set (server w) + 1)%Z /\
     recorded (server w') = recorded (server w) ++ [Err Unterminated]).
Proof.
  intros (Ln & Lc & Fr) F Lname B.
  set (name := "#"%char :: rest) in *.
  set (j := Z.to_nat (channels_set (server w))).
  assert (Ej : channels_set (server w) = Z.of_nat j) by (unfold j; lia).
  assert (Lj : j < length (channels (server w))) by lia.
  destruct (nth_error (channels (server w)) j) as [row|] eqn:Er;
    [|apply nth_error_None in Er; lia].
  assert (Lrow : length row = CHANLEN H).
  { rewrite Forall_forall in Fr. apply Fr. eapply nth_error_In; eauto. }
  set (w1 := with_server w
               (with_channels (server w)
                  (list_set (channels (server w)) j
                     (firstn (CHANLEN H) name)))).
  set (w2 := with_server w1
               (with_channels_set (server w1) (channels_set (server w) + 1)%Z)).
  assert (Un : cstr (firstn (CHANLEN H) name) = Err Unterminated)
    by (apply cstr_unterminated; now apply nul_free_firstn).
  assert (E : join_channel H (Some name) w
              = if isConnected (server w) then Fault Unterminated
                else Ok 1%Z w2 []).
  { unfold join_channel. subst name.
    unfold bind at 1. unfold ret at 1.
    unfold bind at 1. unfold get_server at 1.
    replace (channels_set (server w) =? Z.of_nat (MAXCHANS H))%Z with false
      by (symmetry; apply Z.eqb_neq; lia).
    unfold bind at 1. rewrite Ej at 1. rewrite (channel_row_at H j row w Lc Er).
    unfold bind at 1. unfold lift at 1.
    rewrite (strncpy_overlong row _ _ Lrow Lname).
    unfold bind at 1. unfold set_channel_row, modify_server at 1.
    unfold bind at 1. unfold modify_server at 1.
    unfold bind at 1. unfold bind at 1. unfold get_server at 1.
    cbn [server with_server channels with_channels channels_set
         with_channels_set isConnected].
    fold j. destruct (isConnected (server w)); [|reflexivity].
    unfold bind at 1.
    replace (channels_set (server w) + 1 - 1)%Z with (Z.of_nat j) by lia.
    rewrite (channel_row_at H j (firstn (CHANLEN H) ("#"%char :: rest))).
    - unfold bind at 1. unfold lift at 1. now rewrite Un.
    - cbn [server with_server channels with_channels with_channels_set].
      rewrite list_set_length; lia.
    - cbn [server with_server channels with_channels with_channels_set].
      unfold list_set. rewrite nth_error_app2; rewrite length_firstn.
      + replace (j - Nat.min j (length (channels (server w)))) with 0 by lia.
        reflexivity.
      + lia. }
  split; intros C; rewrite C in E; [exact E|].
  exists w2. split; [exact E|]. split; [reflexivity|].
  unfold recorded, w2, w1.
  cbn [server with_server channels with_channels channels_set
       with_channels_set].
  replace (Z.to_nat (channels_set (server w) + 1)) with (S j) by lia.
  fold j. rewrite firstn_list_set_last by lia.
  rewrite map_app. simpl map. now rewrite Un.
Qed.

Lemma join_channel_overlong_is_unterminated_witness :
  (isConnected (server world_abc) = true ->
   join_channel sample_irc_h (Some ("#"%char :: repeat "x"%char 49)) world_abc
   = Fault Unterminated) /\
  (isConnected (server world_abc) = false ->
   exists w',
     join_channel sample_irc_h (Some ("#"%char :: repeat "x"%char 49)) world_abc
     = Ok 1%Z w' [] /\
     channels_set (server w') = (channels_set (server world_abc) + 1)%Z /\
     recorded (server w') = recorded (server world_abc) ++ [Err Unterminated]).
Proof.
  apply (join_channel_overlong_is_unterminated sample_irc_h
           (repeat "x"%char 49) world_abc).
  - repeat split. repeat constructor.
  - reflexivity.
  - simpl. lia.
  - simpl. lia.
Defined.

(** ** Notices of NickServ *)

(** The NOTICE handler on a message of the usual form: what is left is the
    choice on the sender and on the text. *)
Lemma irc_notice_of (H : irc_h) (from host tgt text : str) (w : world) :
  strchr from "!" = false -> tgt <> [] -> free_of (lit " ") tgt = true ->
  irc_notice H (notice_of from host tgt text) w
  = (if negb (streq from (lit "NickServ")) then ret tt
     else
       match strstr text (lit "ACC") with
       | Some test =>
           if Nat.ltb (length test) 4 then fail PastTerminator
           else emit (PipeWritten (atoi (skipn 4 test)))
       | None =>
           if starts_with text (lit "This nickname is registered") then
             w <- get_world ;;
             send_message H from (lit "identify " ++ nick_password w) ;;
             modify_world (fun w => with_password w [])
           else ret tt
       end) (with_save w []).
Proof.
  intros Nf Nt Ft. unfold irc_notice, notice_of. cbn [sender message].
  rewrite (null_terminate_at from host "!" Nf).
  unfold bind at 1. rewrite strtok_run.
  rewrite (strtok_step_token (lit " ") tgt " " _ Nt Ft eq_refl).
  cbn [fst snd].
  unfold bind at 1. rewrite strtok_run. cbn [strtok_save with_save].
  rewrite (strtok_step_rest (":"%char :: text)) by discriminate.
  cbn [fst snd tl].
  change (with_save (with_save w _) []) with (with_save w []).
  match goal with
  | |- match match ?m with _ => _ end with _ => _ end = _ =>
      destruct m as [a w' t|f]; reflexivity
  end.
Qed.

(** X10: NickServ's prompt "This nickname is registered..." is answered with
    ["identify <password>"] in a PRIVMSG to NickServ, and the stored password
    is wiped: a second prompt is answered with an empty password. *)
Theorem nickserv_prompt_is_answered_once
  (H : irc_h) (host tgt text : str) (w : world) :
  tgt <> [] -> free_of (lit " ") tgt = true ->
  strstr text (lit "ACC") = None ->
  starts_with text (lit "This nickname is registered") = true ->
  length (nick_password w) + 60 <= IRCLEN H ->
  let w' := with_password (with_save w []) [] in
  irc_notice H (notice_of (lit "NickServ") host tgt text) w
  = Ok tt w'
      [Sent (lit "PRIVMSG NickServ :identify " ++ nick_password w ++ CRLF)] /\
  irc_notice H (notice_of (lit "NickServ") host tgt text) w'
  = Ok tt w' [Sent (lit "PRIVMSG NickServ :identify " ++ CRLF)].
Proof.
  intros Nt Ft NA P L w'.
  assert (Step : forall v : world,
            length (nick_password v) + 60 <= IRCLEN H ->
            irc_notice H (notice_of (lit "NickServ") host tgt text) v
            = Ok tt (with_password (with_save v []) [])
                [Sent (lit "PRIVMSG NickServ :identify " ++ nick_password v
                         ++ CRLF)]).
  { intros v Lv.
    rewrite (irc_notice_of H (lit "NickServ") host tgt text v eq_refl Nt Ft).
    change (negb (streq (lit "NickServ") (lit "NickServ"))) with false.
    cbv iota. rewrite NA, P.
    unfold bind at 1. unfold get_world at 1. cbv beta iota.
    unfold bind at 1. unfold send_message.
    rewrite (irc_command_text H (lit "PRIVMSG") (lit "NickServ")
               (lit "identify " ++ nick_password (with_save v [])));
      [reflexivity|discriminate| |];
      rewrite length_app; cbn [nick_password with_save]; simpl; lia. }
  split.
  - apply Step, L.
  - rewrite Step; [reflexivity|]. simpl. lia.
Qed.

Lemma nickserv_prompt_is_answered_once_witness :
  let w' := with_password (with_save world_abc []) [] in
  irc_notice sample_irc_h
    (notice_of (lit "NickServ") (lit "NickServ@services.") (lit "bot")
       (lit "This nickname is registered. Please choose a different nickname"))
    world_abc
  = Ok tt w'
      [Sent (lit "PRIVMSG NickServ :identify " ++ nick_password world_abc
               ++ CRLF)] /\
  irc_notice sample_irc_h
    (notice_of (lit "NickServ") (lit "NickServ@services.") (lit "bot")
       (lit "This nickname is registered. Please choose a different nickname"))
    w'
  = Ok tt w' [Sent (lit "PRIVMSG NickServ :identify " ++ CRLF)].
Proof.
  apply (nickserv_prompt_is_answered_once sample_irc_h
           (lit "NickServ@services.") (lit "bot")
           (lit "This nickname is registered. Please choose a different nickname")
           world_abc).
  - discriminate.
  - reflexivity.
  - reflexivity.
  - reflexivity.
  - simpl. lia.
Defined.

(** X11: when NickServ's notice has ["ACC"] in it, followed by one more
    character and the level, the handler writes [atoi] of the level to the
    pipe and sends nothing; the character between is not looked at. *)
Theorem nickserv_acc_level_is_written
  (H : irc_h) (host tgt text level : str) (sep : ascii) (w : world) :
  tgt <> [] -> free_of (lit " ") tgt = true ->
  strstr text (lit "ACC") = Some (lit "ACC" ++ sep :: level) ->
  irc_notice H (notice_of (lit "NickServ") host tgt text) w
  = Ok tt (with_save w []) [PipeWritten (atoi level)].
Proof.
  intros Nt Ft E.
  rewrite (irc_notice_of H (lit "NickServ") host tgt text w eq_refl Nt Ft).
  change (negb (streq (lit "NickServ") (lit "NickServ"))) with false.
  cbv iota. rewrite E. reflexivity.
Qed.

Lemma nickserv_acc_level_is_written_witness :
  irc_notice sample_irc_h
    (notice_of (lit "NickServ") (lit "NickServ@services.") (lit "bot")
       (lit "alice ACC 3"))
    world_abc
  = Ok tt (with_save world_abc []) [PipeWritten (atoi (lit "3"))].
Proof.
  apply (nickserv_acc_level_is_written sample_irc_h
           (lit "NickServ@services.") (lit "bot") (lit "alice ACC 3")
           (lit "3") " " world_abc).
  - discriminate.
  - reflexivity.
  - reflexivity.
Defined.

(** X12: when NickServ's notice ends with ["ACC"], the level is read from
    behind the terminator of the message. *)
Theorem nickserv_acc_at_the_end_reads_past_the_message
  (H : irc_h) (host tgt text : str) (w : world) :
  tgt <> [] -> free_of (lit " ") tgt = true ->
  strstr text (lit "ACC") = Some (lit "ACC") ->
  irc_notice H (notice_of (lit "NickServ") host tgt text) w
  = Fault PastTerminator.
Proof.
  intros Nt Ft E.
  rewrite (irc_notice_of H (lit "NickServ") host tgt text w eq_refl Nt Ft).
  change (negb (streq (lit "NickServ") (lit "NickServ"))) with false.
  cbv iota. rewrite E. reflexivity.
Qed.

Lemma nickserv_acc_at_the_end_reads_past_the_message_witness :
  irc_notice sample_irc_h
    (notice_of (lit "NickServ") (lit "NickServ@services.") (lit "bot")
       (lit "Syntax: ACC"))
    world_abc
  = Fault PastTerminator.
Proof.
  apply (nickserv_acc_at_the_end_reads_past_the_message sample_irc_h
           (lit "NickServ@services.") (lit "bot") (lit "Syntax: ACC")
           world_abc).
  - discriminate.
  - reflexivity.
  - reflexivity.
Defined.

(** X13: a notice of anyone but NickServ changes nothing but the saved
    pointer of [strtok]: nothing is sent or written, the connection and the
    password stay as they were. *)
Theorem notice_of_others_is_ignored
  (H : irc_h) (from host : str) (msg : option str) (w : world) :
  strchr from "!" = false -> from <> lit "NickServ" ->
  exists w',
    irc_notice H {| sender := from ++ "!"%char :: host; command := lit "NOTICE";
                    message := msg; target := None |} w
    = Ok tt w' [] /\
    server w' = server w /\ nick_password w' = nick_password w /\
    bot_version w' = bot_version w.
Proof.
  intros Nf Ne. unfold irc_notice. cbn [sender message].
  rewrite (null_terminate_at from host "!" Nf).
  assert (S : streq from (lit "NickServ") = false).
  { unfold streq. destruct (str_eqb from (lit "NickServ")) eqn:E; [|reflexivity].
    apply str_eqb_eq in E. contradiction. }
  rewrite S. cbn [negb].
  unfold bind at 1. rewrite strtok_run.
  destruct (fst (strtok_step _ (lit " "))) as [t1|].
  - unfold bind at 1. rewrite strtok_run.
    destruct (fst (strtok_step _ [])) as [t2|];
      (eexists; split; [reflexivity|auto]).
  - eexists. split; [reflexivity|auto].
Qed.

Lemma notice_of_others_is_ignored_witness :
  exists w',
    irc_notice sample_irc_h
      {| sender := lit "mallory" ++ "!"%char :: lit "~m@example.org";
         command := lit "NOTICE";
         message := Some (lit "bot :This nickname is registered");
         target := None |} world_abc
    = Ok tt w' [] /\
    server w' = server world_abc /\
    nick_password w' = nick_password world_abc /\
    bot_version w' = bot_version world_abc.
Proof.
  apply (notice_of_others_is_ignored sample_irc_h (lit "mallory")
           (lit "~m@example.org") (Some (lit "bot :This nickname is registered"))
           world_abc).
  - reflexivity.
  - discriminate.
Defined.

(** ** The identity query and the pipe *)

Lemma to_N_byte_of_Z (z : Z) :
  Z.of_N (Byte.to_N (byte_of_Z z)) = (z mod 256)%Z.
Proof.
  unfold byte_of_Z.
  assert (B := Z.mod_pos_bound z 256 eq_refl).
  destruct (Byte.of_N (Z.to_N (z mod 256))) as [b|] eqn:E.
  - apply Byte.to_of_N in E. rewrite E. lia.
  - apply Byte.of_N_None_iff in E. lia.
Qed.

Lemma int_of_bytes_of_int (v : Z) : int_of_bytes (bytes_of_int v) = to_int v.
Proof.
  unfold int_of_bytes, bytes_of_int. cbn [fold_right].
  rewrite !to_N_byte_of_Z.
  change (2 ^ 8)%Z with 256%Z. change (2 ^ 16)%Z with 65536%Z.
  change (2 ^ 24)%Z with 16777216%Z. change (2 ^ 32)%Z with 4294967296%Z.
  assert (B := Z.mod_pos_bound v 4294967296 eq_refl).
  set (u := (v mod 4294967296)%Z) in *.
  replace (u mod 256 + 256 * ((u / 256) mod 256 + 256 * ((u / 65536) mod 256
             + 256 * ((u / 16777216) mod 256 + 256 * 0))))%Z with u
    by (Z.div_mod_to_equations; lia).
  unfold to_int, u. change (2 ^ 32)%Z with 4294967296%Z.
  now rewrite Zplus_mod_idemp_l.
Qed.

(** X14: the level that the NOTICE handler wrote to the pipe as the four
    bytes of an [int] is the level that [user_is_identified] reads back: its
    answer is whether that level is 3.  The query it sends is
    ["PRIVMSG NickServ :ACC <nick>"]. *)
Theorem identity_answer_round_trip
  (H : irc_h) (nick_arg : str) (v : Z) (w : world) :
  (- 2 ^ 31 <= v < 2 ^ 31)%Z ->
  length nick_arg + 55 <= IRCLEN H ->
  user_is_identified H nick_arg (Some (bytes_of_int v)) w
  = Ok (v =? 3)%Z w
      [Sent (lit "PRIVMSG NickServ :ACC " ++ nick_arg ++ CRLF); PipeClosed].
Proof.
  intros R L. unfold user_is_identified.
  unfold bind at 1. unfold send_message.
  rewrite (irc_command_text H (lit "PRIVMSG") (lit "NickServ")
             (lit "ACC " ++ nick_arg));
    [|discriminate|rewrite length_app; simpl; lia
     |rewrite length_app; simpl; lia].
  change (overlay (firstn 4 (bytes_of_int v)) [x00; x00; x00; x00]%byte)
    with (bytes_of_int v).
  rewrite int_of_bytes_of_int.
  replace (to_int v) with v; [reflexivity|].
  unfold to_int. change (2 ^ 31)%Z with 2147483648%Z in *.
  change (2 ^ 32)%Z with 4294967296%Z.
  rewrite Z.mod_small; lia.
Qed.

Lemma identity_answer_round_trip_witness :
  user_is_identified sample_irc_h (lit "alice") (Some (bytes_of_int 3)) world_abc
  = Ok (3 =? 3)%Z world_abc
      [Sent (lit "PRIVMSG NickServ :ACC " ++ lit "alice" ++ CRLF); PipeClosed].
Proof.
  apply (identity_answer_round_trip sample_irc_h (lit "alice") 3 world_abc).
  - lia.
  - simpl. lia.
Defined.

(** ** The PRIVMSG handler *)

(** X15: whatever it is given, the PRIVMSG handler returns, leaves the
    connection, the password and the version string as they were, and does
    at most one thing: it forks one bot command, one that the registry has
    under the name it is given, or it sends one line. *)
Theorem privmsg_does_at_most_one_thing
  (H : irc_h) (function_lookup : str -> option handler)
  (pdata : Parsed_data) (w : world) :
  exists (w' : world) (t : list event),
    irc_privmsg H function_lookup pdata w = Ok tt w' t /\
    server w' = server w /\ nick_password w' = nick_password w /\
    bot_version w' = bot_version w /\
    (t = [] \/
     (exists (h : handler) (pd : Parsed_data),
        t = [Forked h pd] /\ function_lookup (command pd) = Some h) \/
     (exists m : str, t = [Sent m])).
Proof.
  unfold irc_privmsg, send_notice, _irc_command, bind, emit, get_world, ret.
  repeat first
    [ progress cbv beta iota
    | rewrite strtok_run
    | match goal with
      | |- context [match ?x with _ => _ end] =>
          lazymatch x with
          | context [match _ with _ => _ end] => fail
          | _ => destruct x eqn:?
          end
      end ];
    (eexists; eexists; split; [reflexivity|]);
    (split; [reflexivity|]); (split; [reflexivity|]); (split; [reflexivity|]);
    first [ left; reflexivity
          | right; left; eexists; eexists; split; [reflexivity|assumption]
          | right; right; eexists; reflexivity ].
Qed.

(** X16: a CTCP request that starts with ["\x01VERSION"] is answered by a
    NOTICE with the bot's version to the sender, the part of the prefix
    before the [!], also when the request went to a channel. *)
Theorem ctcp_version_is_answered_to_the_sender
  (H : irc_h) (function_lookup : str -> option handler)
  (from host tgt rest : str) (w : world) :
  strchr from "!" = false -> tgt <> [] -> free_of (lit " ") tgt = true ->
  length (bot_version w) + 61 <= IRCLEN H ->
  length from + length (bot_version w) + 22 <= IRCLEN H ->
  exists w' : world,
    irc_privmsg H function_lookup
      (privmsg_of from host tgt (SOH :: lit "VERSION" ++ rest)) w
    = Ok tt w'
        [Sent (lit "NOTICE " ++ from ++ lit " :"
                 ++ (SOH :: lit "VERSION " ++ bot_version w ++ [SOH])
                 ++ CRLF)] /\
    server w' = server w.
Proof.
  intros Nf Nt Ft Lv Lf. unfold irc_privmsg, privmsg_of. cbn [sender message].
  rewrite (null_terminate_at from host "!" Nf).
  unfold bind at 1. rewrite strtok_run.
  rewrite (strtok_step_token (lit " ") tgt " " _ Nt Ft eq_refl).
  cbn [fst snd].
  unfold bind at 1. rewrite strtok_run. cbn [strtok_save with_save].
  change (":"%char :: SOH :: lit "VERSION" ++ rest)
    with ((":"%char :: SOH :: lit "VERSION") ++ rest).
  rewrite (strtok_step_prefix (lit " ") (":"%char :: SOH :: lit "VERSION") rest)
    by (discriminate || reflexivity).
  change (tl ((":"%char :: SOH :: lit "VERSION")
                ++ fst (span_until (lit " ") rest)))
    with (SOH :: lit "VERSION" ++ fst (span_until (lit " ") rest)).
  unfold bind at 1. rewrite strtok_run. cbv beta iota.
  change (Ascii.eqb SOH "!") with false.
  change (Ascii.eqb SOH (ascii_of_nat 1)) with true. cbv iota.
  replace (starts_with (lit "VERSION" ++ fst (span_until (lit " ") rest))
             (lit "VERSION")) with true by reflexivity.
  unfold bind at 1. unfold get_world at 1. cbv beta iota.
  unfold send_notice. cbn [bot_version with_save].
  rewrite (irc_command_text H (lit "NOTICE") from
             (SOH :: lit "VERSION " ++ bot_version w ++ [SOH])).
  - eexists. split; [reflexivity|reflexivity].
  - discriminate.
  - cbn [length app]. rewrite !length_app. simpl. lia.
  - cbn [length app]. rewrite !length_app. simpl. lia.
Qed.

Lemma ctcp_version_is_answered_to_the_sender_witness :
  exists w' : world,
    irc_privmsg sample_irc_h sample_lookup
      (privmsg_of (lit "alice") (lit "~a@example.org") (lit "#chan")
         (SOH :: lit "VERSION" ++ [SOH])) world_abc
    = Ok tt w'
        [Sent (lit "NOTICE " ++ lit "alice" ++ lit " :"
                 ++ (SOH :: lit "VERSION " ++ bot_version world_abc ++ [SOH])
                 ++ CRLF)] /\
    server w' = server world_abc.
Proof.
  apply (ctcp_version_is_answered_to_the_sender sample_irc_h sample_lookup
           (lit "alice") (lit "~a@example.org") (lit "#chan") [SOH] world_abc).
  - reflexivity.
  - discriminate.
  - reflexivity.
  - simpl. lia.
  - simpl. lia.
Defined.

(** ** Lines, from the receive buffer to the handlers *)

(** A line with its three tokens: what is left is the choice on the command
    token. *)
Lemma parse_irc_line_tokens
  (H : irc_h) (function_lookup : str -> option handler)
  (n : Z) (from cmd msg : str) (stale : buffer) (w : world) :
  (0 < n)%Z ->
  nul_free (from ++ " "%char :: cmd ++ " "%char :: msg) = true ->
  from <> [] -> free_of (lit " ") from = true ->
  cmd <> [] -> free_of (lit " ") cmd = true ->
  msg <> [] ->
  parse_irc_line H function_lookup n
    ((":"%char :: from ++ " "%char :: cmd ++ " "%char :: msg) ++ NUL :: stale) w
  = ((if (atoi cmd =? 0)%Z
      then match function_lookup cmd with
           | Some h =>
               run_handler H function_lookup h
                 {| sender := from; command := cmd;
                    message := Some msg; target := None |}
           | None => ret tt
           end
      else numeric_reply H (atoi cmd) ;; ret tt) ;;
     ret n)
      (with_save (with_server w (with_line_offset (server w) 0)) []).
Proof.
  intros Pn F Nf Ff Nc Fc Nm. unfold parse_irc_line.
  replace (n <=? 0)%Z with false by (symmetry; apply Z.leb_gt; lia).
  unfold bind at 1. unfold modify_server at 1.
  set (w0 := with_server w (with_line_offset (server w) 0)).
  unfold starts_with.
  rewrite (is_prefix_nul (lit "PING") _ stale eq_refl).
  change (is_prefix (lit "PING")
            (":"%char :: from ++ " "%char :: cmd ++ " "%char :: msg))
    with false.
  cbv iota.
  unfold bind at 1. unfold lift at 1.
  change (offset
            ((":"%char :: from ++ " "%char :: cmd ++ " "%char :: msg)
               ++ NUL :: stale) 1)
    with ((from ++ " "%char :: cmd ++ " "%char :: msg) ++ NUL :: stale).
  rewrite (cstr_app_nul _ stale F).
  unfold bind at 1. rewrite strtok_run.
  rewrite (strtok_step_token (lit " ") from " " _ Nf Ff eq_refl).
  cbn [fst snd].
  unfold bind at 1. rewrite strtok_run. cbn [strtok_save with_save].
  rewrite (strtok_step_token (lit " ") cmd " " _ Nc Fc eq_refl).
  cbn [fst snd].
  unfold bind at 1. rewrite strtok_run. cbn [strtok_save with_save].
  rewrite (strtok_step_rest msg Nm).
  cbn [fst snd].
  change (with_save (with_save (with_save w0 _) _) [])
    with (with_save w0 []).
  cbv zeta.
  destruct (atoi cmd =? 0)%Z; cbn [negb];
    destruct (bind _ _ (with_save w0 [])) as [a w' t|f]; cbn [app];
    rewrite ?app_nil_r; reflexivity.
Qed.

(** X17: a line whose command is neither a registered name nor one of the
    two reply codes that [numeric_reply] knows has no effect: nothing is
    sent, and the connection is as before, its line offset cleared. *)
Theorem unknown_commands_are_ignored
  (H : irc_h) (function_lookup : str -> option handler)
  (n : Z) (from cmd msg : str) (stale : buffer) (w : world) :
  (0 < n)%Z ->
  nul_free (from ++ " "%char :: cmd ++ " "%char :: msg) = true ->
  from <> [] -> free_of (lit " ") from = true ->
  cmd <> [] -> free_of (lit " ") cmd = true ->
  msg <> [] ->
  (if (atoi cmd =? 0)%Z then function_lookup cmd = None
   else atoi cmd <> NICKNAMEINUSE H /\ atoi cmd <> ENDOFMOTD H) ->
  parse_irc_line H function_lookup n
    ((":"%char :: from ++ " "%char :: cmd ++ " "%char :: msg) ++ NUL :: stale) w
  = Ok n (with_save (with_server w (with_line_offset (server w) 0)) []) [].
Proof.
  intros Pn F Nf Ff Nc Fc Nm U.
  rewrite (parse_irc_line_tokens H function_lookup n from cmd msg stale w
             Pn F Nf Ff Nc Fc Nm).
  destruct (atoi cmd =? 0)%Z.
  - rewrite U. reflexivity.
  - destruct U as [U1 U2]. unfold numeric_reply.
    apply Z.eqb_neq in U1, U2. rewrite U1, U2. reflexivity.
Qed.

Lemma unknown_commands_are_ignored_witness :
  parse_irc_line sample_irc_h sample_lookup 33
    ((":"%char :: lit "irc.example.net" ++ " "%char :: lit "001"
        ++ " "%char :: lit "bot :Welcome") ++ NUL :: []) world_abc
  = Ok 33%Z
      (with_save (with_server world_abc
                    (with_line_offset (server world_abc) 0)) []) [].
Proof.
  apply (unknown_commands_are_ignored sample_irc_h sample_lookup 33
           (lit "irc.example.net") (lit "001") (lit "bot :Welcome") []
           world_abc).
  - lia.
  - reflexivity.
  - discriminate.
  - reflexivity.
  - discriminate.
  - reflexivity.
  - discriminate.
  - vm_compute. split; discriminate.
Defined.

(** X18: a bot command in a PRIVMSG line, [":from!host PRIVMSG tgt :!name
    args"], makes the bot fork the handler that the registry has for [name],
    with the sender cut at the [!], the arguments as message, and as reply
    target [tgt] if it has a [#] in it, the sender otherwise. *)
Theorem bot_command_line_forks_its_handler
  (H : irc_h) (function_lookup : str -> option handler) (h : handler)
  (n : Z) (from host tgt name args : str) (stale : buffer) (w : world) :
  (0 < n)%Z ->
  nul_free ((from ++ "!"%char :: host) ++ " "%char :: lit "PRIVMSG" ++ " "%char
              :: tgt ++ " "%char :: ":"%char :: "!"%char :: name
              ++ " "%char :: args) = true ->
  strchr from "!" = false ->
  free_of (lit " ") (from ++ "!"%char :: host) = true ->
  tgt <> [] -> free_of (lit " ") tgt = true ->
  free_of (lit " ") name = true ->
  args <> [] ->
  function_lookup (lit "PRIVMSG") = Some h_irc_privmsg ->
  function_lookup name = Some h ->
  parse_irc_line H function_lookup n
    ((":"%char :: (from ++ "!"%char :: host) ++ " "%char :: lit "PRIVMSG"
        ++ " "%char :: tgt ++ " "%char :: ":"%char :: "!"%char :: name
        ++ " "%char :: args) ++ NUL :: stale) w
  = Ok n (with_save (with_server w (with_line_offset (server w) 0)) [])
      [Forked h {| sender := from; command := name; message := Some args;
                   target := Some (if strchr tgt "#" then tgt else from) |}].
Proof.
  intros Pn F Nf Ff Nt Ft Fn Na Lp Ln.
  rewrite (parse_irc_line_tokens H function_lookup n (from ++ "!"%char :: host)
             (lit "PRIVMSG")
             (tgt ++ " "%char :: ":"%char :: "!"%char :: name ++ " "%char :: args)
             stale w Pn F);
    [|now destruct from|exact Ff|discriminate|reflexivity|now destruct tgt].
  change (atoi (lit "PRIVMSG") =? 0)%Z with true. cbv iota.
  rewrite Lp. cbn [run_handler].
  set (w0 := with_save (with_server w (with_line_offset (server w) 0)) []).
  match goal with
  | |- bind (irc_privmsg _ _ ?pdata) _ _ = _ =>
      assert (E : irc_privmsg H function_lookup pdata w0
                  = Ok tt w0
                      [Forked h {| sender := from; command := name;
                                   message := Some args;
                                   target := Some (if strchr tgt "#" then tgt
                                                   else from) |}])
  end.
  { unfold irc_privmsg. cbn [sender message].
    rewrite (null_terminate_at from host "!" Nf).
    unfold bind at 1. rewrite strtok_run.
    rewrite (strtok_step_token (lit " ") tgt " " _ Nt Ft eq_refl).
    cbn [fst snd].
    unfold bind at 1. rewrite strtok_run. cbn [strtok_save with_save].
    change (":"%char :: "!"%char :: name ++ " "%char :: args)
      with ((":"%char :: "!"%char :: name) ++ " "%char :: args).
    rewrite (strtok_step_token (lit " ") (":"%char :: "!"%char :: name) " " args)
      by (discriminate || exact Fn || reflexivity).
    cbn [fst snd tl].
    unfold bind at 1. rewrite strtok_run. cbn [strtok_save with_save].
    rewrite (strtok_step_rest args Na). cbn [fst snd].
    change (Ascii.eqb "!" "!") with true. cbv iota.
    rewrite Ln. reflexivity. }
  unfold bind, ret. rewrite E. reflexivity.
Qed.

Lemma bot_command_line_forks_its_handler_witness :
  parse_irc_line sample_irc_h sample_lookup 51
    ((":"%char :: (lit "alice" ++ "!"%char :: lit "~a@example.org")
        ++ " "%char :: lit "PRIVMSG" ++ " "%char :: lit "#chan" ++ " "%char
        :: ":"%char :: "!"%char :: lit "ping" ++ " "%char :: lit "8.8.8.8")
       ++ NUL :: []) world_abc
  = Ok 51%Z
      (with_save (with_server world_abc
                    (with_line_offset (server world_abc) 0)) [])
      [Forked (h_bot (lit "ping"))
         {| sender := lit "alice"; command := lit "ping";
            message := Some (lit "8.8.8.8");
            target := Some (if strchr (lit "#chan") "#" then lit "#chan"
                            else lit "alice") |}].
Proof.
  apply (bot_command_line_forks_its_handler sample_irc_h sample_lookup
           (h_bot (lit "ping")) 51 (lit "alice") (lit "~a@example.org")
           (lit "#chan") (lit "ping") (lit "8.8.8.8") [] world_abc).
  - lia.
  - reflexivity.
  - reflexivity.
  - reflexivity.
  - discriminate.
  - reflexivity.
  - reflexivity.
  - discriminate.
  - reflexivity.
  - reflexivity.
Defined.

Lemma spaces_skip_leading (s : str) :
  spaces (skip_leading (lit " ") s) <= spaces s.
Proof.
  unfold spaces. induction s as [|c s IH]; [apply le_n|].
  cbn [skip_leading count_occ].
  destruct (mem c (lit " ")); destruct (ascii_dec c " "); cbn [count_occ];
    try destruct (ascii_dec c " "); try contradiction; lia.
Qed.

(** Every token that [strtok] cuts at a space uses up one space of what is
    left. *)
Lemma strtok_step_spaces (s : str) :
  snd (strtok_step s (lit " ")) = [] \/
  spaces (snd (strtok_step s (lit " "))) < spaces s.
Proof.
  unfold strtok_step. assert (L := spaces_skip_leading s).
  destruct (skip_leading (lit " ") s) as [|c s']; [now left|].
  destruct (span_until (lit " ") (c :: s')) as [tok rest] eqn:E.
  destruct rest as [|x rest]; [now left|]. right. cbn [snd].
  destruct (span_until_inv _ _ _ _ E) as (Es & _ & Mx).
  rewrite Es in L. unfold spaces in *. rewrite count_occ_app in L.
  cbn [count_occ] in L.
  unfold mem in Mx. simpl in Mx. rewrite orb_false_r in Mx.
  apply Ascii.eqb_eq in Mx. subst x.
  destruct (ascii_dec " " " "); [lia|contradiction].
Qed.

(** X19: a line with fewer than two spaces after its first character cannot
    have a sender, a command and a message: unless it is a PING it is
    dropped, whatever it says. *)
Theorem lines_with_fewer_than_two_spaces_are_dropped
  (H : irc_h) (function_lookup : str -> option handler)
  (n : Z) (c : ascii) (body : str) (stale : buffer) (w : world) :
  (0 < n)%Z ->
  starts_with (c :: body) (lit "PING") = false ->
  nul_free (c :: body) = true ->
  spaces body < 2 ->
  exists w' : world,
    parse_irc_line H function_lookup n ((c :: body) ++ NUL :: stale) w
    = Ok n w' [] /\
    server w' = with_line_offset (server w) 0.
Proof.
  intros Pn NP F S. unfold parse_irc_line.
  replace (n <=? 0)%Z with false by (symmetry; apply Z.leb_gt; lia).
  unfold bind at 1. unfold modify_server at 1.
  unfold starts_with in *.
  rewrite (is_prefix_nul (lit "PING") _ stale eq_refl), NP.
  unfold bind at 1. unfold lift at 1.
  change (offset ((c :: body) ++ NUL :: stale) 1) with (body ++ NUL :: stale).
  rewrite nul_free_cons in F. apply andb_true_iff in F as [_ F].
  rewrite (cstr_app_nul _ stale F).
  unfold bind at 1. rewrite strtok_run.
  assert (S1 := strtok_step_spaces body).
  destruct (strtok_step body (lit " ")) as [o1 r1]. cbn [fst snd] in *.
  destruct o1 as [from|]; [|eexists; split; reflexivity].
  unfold bind at 1. rewrite strtok_run. cbn [strtok_save with_save].
  assert (S2 := strtok_step_spaces r1).
  destruct (strtok_step r1 (lit " ")) as [o2 r2] eqn:E2. cbn [fst snd] in *.
  destruct o2 as [cmd|]; [|eexists; split; reflexivity].
  assert (R2 : r2 = []).
  { destruct S1 as [->|S1]; [|destruct S2 as [S2|S2]; [exact S2|lia]].
    vm_compute in E2. discriminate. }
  subst r2.
  unfold bind at 1. rewrite strtok_run. cbn [strtok_save with_save].
  change (strtok_step [] []) with (@None str, @nil ascii). cbn [fst snd].
  eexists. split; reflexivity.
Qed.

Lemma lines_with_fewer_than_two_spaces_are_dropped_witness :
  exists w' : world,
    parse_irc_line sample_irc_h sample_lookup 21
      ((":"%char :: lit "irc.example.net 433") ++ NUL :: []) world_abc
    = Ok 21%Z w' [] /\
    server w' = with_line_offset (server world_abc) 0.
Proof.
  apply (lines_with_fewer_than_two_spaces_are_dropped sample_irc_h
           sample_lookup 21 ":" (lit "irc.example.net 433") [] world_abc).
  - lia.
  - reflexivity.
  - reflexivity.
  - vm_compute. lia.
Defined.

(** ** What no run does: over-long lines, clearing the connected flag *)

Section Orderly.

Variable H : irc_h.
Variable function_lookup : str -> option handler.

Lemma orderly_bind {A B} (m : M A) (k : A -> M B) :
  orderly H m -> (forall a : A, orderly H (k a)) -> orderly H (bind m k).
Proof.
  intros Om Ok' w b w' t E.
  apply bind_inv in E as (a & w1 & t1 & t2 & E1 & E2 & ->).
  destruct (Om _ _ _ _ E1) as [L1 C1]. destruct (Ok' a _ _ _ _ E2) as [L2 C2].
  split; [|auto].
  intros m' I. apply in_app_or in I as [I|I]; auto.
Qed.

Lemma orderly_quiet {A} (m : M A) :
  (forall (w : world) (a : A) (w' : world) (t : list event),
     m w = Ok a w' t ->
     t = [] /\ isConnected (server w') = isConnected (server w)) ->
  orderly H m.
Proof.
  intros Q w a w' t E. destruct (Q _ _ _ _ E) as [-> C]. split.
  - intros m' [].
  - now rewrite C.
Qed.

Lemma orderly_ret {A} (a : A) : orderly H (ret a).
Proof.
  apply orderly_quiet. intros w b w' t E. unfold ret in E. ok_inj E. auto.
Qed.

Lemma orderly_fail {A} (f : fault) : orderly H (@fail A f).
Proof. intros w a w' t E. discriminate E. Qed.

Lemma orderly_lift {A} (r : result A) : orderly H (lift r).
Proof.
  apply orderly_quiet. intros w b w' t E. unfold lift in E.
  destruct r; [ok_inj E; auto|discriminate E].
Qed.

Lemma orderly_get_server : orderly H get_server.
Proof.
  apply orderly_quiet. intros w b w' t E. unfold get_server in E. ok_inj E.
  auto.
Qed.

Lemma orderly_get_world : orderly H get_world.
Proof.
  apply orderly_quiet. intros w b w' t E. unfold get_world in E. ok_inj E.
  auto.
Qed.

Lemma orderly_strtok (s : option str) (delim : str) :
  orderly H (strtok s delim).
Proof.
  apply orderly_quiet. intros w b w' t E. rewrite strtok_run in E. ok_inj E.
  auto.
Qed.

Lemma orderly_modify_server (f : irc_type -> irc_type) :
  (forall s : irc_type, isConnected s = true -> isConnected (f s) = true) ->
  orderly H (modify_server f).
Proof.
  intros F w a w' t E. unfold modify_server in E. ok_inj E. split.
  - intros m' [].
  - apply F.
Qed.

Lemma orderly_modify_world (f : world -> world) :
  (forall w : world, isConnected (server w) = true ->
                     isConnected (server (f w)) = true) ->
  orderly H (modify_world f).
Proof.
  intros F w a w' t E. unfold modify_world in E. ok_inj E. split.
  - intros m' [].
  - apply F.
Qed.

Lemma orderly_emit (e : event) :
  (forall m : str, e = Sent m -> length m <= IRCLEN H - 1) ->
  orderly H (emit e).
Proof.
  intros F w a w' t E. unfold emit in E. ok_inj E. split; [|auto].
  intros m' [I|[]]. now apply F.
Qed.

Lemma orderly_irc_command (type target : str) (format : option str) :
  orderly H (_irc_command H type target format).
Proof.
  unfold _irc_command. apply orderly_emit. intros m E. injection E as <-.
  rewrite length_firstn. lia.
Qed.

Ltac orderly :=
  repeat first
    [ apply orderly_irc_command
    | apply orderly_ret
    | apply orderly_fail
    | apply orderly_lift
    | apply orderly_get_server
    | apply orderly_get_world
    | apply orderly_strtok
    | apply orderly_emit; intros ? ?; discriminate
    | apply orderly_modify_server; intros ? ?; first [assumption|reflexivity]
    | apply orderly_modify_world; intros ? ?; assumption
    | apply orderly_bind; [|intros ?]
    | match goal with
      | |- orderly _ (if ?b then _ else _) => destruct b
      | |- orderly _ (match ?x with _ => _ end) => destruct x
      | |- orderly _ (let _ := _ in _) => cbv zeta
      end ].

Lemma orderly_channel_row (i : Z) : orderly H (channel_row H i).
Proof. unfold channel_row. orderly. Qed.

Lemma orderly_set_nick (s : str) : orderly H (set_nick H s).
Proof. unfold set_nick, irc_nick_command. orderly. Qed.

Lemma orderly_join_recorded (count : nat) :
  forall i : Z, orderly H (join_recorded H count i).
Proof.
  induction count as [|count IH]; intros i; cbn [join_recorded].
  - orderly.
  - unfold irc_channel_command.
    apply orderly_bind; [apply orderly_channel_row|intros ?].
    orderly. apply IH.
Qed.

Lemma orderly_find_channel (name : str) (count : nat) :
  forall i : Z, orderly H (find_channel H name count i).
Proof.
  induction count as [|count IH]; intros i; cbn [find_channel].
  - orderly.
  - apply orderly_bind; [apply orderly_channel_row|intros ?].
    orderly. apply IH.
Qed.

Lemma orderly_join_channel (channel : option str) :
  orderly H (join_channel H channel).
Proof.
  unfold join_channel, set_channel_row, irc_channel_command.
  destruct channel as [ch|].
  - apply orderly_bind; [orderly|intros ?].
    apply orderly_bind; [orderly|intros s].
    destruct (channels_set s =? Z.of_nat (MAXCHANS H))%Z; [orderly|].
    apply orderly_bind; [apply orderly_channel_row|intros ?].
    apply orderly_bind; [orderly|intros ?].
    apply orderly_bind; [orderly|intros ?].
    apply orderly_bind; [orderly|intros ?].
    apply orderly_bind; [orderly|intros s2].
    apply orderly_bind; [|intros ?; orderly].
    destruct (isConnected s2); [|orderly].
    apply orderly_bind; [apply orderly_channel_row|intros ?].
    orderly.
  - apply orderly_bind; [orderly|intros s].
    destruct (isConnected s); [apply orderly_join_recorded|orderly].
Qed.

Lemma orderly_numeric_reply (reply : Z) : orderly H (numeric_reply H reply).
Proof.
  unfold numeric_reply.
  apply orderly_bind; [|intros ?; orderly].
  destruct (reply =? NICKNAMEINUSE H)%Z.
  - apply orderly_bind; [orderly|intros ?].
    apply orderly_bind; [orderly|intros ?].
    apply orderly_bind; [orderly|intros ?].
    apply orderly_bind; [orderly|intros ?].
    apply orderly_set_nick.
  - destruct (reply =? ENDOFMOTD H)%Z; [|orderly].
    apply orderly_bind; [orderly|intros ?].
    apply orderly_bind; [apply orderly_join_channel|intros ?]. orderly.
Qed.

Lemma orderly_irc_privmsg (pdata : Parsed_data) :
  orderly H (irc_privmsg H function_lookup pdata).
Proof. unfold irc_privmsg, send_notice. orderly. Qed.

Lemma orderly_irc_notice (pdata : Parsed_data) :
  orderly H (irc_notice H pdata).
Proof. unfold irc_notice, send_message. orderly. Qed.

Lemma orderly_irc_kick (pdata : Parsed_data) : orderly H (irc_kick H pdata).
Proof.
  unfold irc_kick, set_channel_row, send_message.
  destruct (null_terminate (sender pdata) "!"); [|orderly].
  apply orderly_bind; [orderly|intros [chan|]]; [|orderly].
  apply orderly_bind; [orderly|intros [victim|]]; [|orderly].
  cbv zeta.
  apply orderly_bind; [orderly|intros ?].
  apply orderly_bind; [orderly|intros [|]]; [|orderly].
  apply orderly_bind; [orderly|intros ?].
  apply orderly_bind; [apply orderly_find_channel|intros ?].
  apply orderly_bind; [orderly|intros ?].
  apply orderly_bind; [orderly|intros ?].
  apply orderly_bind; [apply orderly_channel_row|intros ?].
  apply orderly_bind; [apply orderly_channel_row|intros ?].
  apply orderly_bind; [orderly|intros ?].
  apply orderly_bind; [orderly|intros ?].
  apply orderly_bind; [orderly|intros ?].
  apply orderly_bind; [apply orderly_join_channel|intros ?].
  orderly.
Qed.

Lemma orderly_run_handler (h : handler) (pdata : Parsed_data) :
  orderly H (run_handler H function_lookup h pdata).
Proof.
  destruct h; cbn [run_handler].
  - apply orderly_irc_privmsg.
  - apply orderly_irc_notice.
  - apply orderly_irc_kick.
  - orderly.
Qed.

Lemma orderly_parse_irc_line (n : Z) (line : buffer) :
  orderly H (parse_irc_line H function_lookup n line).
Proof.
  unfold parse_irc_line, irc_ping_command.
  destruct (n <=? 0)%Z; [orderly|].
  apply orderly_bind; [orderly|intros ?].
  destruct (starts_with line (lit "PING")); [orderly|].
  apply orderly_bind; [orderly|intros ?].
  apply orderly_bind; [orderly|intros [from|]]; [|orderly].
  apply orderly_bind; [orderly|intros [cmd|]]; [|orderly].
  apply orderly_bind; [orderly|intros [msg|]]; [|orderly].
  cbv zeta.
  apply orderly_bind; [|intros ?; orderly].
  destruct (negb (atoi cmd =? 0)%Z).
  - apply orderly_bind; [apply orderly_numeric_reply|intros ?; orderly].
  - destruct (function_lookup cmd); [apply orderly_run_handler|orderly].
Qed.

Lemma orderly_run_operations (ops : list operation) :
  orderly H (run_operations H function_lookup ops).
Proof.
  induction ops as [|op ops IH]; cbn [run_operations]; [orderly|].
  apply orderly_bind; [|intros ?; exact IH].
  destruct op; cbn [run_operation].
  - apply orderly_bind; [apply orderly_join_channel|intros ?; orderly].
  - apply orderly_bind; [apply orderly_numeric_reply|intros ?; orderly].
  - apply orderly_irc_kick.
  - apply orderly_bind; [apply orderly_parse_irc_line|intros ?; orderly].
Qed.

End Orderly.

(** X20: whatever the joins, numeric replies, kicks and inbound lines, and
    whatever the state they start from, no line that the bot sends is longer
    than [IRCLEN - 1] bytes. *)
Theorem no_line_sent_is_longer_than_the_line_buffer
  (H : irc_h) (function_lookup : str -> option handler)
  (ops : list operation) (w w' : world) (t : list event) (m : str) :
  run_operations H function_lookup ops w = Ok tt w' t ->
  In (Sent m) t -> length m <= IRCLEN H - 1.
Proof.
  intros E I.
  exact (proj1 (orderly_run_operations H function_lookup ops w tt w' t E) m I).
Qed.

Lemma no_line_sent_is_longer_than_the_line_buffer_witness :
  exists w' t,
    run_operations sample_irc_h sample_lookup busy_session
      (initial_world sample_irc_h (lit "irc-bot") (lit "secret"))
    = Ok tt w' t /\
    In (Sent (lit "PONG :wolfe.example.net" ++ CRLF)) t /\
    length (lit "PONG :wolfe.example.net" ++ CRLF) <= 511.
Proof.
  eexists. eexists.
  assert (E : run_operations sample_irc_h sample_lookup busy_session
                (initial_world sample_irc_h (lit "irc-bot") (lit "secret"))
              = Ok tt _ _) by (vm_compute; reflexivity).
  assert (I : In (Sent (lit "PONG :wolfe.example.net" ++ CRLF))
                (match run_operations sample_irc_h sample_lookup busy_session
                         (initial_world sample_irc_h (lit "irc-bot")
                            (lit "secret")) with
                 | Ok _ _ t => t
                 | Fault _ => []
                 end)).
  { vm_compute. do 9 right. left. reflexivity. }
  rewrite E in I.
  split; [exact E|]. split; [exact I|].
  exact (no_line_sent_is_longer_than_the_line_buffer sample_irc_h sample_lookup
           busy_session _ _ _ _ E I).
Defined.

(** X21: in a run of joins, numeric replies, kicks and inbound lines that
    completes, that is, in which no access leaves its array, a connected
    flag that was set is still set at the end: no statement of these
    functions clears it.  (A run in which a KICK overruns the channel table
    does not complete.) *)
Theorem connected_flag_stays_set_on_completed_runs
  (H : irc_h) (function_lookup : str -> option handler)
  (ops : list operation) (w w' : world) (t : list event) :
  run_operations H function_lookup ops w = Ok tt w' t ->
  isConnected (server w) = true -> isConnected (server w') = true.
Proof.
  intros E.
  exact (proj2 (orderly_run_operations H function_lookup ops w tt w' t E)).
Qed.

Lemma connected_flag_stays_set_on_completed_runs_witness :
  exists w' t,
    run_operations sample_irc_h sample_lookup
      [op_kick kick_b; op_numeric 433%Z] world_abc
    = Ok tt w' t /\
    isConnected (server w') = true.
Proof.
  eexists. eexists.
  assert (E : run_operations sample_irc_h sample_lookup
                [op_kick kick_b; op_numeric 433%Z] world_abc
              = Ok tt _ _) by (vm_compute; reflexivity).
  split; [exact E|].
  exact (connected_flag_stays_set_on_completed_runs sample_irc_h sample_lookup
           [op_kick kick_b; op_numeric 433%Z] world_abc _ _ E eq_refl).
Defined.

(** ** Registration: [set_user] and [irc_connect] *)

(** X22: [set_user] with a user name that fits stores it and sends
    ["USER <user> 0 * :<user>"]. *)
Theorem set_user_registers
  (H : irc_h) (USERLEN : nat) (user : buffer) (u : str) (w : world) :
  length user = USERLEN -> nul_free u = true -> length u < USERLEN ->
  2 * length u + 14 <= IRCLEN H ->
  set_user H USERLEN user u w
  = Ok (stored USERLEN u) w
      [Sent (lit "USER " ++ u ++ lit " 0 * :" ++ u ++ CRLF)] /\
  cstr (stored USERLEN u) = Val u.
Proof.
  intros Lu F Ls Li. split; [|now apply cstr_stored].
  unfold set_user.
  unfold bind at 1. unfold lift at 1.
  rewrite (strncpy_fits user u USERLEN Lu Ls). fold (stored USERLEN u).
  unfold bind at 1. unfold lift at 1. rewrite (cstr_stored _ _ F).
  unfold bind at 1. unfold irc_user_command.
  rewrite (firstn_fits (USERLEN * 2 + 6 - 1) (u ++ lit " 0 * :" ++ u))
    by (rewrite !length_app; simpl; lia).
  rewrite irc_command_plain by (rewrite !length_app; simpl; lia).
  unfold ret. cbn [app]. rewrite <- !app_assoc. reflexivity.
Qed.

Lemma set_user_registers_witness :
  set_user sample_irc_h 20 (repeat NUL 20) (lit "bot") world_abc
  = Ok (stored 20 (lit "bot")) world_abc
      [Sent (lit "USER " ++ lit "bot" ++ lit " 0 * :" ++ lit "bot" ++ CRLF)] /\
  cstr (stored 20 (lit "bot")) = Val (lit "bot").
Proof.
  apply (set_user_registers sample_irc_h 20 (repeat NUL 20) (lit "bot")
           world_abc).
  - reflexivity.
  - reflexivity.
  - simpl. lia.
  - simpl. lia.
Defined.

Lemma atoi_minus (ds : str) :
  (0 <= digits 0 ds <= 2 ^ 31)%Z -> atoi ("-"%char :: ds) = (- digits 0 ds)%Z.
Proof.
  intros B. unfold atoi, strtol. cbn [skip_spaces].
  change (isspace "-") with false. cbv iota.
  change (Ascii.eqb "-" "-") with true.
  cbv iota. unfold LONG_MAX, LONG_MIN, to_int.
  change (2 ^ 31)%Z with 2147483648%Z in *.
  change (2 ^ 32)%Z with 4294967296%Z.
  change (2 ^ 63)%Z with 9223372036854775808%Z.
  rewrite Z.min_r by lia. rewrite Z.max_r by lia.
  rewrite Z.mod_small by lia. lia.
Qed.

Lemma atoi_no_number (c : ascii) (rest : str) :
  isdigit c = false -> isspace c = false -> c <> "-"%char -> c <> "+"%char ->
  atoi (c :: rest) = 0%Z.
Proof.
  intros D S M P. unfold atoi, strtol. cbn [skip_spaces]. rewrite S.
  apply Ascii.eqb_neq in M, P. rewrite M, P. cbn [digits]. rewrite D.
  reflexivity.
Qed.

Lemma atoi_of_minus (ds : str) :
  atoi ("-"%char :: ds) = to_int (Z.max LONG_MIN (- digits 0 ds)).
Proof.
  pose proof (digits_nonneg ds 0 ltac:(lia)) as P.
  unfold atoi, strtol. cbn [skip_spaces].
  change (isspace "-") with false. cbv iota.
  change (Ascii.eqb "-" "-") with true. cbv iota.
  rewrite Z.min_r; [reflexivity|]. unfold LONG_MAX. lia.
Qed.

(** X23: with an address that has a dot in it, a socket and a pipe,
    [irc_connect] refuses a port exactly when [atoi] of it is above 65535,
    and that is all it checks of the port.  For a port of digits [atoi] is
    the value capped at LONG_MAX and cut to 32 bits: a value up to INT_MAX
    is refused exactly when it is above 65535, a larger one according to
    what is left of it.  For a port with a minus sign [atoi] is the negated
    value capped at LONG_MIN and cut to 32 bits: a magnitude up to 2^31 is
    let through, a larger one according to what is left of it.  A text that
    is no number at all is let through. *)
Theorem irc_connect_checks_the_port_from_above_only
  (H : irc_h) (address : str) (sock : Z) :
  strchr address "." = true -> (0 <= sock)%Z ->
  (forall port : str,
     irc_connect H address port sock true = None <-> (65535 < atoi port)%Z) /\
  (forall port : str,
     irc_connect H address port sock true = Some (calloc_irc H) <->
     (atoi port <= 65535)%Z) /\
  (forall port : str,
     port <> [] -> forallb isdigit port = true ->
     atoi port = to_int (Z.min LONG_MAX (digits 0 port))) /\
  (forall port : str,
     port <> [] -> forallb isdigit port = true ->
     (digits 0 port <= INT_MAX)%Z ->
     (irc_connect H address port sock true = None <->
      (65535 < digits 0 port)%Z)) /\
  (forall ds : str,
     atoi ("-"%char :: ds) = to_int (Z.max LONG_MIN (- digits 0 ds))) /\
  (forall ds : str,
     (digits 0 ds <= 2 ^ 31)%Z ->
     irc_connect H address ("-"%char :: ds) sock true = Some (calloc_irc H)) /\
  (forall (c : ascii) (rest : str),
     isdigit c = false -> isspace c = false ->
     c <> "-"%char -> c <> "+"%char ->
     irc_connect H address (c :: rest) sock true = Some (calloc_irc H)).
Proof.
  intros A S.
  assert (Check : forall port : str,
            irc_connect H address port sock true
            = if (atoi port >? 65535)%Z then None else Some (calloc_irc H)).
  { intros port. unfold irc_connect. rewrite A.
    replace (sock <? 0)%Z with false by (symmetry; apply Z.ltb_ge; exact S).
    reflexivity. }
  split; [|split; [|split; [|split; [|split; [|split]]]]].
  - intros port. rewrite Check.
    destruct (atoi port >? 65535)%Z eqn:E; rewrite Z.gtb_ltb in E.
    + apply Z.ltb_lt in E. split; [intros _; exact E|reflexivity].
    + apply Z.ltb_ge in E. split; [discriminate|lia].
  - intros port. rewrite Check.
    destruct (atoi port >? 65535)%Z eqn:E; rewrite Z.gtb_ltb in E.
    + apply Z.ltb_lt in E. split; [discriminate|lia].
    + apply Z.ltb_ge in E. split; [intros _; exact E|reflexivity].
  - intros port N D. exact (atoi_of_digits port N D).
  - intros port N D B. rewrite Check, (atoi_digits port N D B).
    destruct (digits 0 port >? 65535)%Z eqn:E; rewrite Z.gtb_ltb in E.
    + apply Z.ltb_lt in E. split; [intros _; exact E|reflexivity].
    + apply Z.ltb_ge in E. split; [discriminate|lia].
  - exact atoi_of_minus.
  - intros ds B. rewrite Check.
    pose proof (digits_nonneg ds 0 ltac:(lia)) as P.
    rewrite (atoi_minus ds) by lia.
    replace (- digits 0 ds >? 65535)%Z with false; [reflexivity|].
    symmetry. rewrite Z.gtb_ltb. apply Z.ltb_ge. lia.
  - intros c rest D Sp M P. rewrite Check.
    rewrite (atoi_no_number c rest D Sp M P). reflexivity.
Qed.

Lemma irc_connect_checks_the_port_from_above_only_witness :
  irc_connect sample_irc_h (lit "irc.example.net") (lit "70000") 3 true = None /\
  irc_connect sample_irc_h (lit "irc.example.net") (lit "4294967296") 3 true
  = Some (calloc_irc sample_irc_h) /\
  irc_connect sample_irc_h (lit "irc.example.net") (lit "-1") 3 true
  = Some (calloc_irc sample_irc_h) /\
  irc_connect sample_irc_h (lit "irc.example.net") (lit "-4294900000") 3 true
  = None /\
  irc_connect sample_irc_h (lit "irc.example.net") (lit "ircd") 3 true
  = Some (calloc_irc sample_irc_h).
Proof.
  destruct (irc_connect_checks_the_port_from_above_only sample_irc_h
              (lit "irc.example.net") 3 eq_refl ltac:(lia))
    as (P1 & P2 & P3 & P4 & P5 & P6 & P7).
  split; [|split; [|split; [|split]]].
  - apply (P4 (lit "70000")).
    + discriminate.
    + reflexivity.
    + vm_compute. discriminate.
    + vm_compute. reflexivity.
  - apply (P2 (lit "4294967296")).
    rewrite (P3 (lit "4294967296")) by (discriminate || reflexivity).
    vm_compute. discriminate.
  - apply (P6 (lit "1")). vm_compute. discriminate.
  - apply (P1 (lit "-4294900000")).
    change (lit "-4294900000") with ("-"%char :: lit "4294900000").
    rewrite (P5 (lit "4294900000")).
    vm_compute. reflexivity.
  - apply (P7 "i"%char (lit "rcd")).
    + reflexivity.
    + reflexivity.
    + discriminate.
    + discriminate.
Defined.

(** ** Bot commands *)

Lemma limit_count_range (max count : Z) :
  (1 <= max)%Z -> (0 <= limit_count max count <= max)%Z.
Proof.
  intros M. unfold limit_count.
  destruct (count >? max)%Z eqn:G; [lia|].
  destruct (count <? 0)%Z eqn:L; [lia|].
  rewrite Z.gtb_ltb in G. apply Z.ltb_ge in G, L. lia.
Qed.

(** X24: when [ping] gets as far as its command line, the host is its first
    argument and has a dot or a colon in it, the tool is [ping] for a dot
    and [ping6] otherwise, and the count is 3 without a second argument and
    between 0 and MAXPINGCOUNT with one, whatever that argument says. *)
Theorem ping_count_is_limited
  (MAXPINGCOUNT : Z) (argv : list str) (cmd : str) (count : Z) (host : str) :
  (1 <= MAXPINGCOUNT)%Z ->
  ping_request MAXPINGCOUNT argv = Some (cmd, count, host) ->
  nth_error argv 0 = Some host /\
  (strchr host "." = true /\ cmd = lit "ping" \/
   strchr host "." = false /\ strchr host ":" = true /\ cmd = lit "ping6") /\
  (length argv = 1 /\ count = 3%Z \/
   length argv = 2 /\ (0 <= count <= MAXPINGCOUNT)%Z).
Proof.
  intros M E. unfold ping_request in E.
  destruct argv as [|h [|arg [|x rest]]]; try discriminate E;
    cbn [length Nat.eqb orb negb] in E;
    destruct (strchr h ".") eqn:D;
    try destruct (strchr h ":") eqn:C; try discriminate E;
    injection E as <- <- <-;
    (split; [reflexivity|]); (split; [auto|]);
    first [ left; split; reflexivity
          | right; split; [reflexivity|apply limit_count_range, M] ].
Qed.

Lemma ping_count_is_limited_witness :
  nth_error [lit "8.8.8.8"; lit "4294967295"] 0 = Some (lit "8.8.8.8") /\
  (strchr (lit "8.8.8.8") "." = true /\ lit "ping" = lit "ping" \/
   strchr (lit "8.8.8.8") "." = false /\ strchr (lit "8.8.8.8") ":" = true /\
   lit "ping" = lit "ping6") /\
  (length [lit "8.8.8.8"; lit "4294967295"] = 1 /\ 1%Z = 3%Z \/
   length [lit "8.8.8.8"; lit "4294967295"] = 2 /\ (0 <= 1 <= 10)%Z).
Proof.
  apply (ping_count_is_limited 10 [lit "8.8.8.8"; lit "4294967295"]
           (lit "ping") 1 (lit "8.8.8.8")).
  - lia.
  - vm_compute. reflexivity.
Defined.

(** X25: when [github] gets as far as fetching commits, the repository is
    its first argument and has a slash in it, and the number of commits
    asked for is 1 without a second argument and between 0 and MAXCOMMITS
    with one. *)
Theorem github_count_is_limited
  (MAXCOMMITS : Z) (argv : list str) (repo : str) (commits : Z) :
  (1 <= MAXCOMMITS)%Z ->
  github_request MAXCOMMITS argv = Some (repo, commits) ->
  nth_error argv 0 = Some repo /\ strchr repo "/" = true /\
  (length argv = 1 /\ commits = 1%Z \/
   length argv = 2 /\ (0 <= commits <= MAXCOMMITS)%Z).
Proof.
  intros M E. unfold github_request in E.
  destruct argv as [|r [|arg [|x rest]]]; try discriminate E;
    cbn [length Nat.eqb orb negb] in E;
    destruct (strchr r "/") eqn:D; try discriminate E;
    injection E as <- <-;
    (split; [reflexivity|]); (split; [exact D|]);
    first [ left; split; reflexivity
          | right; split; [reflexivity|apply limit_count_range, M] ].
Qed.

Lemma github_count_is_limited_witness :
  nth_error [lit "freestyl3r/irc-bot"; lit "-2"] 0
  = Some (lit "freestyl3r/irc-bot") /\
  strchr (lit "freestyl3r/irc-bot") "/" = true /\
  (length [lit "freestyl3r/irc-bot"; lit "-2"] = 1 /\ 1%Z = 1%Z \/
   length [lit "freestyl3r/irc-bot"; lit "-2"] = 2 /\ (0 <= 1 <= 10)%Z).
Proof.
  apply (github_count_is_limited 10 [lit "freestyl3r/irc-bot"; lit "-2"]
           (lit "freestyl3r/irc-bot") 1).
  - lia.
  - vm_compute. reflexivity.
Defined.

Lemma skipn_exact {A} (a b : list A) : skipn (length a) (a ++ b) = b.
Proof. induction a as [|x a IH]; [reflexivity|exact IH]. Qed.

Lemma quote_text_length (lines : list str) (tail : str) :
  length lines + length tail <= length (quote_text lines tail).
Proof.
  induction lines as [|line lines IH]; cbn [quote_text length]; [lia|].
  rewrite length_app. cbn [length]. lia.
Qed.

Section Fail.

Variable H : irc_h.
Variable target : str.

Lemma fail_lines_line (left : nat) (done line rest : str) (w : world) :
  whole_line H target line -> (rest = [] \/ exists r, rest = LF :: r) ->
  fail_lines H (S left) target (done ++ line ++ rest) (length done) w
  = (send_message H target line ;; emit (Slept 1) ;;
     fail_lines H left target (done ++ line ++ rest)
       (length done + (length line + 1))) w.
Proof.
  intros (N & F & L) R. cbn [fail_lines].
  replace (Nat.ltb (length done) (length (done ++ line ++ rest))) with true
    by (symmetry; apply Nat.ltb_lt; rewrite !length_app;
        destruct line; [contradiction|simpl; lia]).
  rewrite skipn_exact.
  assert (Sp : fst (span_until [LF] (line ++ rest)) = line).
  { destruct R as [->|[r ->]].
    - rewrite app_nil_r, (span_until_whole [LF] line F). reflexivity.
    - rewrite (span_until_token [LF] line LF r F eq_refl). reflexivity. }
  rewrite Sp, firstn_exact.
  replace (Nat.ltb 0 (length line)) with true
    by (symmetry; apply Nat.ltb_lt; destruct line; [contradiction|simpl; lia]).
  reflexivity.
Qed.

Lemma fail_lines_stop (left : nat) (done tail : str) (w : world) :
  tail = [] \/ (exists r, tail = LF :: r) ->
  fail_lines H left target (done ++ tail) (length done) w = Ok tt w [].
Proof.
  intros R. destruct left as [|left]; [reflexivity|]. cbn [fail_lines].
  destruct R as [->|[r ->]].
  - rewrite app_nil_r, Nat.ltb_irrefl. reflexivity.
  - replace (Nat.ltb (length done) (length (done ++ LF :: r))) with true
      by (symmetry; apply Nat.ltb_lt; rewrite length_app; simpl; lia).
    rewrite skipn_exact. reflexivity.
Qed.

Lemma fail_lines_past (left : nat) (quote : str) (sum : nat) (w : world) :
  length quote <= sum -> fail_lines H left target quote sum w = Ok tt w [].
Proof.
  intros L. destruct left as [|left]; [reflexivity|]. cbn [fail_lines].
  replace (Nat.ltb sum (length quote)) with false
    by (symmetry; apply Nat.ltb_ge; exact L).
  reflexivity.
Qed.

Lemma send_whole_line (line : str) (w : world) :
  whole_line H target line ->
  send_message H target line w
  = Ok tt w [Sent (lit "PRIVMSG " ++ target ++ lit " :" ++ line ++ CRLF)].
Proof.
  intros (N & _ & L). unfold send_message.
  rewrite (irc_command_text H (lit "PRIVMSG") target line w N)
    by (simpl; lia).
  reflexivity.
Qed.

Lemma fail_lines_run (lines : list str) (tail : str) :
  Forall (whole_line H target) lines ->
  tail = [] \/ (exists r, tail = LF :: r) ->
  forall (left : nat) (done : str) (w : world),
    length lines <= left ->
    fail_lines H left target (done ++ quote_text lines tail) (length done) w
    = Ok tt w (fail_trace target lines).
Proof.
  intros W R. induction W as [|line lines Wl Ws IH]; intros left done w L.
  - apply fail_lines_stop, R.
  - destruct left as [|left]; [simpl in L; lia|].
    cbn [quote_text].
    change (line ++ LF :: quote_text lines tail)
      with (line ++ (LF :: quote_text lines tail)).
    rewrite (fail_lines_line left done line (LF :: quote_text lines tail) w Wl)
      by (right; eexists; reflexivity).
    unfold bind at 1. rewrite (send_whole_line line w Wl).
    unfold bind at 1. unfold emit at 1.
    replace (done ++ line ++ LF :: quote_text lines tail)
      with ((done ++ line ++ [LF]) ++ quote_text lines tail)
      by (now rewrite <- !app_assoc).
    replace (length done + (length line + 1))
      with (length (done ++ line ++ [LF]))
      by (rewrite !length_app; simpl; lia).
    rewrite IH by (simpl in L; lia).
    reflexivity.
Qed.

Lemma fail_lines_run_last (lines : list str) (last : str) :
  Forall (whole_line H target) lines -> whole_line H target last ->
  forall (left : nat) (done : str) (w : world),
    length lines < left ->
    fail_lines H left target (done ++ quote_text lines last) (length done) w
    = Ok tt w (fail_trace target (lines ++ [last])).
Proof.
  intros W Wl. induction W as [|line lines Wn Ws IH]; intros left done w L.
  - destruct left as [|left]; [simpl in L; lia|].
    cbn [quote_text app].
    rewrite <- (app_nil_r last) at 1.
    rewrite (fail_lines_line left done last [] w Wl) by now left.
    unfold bind at 1. rewrite (send_whole_line last w Wl).
    unfold bind at 1. unfold emit at 1.
    rewrite fail_lines_past by (rewrite !length_app; simpl; lia).
    reflexivity.
  - destruct left as [|left]; [simpl in L; lia|].
    cbn [quote_text app].
    change (line ++ LF :: quote_text lines last)
      with (line ++ (LF :: quote_text lines last)).
    rewrite (fail_lines_line left done line (LF :: quote_text lines last) w Wn)
      by (right; eexists; reflexivity).
    unfold bind at 1. rewrite (send_whole_line line w Wn).
    unfold bind at 1. unfold emit at 1.
    replace (done ++ line ++ LF :: quote_text lines last)
      with ((done ++ line ++ [LF]) ++ quote_text lines last)
      by (now rewrite <- !app_assoc).
    replace (length done + (length line + 1))
      with (length (done ++ line ++ [LF]))
      by (rewrite !length_app; simpl; lia).
    rewrite IH by (simpl in L; lia).
    reflexivity.
Qed.

End Fail.

(** X26: [bot_fail] sends the lines of the quote one by one, each in a
    PRIVMSG to the reply target followed by a second of sleep.  It goes on to
    the end of the quote, whether or not the last line ends with a newline,
    and it stops at the first empty line: what follows one is not sent. *)
Theorem bot_fail_sends_line_by_line
  (H : irc_h) (target : str) (lines : list str) (w : world) :
  Forall (whole_line H target) lines ->
  (forall tail : str,
     tail = [] \/ (exists r, tail = LF :: r) ->
     bot_fail H target (quote_text lines tail) w
     = Ok tt w (fail_trace target lines)) /\
  (forall last : str,
     whole_line H target last ->
     bot_fail H target (quote_text lines last) w
     = Ok tt w (fail_trace target (lines ++ [last]))).
Proof.
  intros W. split.
  - intros tail R. unfold bot_fail.
    apply (fail_lines_run H target lines tail W R _ [] w).
    pose proof (quote_text_length lines tail). lia.
  - intros last Wl. unfold bot_fail.
    apply (fail_lines_run_last H target lines last W Wl _ [] w).
    pose proof (quote_text_length lines last).
    destruct Wl as (N & _). destruct last; [contradiction|].
    simpl in *. lia.
Qed.

Lemma bot_fail_sends_line_by_line_witness :
  bot_fail sample_irc_h (lit "#chan")
    (quote_text [lit "total"; lit "failure"] (LF :: lit "never sent")) world_abc
  = Ok tt world_abc (fail_trace (lit "#chan") [lit "total"; lit "failure"]) /\
  bot_fail sample_irc_h (lit "#chan")
    (quote_text [lit "total"; lit "failure"] (lit "fail indeed")) world_abc
  = Ok tt world_abc
      (fail_trace (lit "#chan")
         ([lit "total"; lit "failure"] ++ [lit "fail indeed"])).
Proof.
  assert (W : forall line : str,
            line <> [] -> free_of [LF] line = true -> length line <= 20 ->
            whole_line sample_irc_h (lit "#chan") line).
  { intros line N F L. split; [exact N|]. split; [exact F|]. simpl. lia. }
  destruct (bot_fail_sends_line_by_line sample_irc_h (lit "#chan")
              [lit "total"; lit "failure"] world_abc) as [P1 P2].
  - repeat constructor; apply W;
      first [discriminate | reflexivity | simpl; lia].
  - split.
    + apply P1. right. eexists. reflexivity.
    + apply P2, W; first [discriminate | reflexivity | simpl; lia].
Defined.

(** ** Reads that bring no line *)

(** X27: when the read brought no line, a read that would block leaves in
    [line_offset] the length of what the buffer holds of the line so far and
    sends nothing; any other outcome, the end of the stream among them, ends
    the process. *)
Theorem failed_read_waits_or_exits
  (H : irc_h) (function_lookup : str -> option handler)
  (n : Z) (s : str) (stale : buffer) (w : world) :
  (n <= 0)%Z -> nul_free s = true ->
  (n = (- EAGAIN)%Z ->
   parse_irc_line H function_lookup n (s ++ NUL :: stale) w
   = Ok n (with_server w (with_line_offset (server w) (length s))) []) /\
  (n <> (- EAGAIN)%Z ->
   parse_irc_line H function_lookup n (s ++ NUL :: stale) w = Fault Exited).
Proof.
  intros L F. unfold parse_irc_line.
  replace (n <=? 0)%Z with true by (symmetry; apply Z.leb_le; exact L).
  split; intros E.
  - replace (n =? - EAGAIN)%Z with true by (symmetry; apply Z.eqb_eq; exact E).
    cbn [negb]. unfold bind, lift, modify_server, ret.
    rewrite (cstr_app_nul s stale F). reflexivity.
  - replace (n =? - EAGAIN)%Z with false
      by (symmetry; apply Z.eqb_neq; exact E).
    reflexivity.
Qed.

Lemma failed_read_waits_or_exits_witness :
  ((-11)%Z = (- EAGAIN)%Z ->
   parse_irc_line sample_irc_h sample_lookup (-11)
     (lit ":irc.example.net 00" ++ NUL :: []) world_abc
   = Ok (-11)%Z
       (with_server world_abc
          (with_line_offset (server world_abc)
             (length (lit ":irc.example.net 00")))) []) /\
  ((-11)%Z <> (- EAGAIN)%Z ->
   parse_irc_line sample_irc_h sample_lookup (-11)
     (lit ":irc.example.net 00" ++ NUL :: []) world_abc
   = Fault Exited).
Proof.
  apply (failed_read_waits_or_exits sample_irc_h sample_lookup (-11)
           (lit ":irc.example.net 00") [] world_abc).
  - lia.
  - reflexivity.
Defined.

(** ** The channel set and the table: a kick while the table is full *)

Lemma run_joins (H : irc_h) (function_lookup : str -> option handler)
  (names : list str) (ops : list operation) :
  forall w : world,
    run_operations H function_lookup
      (map (fun name => op_join (Some name)) names ++ ops) w
    = bind (join_each H names) (fun _ => run_operations H function_lookup ops) w.
Proof.
  induction names as [|n names IH]; intros w;
    cbn [map app run_operations run_operation join_each].
  - unfold bind, ret. now destruct (run_operations H function_lookup ops w).
  - unfold bind in *. unfold ret.
    destruct (join_channel H (Some n) w) as [r w1 t1|f]; [|reflexivity].
    rewrite IH.
    destruct (join_each H names w1) as [u w2 t2|f]; [|reflexivity].
    destruct (run_operations H function_lookup ops w2) as [b w3 t3|f];
      [|reflexivity].
    now rewrite app_nil_r, app_assoc.
Qed.

Lemma join_channel_keeps_nick (H : irc_h) (name : str)
  (w : world) (r : Z) (w' : world) (t : list event) :
  join_channel H (Some name) w = Ok r w' t ->
  nick (server w') = nick (server w).
Proof.
  intros E.
  unfold join_channel, set_channel_row, irc_channel_command, _irc_command,
    channel_row in E.
  run_inv; reflexivity.
Qed.

Lemma join_each_keeps_nick (H : irc_h) (names : list str) :
  forall (w w' : world) (t : list event),
    join_each H names w = Ok tt w' t -> nick (server w') = nick (server w).
Proof.
  induction names as [|n names IH]; intros w w' t E; cbn [join_each] in E;
    run_inv; [reflexivity|].
  match goal with
  | E1 : join_channel _ _ _ = _, E2 : join_each _ _ _ = Ok ?u _ _ |- _ =>
      destruct u; apply IH in E2; apply join_channel_keeps_nick in E1;
      congruence
  end.
Qed.

(** A KICK of the bot from a channel that is not recorded, with every row
    of the table in use: the search ends at index MAXCHANS, and the copy
    [strncpy(server->channels[i], ...)] has the row behind the table as its
    destination. *)
Lemma kick_at_full_table
  (H : irc_h) (w : world) (kicker host chan me reason : str)
  (names : list str) :
  kick_context H w kicker chan me ->
  recorded (server w) = map Val names ->
  channels_set (server w) = Z.of_nat (length names) ->
  ~ In chan names ->
  1 <= length names -> length names = MAXCHANS H ->
  irc_kick H (kick_of kicker host chan me reason) w = Fault OutOfBounds.
Proof.
  intros K R Ecs Ni Pos Full.
  rewrite (irc_kick_of_own H w kicker host chan me reason K).
  destruct K as (Sz & _ & _ & _ & _ & Cn & _ & Li).
  destruct (channel_name_inv H _ Cn) as (_ & Fc & _).
  assert (Lc : length (channels (server w)) = MAXCHANS H) by apply Sz.
  rewrite Ecs. unfold kick_rejoin. rewrite Nat2Z.id.
  eapply bind_ok_fault; [reflexivity|]. cbv beta.
  destruct (recorded_rows _ _ R Ecs) as (rows & free & Ec & Er & Lr).
  assert (free = []) as ->.
  { destruct free; [reflexivity|]. rewrite Ec, length_app in Lc.
    simpl in Lc. lia. }
  rewrite app_nil_r in Ec.
  assert (Ex : exists src, nth_error (channels (server w))
                             (length names - 1) = Some src).
  { destruct (nth_error (channels (server w)) (length names - 1)) eqn:E;
      [eauto|].
    apply nth_error_None in E. lia. }
  destruct Ex as (src & Esrc).
  eapply bind_ok_fault.
  { rewrite <- Lr.
    apply (find_channel_misses H chan (with_save w reason) names
             [] rows [] Lc); auto.
    cbn [server with_save app]. now rewrite app_nil_r. }
  cbv beta.
  eapply bind_ok_fault; [reflexivity|]. cbv beta.
  eapply bind_ok_fault; [reflexivity|]. cbv beta.
  eapply bind_ok_fault.
  { cbn [server with_server with_save channels_set with_channels_set].
    rewrite Ecs.
    replace (Z.of_nat (length names) - 1)%Z
      with (Z.of_nat (length names - 1)) by lia.
    apply channel_row_at; [exact Lc|exact Esrc]. }
  cbv beta.
  apply bind_fault. apply channel_row_outside.
  cbn [length app]. rewrite Lr, Full. lia.
Qed.

Lemma sized_calloc (H : irc_h) : sized H (calloc_irc H).
Proof.
  unfold sized, calloc_irc. cbn [nick channels].
  rewrite !repeat_length. split; [reflexivity|]. split; [reflexivity|].
  apply Forall_forall. intros row I. apply repeat_spec in I. subst row.
  apply repeat_length.
Qed.

(** C9, a defect of the code: from the empty channel set of a fresh
    connection, MAXCHANS joins and one "nickname in use" reply lead, within
    the bound, to a full table and the nick ["_"]; a KICK of that nick from
    a channel that is not recorded then makes [irc_kick] copy into the row
    behind the table, over the members that follow it, the channel count
    among them. *)
Theorem kick_with_full_table_overruns_channel_table
  (H : irc_h) (function_lookup : str -> option handler)
  (names : list str) (kicker host chan reason version password : str) :
  1 <= MAXCHANS H -> length names = MAXCHANS H -> 2 <= NICKLEN H ->
  forallb (channel_name H) names = true ->
  channel_name H chan = true -> strchr chan " " = false ->
  ~ In chan names ->
  strchr kicker "!" = false ->
  length kicker + CHANLEN H + 61 <= IRCLEN H ->
  (exists (w : world) (t : list event),
     run_operations H function_lookup
       (map (fun name => op_join (Some name)) names
          ++ [op_numeric (NICKNAMEINUSE H)])
       (initial_world H version password)
     = Ok tt w t /\
     channels_set (server w) = Z.of_nat (MAXCHANS H) /\
     recorded (server w) = map Val names /\
     cstr (nick (server w)) = Val (lit "_")) /\
  run_operations H function_lookup
    (map (fun name => op_join (Some name)) names
       ++ [op_numeric (NICKNAMEINUSE H);
           op_kick (kick_of kicker host chan (lit "_") reason)])
    (initial_world H version password)
  = Fault OutOfBounds.
Proof.
  intros Pm Ln Lk Cn Cc Sc Ni Nk Li.
  set (w0 := initial_world H version password).
  assert (Sz0 : sized H (server w0)) by apply sized_calloc.
  destruct (join_each_records H names w0 [] Sz0 eq_refl ltac:(simpl; lia)
              eq_refl Cn ltac:(simpl; lia))
    as (w1 & Ej & Sz1 & Nc1 & Cs1 & R1).
  cbn [app] in R1.
  assert (N1 : nick (server w1) = repeat NUL (NICKLEN H))
    by exact (join_each_keeps_nick H names w0 w1 [] Ej).
  assert (C1 : cstr (nick (server w1)) = Val [])
    by (rewrite N1; destruct (NICKLEN H); [lia|reflexivity]).
  assert (En := nick_in_use_stores H [] w1 (proj1 Sz1) C1 ltac:(simpl; lia)).
  cbn [app] in En.
  set (w2 := with_server w1
               (with_nick (server w1) (stored (NICKLEN H) (lit "_")))) in *.
  assert (Cs2 : channels_set (server w2) = Z.of_nat (length names))
    by (cbn [w2 server with_server channels_set with_nick]; rewrite Cs1;
        simpl; lia).
  assert (R2 : recorded (server w2) = map Val names) by exact R1.
  assert (C2 : cstr (nick (server w2)) = Val (lit "_"))
    by (apply cstr_stored; reflexivity).
  assert (K : kick_context H w2 kicker chan (lit "_")).
  { split; [|split; [exact C2|]].
    - destruct Sz1 as (_ & Lc & Fr). split; [|split; assumption].
      apply stored_length. simpl. lia.
    - split; [discriminate|]. split; [reflexivity|]. auto. }
  assert (Ek := kick_at_full_table H w2 kicker host chan (lit "_") reason
                  names K R2 Cs2 Ni ltac:(lia) Ln).
  split.
  - exists w2. eexists. split; [|split; [|split]].
    + rewrite run_joins. unfold bind at 1. rewrite Ej.
      cbn [run_operations run_operation].
      unfold bind, ret. rewrite En. reflexivity.
    + rewrite Cs2, Ln. reflexivity.
    + exact R2.
    + exact C2.
  - rewrite run_joins. unfold bind at 1. rewrite Ej.
    cbn [run_operations run_operation].
    unfold bind, ret. rewrite En, Ek. reflexivity.
Qed.

Lemma kick_with_full_table_overruns_channel_table_witness :
  (exists (w : world) (t : list event),
     run_operations sample_irc_h sample_lookup
       (map (fun name => op_join (Some name))
            [lit "#a"; lit "#b"; lit "#c"; lit "#d"; lit "#e"]
          ++ [op_numeric (NICKNAMEINUSE sample_irc_h)])
       (initial_world sample_irc_h (lit "irc-bot") (lit "secret"))
     = Ok tt w t /\
     channels_set (server w) = Z.of_nat (MAXCHANS sample_irc_h) /\
     recorded (server w)
     = map Val [lit "#a"; lit "#b"; lit "#c"; lit "#d"; lit "#e"] /\
     cstr (nick (server w)) = Val (lit "_")) /\
  run_operations sample_irc_h sample_lookup
    (map (fun name => op_join (Some name))
         [lit "#a"; lit "#b"; lit "#c"; lit "#d"; lit "#e"]
       ++ [op_numeric (NICKNAMEINUSE sample_irc_h);
           op_kick (kick_of (lit "kicker") (lit "~k@example.org") (lit "#zz")
                      (lit "_") (lit ":bye"))])
    (initial_world sample_irc_h (lit "irc-bot") (lit "secret"))
  = Fault OutOfBounds.
Proof.
  apply (kick_with_full_table_overruns_channel_table sample_irc_h
           sample_lookup [lit "#a"; lit "#b"; lit "#c"; lit "#d"; lit "#e"]
           (lit "kicker") (lit "~k@example.org") (lit "#zz") (lit ":bye")
           (lit "irc-bot") (lit "secret")).
  - simpl. lia.
  - reflexivity.
  - simpl. lia.
  - reflexivity.
  - reflexivity.
  - reflexivity.
  - simpl. intros [E|[E|[E|[E|[E|[]]]]]]; discriminate E.
  - reflexivity.
  - simpl. lia.
Defined.
